(** * Asana to Google Sheets webhook relay: a shallow embedding

    The development follows the JavaScript sources of the repository:

    - [webhookHandler.js] (the second file kept in [src/src/config/asana.js]):
      the secret store in the hidden sheet [webhook_secrets] and the
      reconciliation of task events against [Sheet1];
    - the CommonJS handler of the webhook endpoint ([src/unnamed/part_006])
      and the ES module handler [src/api/webhook.js];
    - [src/scripts/storeSecret.cjs]: the stand-alone upsert script, with its
      command line;
    - [src/src/controllers/projectController.js]: the pagination helper, the
      retry around each fetch and the rows of the export;
    - [src/scripts/importWorkspaceWebhooks.cjs]: the retry helper of the
      import script and, in the second file kept there, the Express server
      with the rate limiter in front of the Sheets API.

    Asynchronous functions are embedded in a state-and-exception monad over a
    model of the spreadsheet; every call of the Sheets API may fail, as
    dictated by a script of faults carried by the state. Part I holds the
    definitions, Part II the lemmas about them, Part III the properties of the
    specification, each named by its number there, and Part IV further
    properties of the code. *)

From Stdlib Require Import ZArith String Ascii List Lia Bool.
From stdpp Require Import base list strings gmap sets pretty.

Local Open Scope string_scope.
Local Open Scope list_scope.
Local Open Scope nat_scope.

(** * Part I: definitions *)

(** ** JavaScript odds and ends *)

(** Truthiness of a string ([""] is falsy) and of a possibly undefined
    string ([undefined] is falsy). *)
Definition truthy (s : string) : bool := negb (String.eqb s "").

Definition truthy_opt (o : option string) : bool :=
  match o with
  | Some s => truthy s
  | None => false
  end.

(** [a || b] on possibly undefined strings. *)
Definition or_else (a b : option string) : option string :=
  if truthy_opt a then a else b.

(** [o || ""] *)
Definition or_empty (o : option string) : string :=
  match or_else o (Some "") with
  | Some s => s
  | None => ""
  end.

(** [if (v) { ... v ... }]: the value, when it is truthy. *)
Definition if_truthy (o : option string) : option string :=
  if truthy_opt o then o else None.

(** Strict equality [a === b] of two possibly undefined strings. *)
Definition strict_eq (a b : option string) : bool := bool_decide (a = b).

(** [Array.prototype.findIndex]; [None] stands for [-1]. *)
Fixpoint findIndex {A : Type} (p : A -> bool) (l : list A) : option nat :=
  match l with
  | [] => None
  | x :: l' => if p x then Some 0 else option_map S (findIndex p l')
  end.

(** ** The spreadsheet behind the Sheets API *)

(** A row as [values.get] returns it: the cells of the requested columns. *)
Definition row := list string.

Inductive sheet_name := Sheet1 | webhook_secrets.

(** The A1 ranges the code uses: whole columns from a first row on
    (["Sheet1!A:S"], ["webhook_secrets!A:B"], ["webhook_secrets!A2:B"]) and
    single rows (["Sheet1!A7:S7"], ["webhook_secrets!A1:B1"]). Rows are
    1-based. *)
Inductive range :=
| Cols (s : sheet_name) (first : nat)
| RowOf (s : sheet_name) (n : nat).

(** Errors: the API's errors carry a numeric [code]; the others are plain
    JavaScript [Error]s. *)
Inductive error :=
| ApiError (code : nat)
| JsError (message : string).

Definition is_429 (e : error) : bool :=
  match e with
  | ApiError c => Nat.eqb c 429
  | JsError _ => false
  end.

(** A cell as the code sends it: [None] is an [undefined] entry of the
    values array, which the API leaves untouched. *)
Definition values := list (option string).

(** What the program does to the outside world, in order. *)
Inductive event :=
| EvGetMeta
| EvAddSheet
| EvValuesGet (r : range)
| EvValuesUpdate (r : range) (v : values)
| EvValuesAppend (s : sheet_name) (v : values)
| EvDeleteDimension (startIndex endIndex : nat)
| EvFailed (e : error)
| EvSleep (ms : nat).

Definition is_write (ev : event) : bool :=
  match ev with
  | EvAddSheet | EvValuesUpdate _ _ | EvValuesAppend _ _
  | EvDeleteDimension _ _ => true
  | _ => false
  end.

(** A value on its way to a cell: a string, a number (an integer here) or
    [undefined]. *)
Inductive cellval :=
| CUndef
| CStr (s : string)
| CNum (z : Z).

(** A task as the upstream API returns it for the requested [opt_fields]. *)
Record custom_field := mkField {
  cf_name : string;
  enum_value : option string;        (* enum_value.name, if enum_value is set *)
  number_value : option Z;
  text_value : option string;
  display_value : option string
}.

Record project := mkProject {
  project_name : option string;
  project_gid : option string;
  workspace_gid : option string      (* project.workspace?.gid *)
}.

Record task := mkTask {
  gid : string;
  name : string;
  assignee : option string;          (* assignee?.name *)
  completed : bool;
  completed_at : option string;
  custom_fields : option (list custom_field);
  memberships : list (option project) (* memberships[i]?.project *)
}.

(** The world of the program: the module-level cache, one spreadsheet, the
    fate of the calls to come, what has happened, the tasks upstream and the
    state of the credentials. The spreadsheet is the one that the calls
    address, whatever id they name it by: what is said of several calls is
    said of calls for one and the same spreadsheet. *)
Record world := mkWorld {
  cache_id : option string;          (* spreadsheetCache.id *)
  sheet1 : list row;                 (* the cells of Sheet1 *)
  secrets : option (list row);       (* webhook_secrets, if the sheet exists *)
  faults : list (option error);      (* fate of the coming Sheets API calls *)
  trace : list event;                (* what has happened so far *)
  tasks : gmap string task;          (* the tasks upstream, by gid *)
  auth : option error                (* why no Sheets client can be had, if so *)
}.

Definition set_cache_id (v : option string) (w : world) : world :=
  mkWorld v (sheet1 w) (secrets w) (faults w) (trace w) (tasks w) (auth w).
Definition set_sheet1 (v : list row) (w : world) : world :=
  mkWorld (cache_id w) v (secrets w) (faults w) (trace w) (tasks w) (auth w).
Definition set_secrets (v : option (list row)) (w : world) : world :=
  mkWorld (cache_id w) (sheet1 w) v (faults w) (trace w) (tasks w) (auth w).
Definition set_faults (v : list (option error)) (w : world) : world :=
  mkWorld (cache_id w) (sheet1 w) (secrets w) v (trace w) (tasks w) (auth w).
Definition log (ev : event) (w : world) : world :=
  mkWorld (cache_id w) (sheet1 w) (secrets w) (faults w) (trace w ++ [ev])
          (tasks w) (auth w).

(** ** The monad of asynchronous code *)

Inductive result (A : Type) :=
| Ok (a : A)
| Throw (e : error).
Arguments Ok {A} a.
Arguments Throw {A} e.

Definition M (A : Type) : Type := world -> result A * world.

Definition ret {A} (a : A) : M A := fun w => (Ok a, w).
Definition throw {A} (e : error) : M A := fun w => (Throw e, w).
Definition bind {A B} (m : M A) (k : A -> M B) : M B :=
  fun w =>
    match m w with
    | (Ok a, w') => k a w'
    | (Throw e, w') => (Throw e, w')
    end.
Definition try_catch {A} (m : M A) (h : error -> M A) : M A :=
  fun w =>
    match m w with
    | (Ok a, w') => (Ok a, w')
    | (Throw e, w') => h e w'
    end.

Notation "'let!' x ':=' m 'in' k" := (bind m (fun x => k))
  (at level 10, x pattern, m at level 100, k at level 200).
Notation "m ';;' k" := (bind m (fun _ => k))
  (at level 100, k at level 200, right associativity).

(** [await new Promise((resolve) => setTimeout(resolve, ms))] *)
Definition sleep (ms : nat) : M unit :=
  fun w => (Ok tt, log (EvSleep ms) w).

(** ** The Sheets API *)

(** Every call first meets its fate: the head of [faults], if any. A failed
    call changes nothing in the spreadsheet. *)
Definition api_call {A} (ev : event) (act : world -> result A * world) : M A :=
  fun w =>
    match faults w with
    | Some e :: fs => (Throw e, log (EvFailed e) (log ev (set_faults fs w)))
    | None :: fs => act (log ev (set_faults fs w))
    | [] => act (log ev w)
    end.

Definition sheet_rows (s : sheet_name) (w : world) : option (list row) :=
  match s with
  | Sheet1 => Some (sheet1 w)
  | webhook_secrets => secrets w
  end.

Definition set_sheet_rows (s : sheet_name) (rs : list row) (w : world) : world :=
  match s with
  | Sheet1 => set_sheet1 rs w
  | webhook_secrets => set_secrets (Some rs) w
  end.

(** A range naming a sheet that does not exist is refused (400). *)
Definition on_sheet {A} (s : sheet_name) (f : list row -> world -> result A * world)
  : world -> result A * world :=
  fun w =>
    match sheet_rows s w with
    | Some rs => f rs w
    | None => (Throw (ApiError 400), log (EvFailed (ApiError 400)) w)
    end.

(** [sheets.spreadsheets.get]: the titles of the sheets. *)
Definition spreadsheets_get : M (list string) :=
  api_call EvGetMeta (fun w =>
    (Ok ("Sheet1" :: match secrets w with
                     | Some _ => ["webhook_secrets"]
                     | None => []
                     end), w)).

(** [sheets.spreadsheets.batchUpdate] with an [addSheet] request for the
    hidden sheet. *)
Definition batchUpdate_addSheet : M unit :=
  api_call EvAddSheet (fun w =>
    match secrets w with
    | Some _ => (Throw (ApiError 400), log (EvFailed (ApiError 400)) w)
    | None => (Ok tt, set_secrets (Some []) w)
    end).

(** [sheets.spreadsheets.values.get]; an empty answer stands for a missing
    [values] field, which the callers replace by [[]]. *)
Definition values_get (r : range) : M (list row) :=
  api_call (EvValuesGet r)
    (match r with
     | Cols s first => on_sheet s (fun rs w => (Ok (drop (first - 1) rs), w))
     | RowOf s n =>
         on_sheet s (fun rs w =>
           (Ok (match rs !! (n - 1) with
                | Some r => [r]
                | None => []
                end), w))
     end).

(** Writing [v] over an existing row: [undefined] entries keep the old
    cell. *)
Fixpoint overlay (v : values) (old : row) : row :=
  match v with
  | [] => old
  | c :: v' =>
      match c with
      | Some s => s
      | None => hd "" old
      end :: overlay v' (tl old)
  end.

(** Row [n] (1-based) of a sheet receives [v]; the sheet grows by blank rows
    when it is shorter. *)
Definition write_row (n : nat) (v : values) (rs : list row) : list row :=
  let padded := rs ++ replicate (n - length rs) [] in
  match padded !! (n - 1) with
  | Some old => <[n - 1 := overlay v old]> padded
  | None => padded
  end.

(** [sheets.spreadsheets.values.update] of a single row. *)
Definition values_update (s : sheet_name) (n : nat) (v : values) : M unit :=
  api_call (EvValuesUpdate (RowOf s n) v)
    (on_sheet s (fun rs w => (Ok tt, set_sheet_rows s (write_row n v rs) w))).

(** [sheets.spreadsheets.values.append] with [INSERT_ROWS]: a new row after
    the last one. *)
Definition values_append (s : sheet_name) (v : values) : M unit :=
  api_call (EvValuesAppend s v)
    (on_sheet s (fun rs w => (Ok tt, set_sheet_rows s (rs ++ [overlay v []]) w))).

(** A row of [values] that holds an array or an object is no row of cells:
    the call [ev], shown with the cells that could be taken, is refused
    (400), if it does not fail before. *)
Definition values_refused (ev : event) : M unit :=
  api_call ev (fun w => (Throw (ApiError 400), log (EvFailed (ApiError 400)) w)).

(** [sheets.spreadsheets.batchUpdate] with a [deleteDimension] request on the
    rows [[startIndex, endIndex)] (0-based) of the sheet with id 0, that is
    [Sheet1]: the rows below move up. *)
Definition batchUpdate_deleteDimension (startIndex endIndex : nat) : M unit :=
  api_call (EvDeleteDimension startIndex endIndex) (fun w =>
    (Ok tt, set_sheet1 (take startIndex (sheet1 w) ++ drop endIndex (sheet1 w)) w)).

(** ** [webhookHandler.js]: the secret store and the reconciler *)

Module WebhookHandler.

(** [setSpreadsheetId] *)
Definition setSpreadsheetId (id : option string) : M unit :=
  fun w => (Ok tt, set_cache_id id w).

(** [getSpreadsheetId] *)
Definition getSpreadsheetId : M string :=
  fun w =>
    match cache_id w with
    | Some id =>
        if truthy id then (Ok id, w)
        else (Throw (JsError "Spreadsheet ID not set. Please set it before using webhook functions."), w)
    | None =>
        (Throw (JsError "Spreadsheet ID not set. Please set it before using webhook functions."), w)
    end.

(** [if (spreadsheetId) { setSpreadsheetId(spreadsheetId); }] *)
Definition remember (spreadsheetId : option string) : M unit :=
  if truthy_opt spreadsheetId then setSpreadsheetId spreadsheetId else ret tt.

(** [ensureWebhookSecretsSheet]; its [catch] logs and rethrows. *)
Definition ensureWebhookSecretsSheet (spreadsheetId : option string) : M unit :=
  remember spreadsheetId ;;
  let! _ := getSpreadsheetId in
  let! titles := spreadsheets_get in
  if existsb (String.eqb "webhook_secrets") titles then ret tt
  else
    let! _ := getSpreadsheetId in
    batchUpdate_addSheet ;;
    let! _ := getSpreadsheetId in
    values_update webhook_secrets 1 [Some "webhook_id"; Some "secret"].

(** The retry the callers wrap around a step: on an error with code 429,
    wait five seconds and run [again] once; any other error is rethrown. *)
Definition retry_once_on_429 {A} (first again : M A) : M A :=
  try_catch first (fun e =>
    if is_429 e then sleep 5000 ;; again else throw e).

(** [(row) => row[0] === webhookId] *)
Definition has_id (webhookId : option string) (r : row) : bool :=
  strict_eq (r !! 0) webhookId.

(** [storeWebhookSecret(sheets, webhookId, secret, spreadsheetId)]; the outer
    [catch] logs and rethrows. *)
Definition storeWebhookSecret (webhookId : option string) (secret : string)
    (spreadsheetId : option string) : M unit :=
  remember spreadsheetId ;;
  retry_once_on_429 (ensureWebhookSecretsSheet spreadsheetId)
                    (ensureWebhookSecretsSheet spreadsheetId) ;;
  let! rows :=
    retry_once_on_429
      (let! _ := getSpreadsheetId in values_get (Cols webhook_secrets 1))
      (let! _ := getSpreadsheetId in values_get (Cols webhook_secrets 1)) in
  let existingSecrets := drop 1 rows in
  match findIndex (has_id webhookId) existingSecrets with
  | Some existingIndex =>
      let! _ := getSpreadsheetId in
      values_update webhook_secrets (existingIndex + 2) [webhookId; Some secret]
  | None =>
      let! _ := getSpreadsheetId in
      values_append webhook_secrets [webhookId; Some secret]
  end.

(** [new Map()] keyed by the secrets: a finite set of strings. The rows of
    ["webhook_secrets!A2:B"] are destructured as [[webhookId, secret]] and
    the truthy secrets kept. *)
Definition collect_secrets (rows : list row) : gset string :=
  foldl (fun acc r =>
           match r !! 1 with
           | Some secret => if truthy secret then {[secret]} ∪ acc else acc
           | None => acc
           end) ∅ rows.

(** The [try] block of [getWebhookSecrets]. *)
Definition getWebhookSecrets_try (spreadsheetId : option string) : M (gset string) :=
  remember spreadsheetId ;;
  retry_once_on_429 (ensureWebhookSecretsSheet spreadsheetId)
                    (ensureWebhookSecretsSheet spreadsheetId) ;;
  let! rows :=
    retry_once_on_429
      (let! _ := getSpreadsheetId in values_get (Cols webhook_secrets 2))
      (let! _ := getSpreadsheetId in values_get (Cols webhook_secrets 2)) in
  ret (collect_secrets rows).

(** [getWebhookSecrets(sheets, spreadsheetId)]: every error is caught and
    answered by an empty map. *)
Definition getWebhookSecrets (spreadsheetId : option string) : M (gset string) :=
  try_catch (getWebhookSecrets_try spreadsheetId) (fun _ => ret ∅).

(** The header row that [ensureWebhookSecretsSheet] writes. *)
Definition header : row := ["webhook_id"; "secret"].

(** The effect of a successful upsert on the rows of [webhook_secrets]. *)
Definition upsert_rows (webhookId : option string) (secret : string)
    (rows : list row) : list row :=
  match findIndex (has_id webhookId) (drop 1 rows) with
  | Some existingIndex => write_row (existingIndex + 2) [webhookId; Some secret] rows
  | None => rows ++ [overlay [webhookId; Some secret] []]
  end.

(** The records of the store are the rows below the header row, as
    [rows.slice(1)] and the range ["webhook_secrets!A2:B"] have it; the
    records of a webhook are those whose first cell is its id. *)
Definition secret_rows (w : world) : list row := default [] (secrets w).

Definition records_of (id : string) (rows : list row) : list row :=
  filter (fun r : row => r !! 0 = Some id) (drop 1 rows).

(** The rows of the sheet whose first cell is [id], the first row of the
    sheet counted like the others. *)
Definition rows_for (id : string) (rows : list row) : list row :=
  filter (fun r : row => r !! 0 = Some id) rows.

(** *** Task events *)

(** A [TaskChangeEvent] whose [action] and [resource] are present. *)
Record task_event := mkEvent {
  action : string;
  resource_type : string;
  resource_gid : string
}.

(** [getGoogleSheetsClient()] of [src/config/googleSheets.js]: credentials
    are parsed and the client authorised, or an error is thrown. *)
Definition getGoogleSheetsClient : M unit :=
  fun w =>
    match auth w with
    | Some e => (Throw e, w)
    | None => (Ok tt, w)
    end.

(** [tasksApi.getTask(taskGid, opts)] *)
Definition getTask (taskGid : string) : M task :=
  fun w =>
    match tasks w !! taskGid with
    | Some t => (Ok t, w)
    | None => (Throw (ApiError 404), w)
    end.

Definition truthy_cell (c : cellval) : bool :=
  match c with
  | CUndef => false
  | CStr s => truthy s
  | CNum z => negb (Z.eqb z 0)
  end.

(** [c || ""] *)
Definition cell_or_empty (c : cellval) : cellval :=
  if truthy_cell c then c else CStr "".

Definition cell_of_opt (o : option string) : cellval :=
  match o with
  | Some s => CStr s
  | None => CUndef
  end.

(** How a value of the request body reaches the sheet. *)
Definition to_value (c : cellval) : option string :=
  match c with
  | CUndef => None
  | CStr s => Some s
  | CNum z => Some (pretty z)
  end.

Definition fieldNames (workspaceId : option string) : list string :=
  ["Worker"; "Status"; "Paid with..."; "Deposit"; "Bonus"; "Max bet"; "WG";
   "Max win"; "Balance"; "Groups"; "Received"; "RM/BM"]
  ++ (if strict_eq workspaceId (Some "1205846480740952") then ["balance"] else []).

(** The value kept for an allow-listed custom field. *)
Definition field_value (f : custom_field) : cellval :=
  match enum_value f with
  | Some n => CStr n
  | None =>
      match number_value f with
      | Some z => CNum z
      | None =>
          if truthy_opt (text_value f) then cell_of_opt (text_value f)
          else cell_of_opt (display_value f)
      end
  end.

Record processed_task := mkProcessed {
  task_name : string;
  p_assignee : string;
  p_completed_at : string;
  p_completed : bool;
  customFieldValues : gmap string cellval
}.

(** [processTaskData(task, workspaceId)] *)
Definition processTaskData (t : task) (workspaceId : option string) : processed_task :=
  let customFieldValues :=
    match custom_fields t with
    | Some fields =>
        foldl (fun acc f =>
                 if existsb (String.eqb (cf_name f)) (fieldNames workspaceId)
                 then <[cf_name f := field_value f]> acc
                 else acc) ∅ fields
    | None => ∅
    end in
  mkProcessed (name t) (or_empty (assignee t)) (or_empty (completed_at t))
              (completed t) customFieldValues.

(** [processedTask[key] || ""] *)
Definition custom (p : processed_task) (key : string) : cellval :=
  cell_or_empty (default CUndef (customFieldValues p !! key)).

(** The row written for a task. *)
Definition rowValues (taskData : task) : list cellval :=
  let membership := default None (memberships taskData !! 0) in
  let projectName := or_empty (membership ≫= project_name) in
  let projectId := or_empty (membership ≫= project_gid) in
  let workspaceId := membership ≫= workspace_gid in
  let processedTask := processTaskData taskData workspaceId in
  [CStr projectName; CStr (task_name processedTask);
   cell_or_empty (CStr (p_assignee processedTask));
   CStr (p_completed_at processedTask);
   custom processedTask "Worker"; custom processedTask "Status";
   custom processedTask "Paid with..."; custom processedTask "Deposit";
   custom processedTask "Bonus"; custom processedTask "Max bet";
   custom processedTask "WG"; custom processedTask "Max win";
   custom processedTask "Balance"; custom processedTask "Groups";
   custom processedTask "Received"; custom processedTask "RM/BM";
   CStr projectId; CStr (gid taskData);
   CStr (if completed taskData then "Yes" else "No")]
  ++ (if strict_eq workspaceId (Some "1205846480740952")
      then [custom processedTask "balance"] else []).

(** The test of the scan of [findTaskRow]:
    [rows[i][17] && rows[i][17] === taskId]. *)
Definition is_task_row (taskId : string) (r : row) : bool :=
  match r !! 17 with
  | Some c => truthy c && String.eqb c taskId
  | None => false
  end.

(** [findTaskRow(sheets, taskId)]: the scan starts below the header, at
    [i = 1], and answers [i + 1]; any error is answered by [null]. *)
Definition findTaskRow (taskId : string) : M (option nat) :=
  try_catch
    (let! _ := getSpreadsheetId in
     let! rows := values_get (Cols Sheet1 1) in
     ret (option_map (fun j => (j + 1) + 1) (findIndex (is_task_row taskId) (drop 1 rows))))
    (fun _ => ret None).

(** [updateSpreadsheetRow(sheets, rowIndex, values)] *)
Definition updateSpreadsheetRow (rowIndex : nat) (v : list cellval) : M unit :=
  let! _ := getSpreadsheetId in
  values_update Sheet1 rowIndex (map to_value v).

(** [addSpreadsheetRow(sheets, values)] *)
Definition addSpreadsheetRow (v : list cellval) : M unit :=
  let! _ := getSpreadsheetId in
  values_append Sheet1 (map to_value v).

(** [deleteSpreadsheetRow(sheets, rowIndex)]: the row is read for the log,
    then removed by a [deleteDimension] request. *)
Definition deleteSpreadsheetRow (rowIndex : nat) : M unit :=
  let! _ := getSpreadsheetId in
  let! _ := values_get (RowOf Sheet1 rowIndex) in
  let! _ := getSpreadsheetId in
  batchUpdate_deleteDimension (rowIndex - 1) rowIndex.

Definition is_special (assignee : option string) : bool :=
  strict_eq assignee (Some "Manager")
  || strict_eq assignee (Some "Withdrawals")
  || strict_eq assignee (Some "Withdraws").

(** [handleWebhookEvent(event, spreadsheetId)]; the outer [catch] logs and
    rethrows. *)
Definition handleWebhookEvent (event : task_event) (spreadsheetId : option string) : M unit :=
  getGoogleSheetsClient ;;
  setSpreadsheetId spreadsheetId ;;
  let taskGid := resource_gid event in
  if String.eqb (action event) "changed" || String.eqb (action event) "added" then
    let! taskData := getTask taskGid in
    let! existingRowIndex := findTaskRow (gid taskData) in
    match existingRowIndex with
    | Some rowIndex => updateSpreadsheetRow rowIndex (rowValues taskData)
    | None =>
        if completed taskData || is_special (assignee taskData)
        then addSpreadsheetRow (rowValues taskData)
        else ret tt
    end
  else if String.eqb (action event) "removed" || String.eqb (action event) "deleted" then
    let! rowIndex := findTaskRow taskGid in
    match rowIndex with
    | Some rowIndex => deleteSpreadsheetRow rowIndex
    | None => ret tt
    end
  else ret tt.

(** The sheet holds exactly one row for [id], whichever row of the sheet it
    is, with [secret] in its second cell. *)
Definition sole_record (id secret : string) (w : world) : Prop :=
  exists r : row, rows_for id (secret_rows w) = [r] /\
                  r !! 0 = Some id /\ r !! 1 = Some secret.

(** The call by which an upsert writes: an update of the row found, or an
    append. *)
Definition upsert_event (webhookId : option string) (secret : string)
    (rows : list row) : event :=
  match findIndex (has_id webhookId) (drop 1 rows) with
  | Some existingIndex =>
      EvValuesUpdate (RowOf webhook_secrets (existingIndex + 2)) [webhookId; Some secret]
  | None => EvValuesAppend webhook_secrets [webhookId; Some secret]
  end.

End WebhookHandler.

(** ** [node:crypto]: SHA-256 and HMAC, on bytes

    [crypto.createHmac('SHA256', key).update(data).digest('hex')] is a library
    function; it is written out here (FIPS 180-4, RFC 2104) so that digests
    can be computed. A string stands for its sequence of bytes. *)

Module Sha256.
Local Open Scope N_scope.

Definition word := N.

Definition mask32 : N := 4294967295.
Definition add32 (a b : word) : word := N.land (a + b) mask32.
Definition rotr (n : N) (x : word) : word :=
  N.lor (N.shiftr x n) (N.land (N.shiftl x (32 - n)) mask32).
Definition not32 (x : word) : word := N.lxor x mask32.

Definition Ch (x y z : word) : word :=
  N.lxor (N.land x y) (N.land (not32 x) z).
Definition Maj (x y z : word) : word :=
  N.lxor (N.lxor (N.land x y) (N.land x z)) (N.land y z).
Definition Sigma0 (x : word) : word :=
  N.lxor (N.lxor (rotr 2 x) (rotr 13 x)) (rotr 22 x).
Definition Sigma1 (x : word) : word :=
  N.lxor (N.lxor (rotr 6 x) (rotr 11 x)) (rotr 25 x).
Definition sigma0 (x : word) : word :=
  N.lxor (N.lxor (rotr 7 x) (rotr 18 x)) (N.shiftr x 3).
Definition sigma1 (x : word) : word :=
  N.lxor (N.lxor (rotr 17 x) (rotr 19 x)) (N.shiftr x 10).

Definition K : list word :=
  [1116352408; 1899447441; 3049323471; 3921009573; 961987163; 1508970993;
   2453635748; 2870763221; 3624381080; 310598401; 607225278; 1426881987;
   1925078388; 2162078206; 2614888103; 3248222580; 3835390401; 4022224774;
   264347078; 604807628; 770255983; 1249150122; 1555081692; 1996064986;
   2554220882; 2821834349; 2952996808; 3210313671; 3336571891; 3584528711;
   113926993; 338241895; 666307205; 773529912; 1294757372; 1396182291;
   1695183700; 1986661051; 2177026350; 2456956037; 2730485921; 2820302411;
   3259730800; 3345764771; 3516065817; 3600352804; 4094571909; 275423344;
   430227734; 506948616; 659060556; 883997877; 958139571; 1322822218;
   1537002063; 1747873779; 1955562222; 2024104815; 2227730452; 2361852424;
   2428436474; 2756734187; 3204031479; 3329325298].

Definition H0 : list word :=
  [1779033703; 3144134277; 1013904242; 2773480762;
   1359893119; 2600822924; 528734635; 1541459225].

Definition bytes := list N.

Definition bytes_of_string (s : string) : bytes :=
  map N_of_ascii (list_ascii_of_string s).

(** Big-endian bytes of the low [n] bytes of [x]. *)
Fixpoint be_bytes (n : nat) (x : N) : bytes :=
  match n with
  | O => []
  | S n' => N.land (N.shiftr x (8 * N.of_nat n')) 255 :: be_bytes n' x
  end.

(** Padding: a one bit, zeros up to 56 modulo 64, the bit length on eight
    bytes. *)
Definition pad (msg : bytes) : bytes :=
  let len := N.of_nat (length msg) in
  let zeros := N.to_nat ((119 - len mod 64) mod 64) in
  msg ++ [128] ++ replicate zeros 0 ++ be_bytes 8 (8 * len).

Fixpoint words_of_bytes (fuel : nat) (b : bytes) : list word :=
  match fuel, b with
  | S fuel', b0 :: b1 :: b2 :: b3 :: rest =>
      (N.shiftl b0 24 + N.shiftl b1 16 + N.shiftl b2 8 + b3)
      :: words_of_bytes fuel' rest
  | _, _ => []
  end.

Definition nthw (l : list word) (i : nat) : word := nth i l 0.

(** The message schedule: sixteen words of the block, extended to 64. *)
Fixpoint schedule (n : nat) (w : list word) : list word :=
  match n with
  | O => w
  | S n' =>
      let t := length w in
      schedule n'
        (w ++ [add32 (add32 (sigma1 (nthw w (t - 2))) (nthw w (t - 7)))
                     (add32 (sigma0 (nthw w (t - 15))) (nthw w (t - 16)))])
  end.

Record regs := mkRegs { ra : word; rb : word; rc : word; rd : word;
                        re : word; rf : word; rg : word; rh : word }.

Definition round (r : regs) (kw : word * word) : regs :=
  let T1 := add32 (add32 (add32 (rh r) (Sigma1 (re r)))
                         (add32 (Ch (re r) (rf r) (rg r)) (fst kw))) (snd kw) in
  let T2 := add32 (Sigma0 (ra r)) (Maj (ra r) (rb r) (rc r)) in
  mkRegs (add32 T1 T2) (ra r) (rb r) (rc r) (add32 (rd r) T1) (re r) (rf r) (rg r).

Definition regs_of (h : list word) : regs :=
  mkRegs (nthw h 0) (nthw h 1) (nthw h 2) (nthw h 3)
         (nthw h 4) (nthw h 5) (nthw h 6) (nthw h 7).

Definition compress (h : list word) (block : list word) : list word :=
  let r := fold_left round (combine K (schedule 48 block)) (regs_of h) in
  [add32 (nthw h 0) (ra r); add32 (nthw h 1) (rb r); add32 (nthw h 2) (rc r);
   add32 (nthw h 3) (rd r); add32 (nthw h 4) (re r); add32 (nthw h 5) (rf r);
   add32 (nthw h 6) (rg r); add32 (nthw h 7) (rh r)].

Fixpoint blocks (fuel : nat) (h : list word) (ws : list word) : list word :=
  match fuel with
  | O => h
  | S fuel' =>
      match ws with
      | [] => h
      | _ => blocks fuel' (compress h (firstn 16 ws)) (skipn 16 ws)
      end
  end.

Definition sha256 (msg : bytes) : bytes :=
  let p := pad msg in
  let ws := words_of_bytes (length p) p in
  flat_map (be_bytes 4) (blocks (length ws) H0 ws).

Definition hmac (key msg : bytes) : bytes :=
  let k := if 64 <? N.of_nat (length key) then sha256 key else key in
  let k := k ++ replicate (64 - length k)%nat 0 in
  sha256 (map (N.lxor 92) k ++ sha256 (map (N.lxor 54) k ++ msg)).

Definition hex_digit (n : N) : ascii :=
  ascii_of_N (if n <? 10 then 48 + n else 87 + n).

Definition hex (b : bytes) : string :=
  string_of_list_ascii
    (flat_map (fun x => [hex_digit (N.shiftr x 4); hex_digit (N.land x 15)]) b).

(** [crypto.createHmac('SHA256', secret).update(data).digest('hex')] *)
Definition hmac_sha256_hex (secret data : string) : string :=
  hex (hmac (bytes_of_string secret) (bytes_of_string data)).

End Sha256.

(** ** JSON values and [JSON.stringify]

    Request bodies are JSON values; numbers are integers here, and an object
    lists its properties in order. *)

Module Json.

#[warnings="-register-all"]
Inductive json :=
| JNull
| JBool (b : bool)
| JNum (z : Z)
| JStr (s : string)
| JArr (items : list json)
| JObj (fields : list (string * json)).

Definition dquote : ascii := "034"%char.
Definition backslash : ascii := "092"%char.

Definition hex4 (n : nat) : string :=
  let d := fun k => Sha256.hex_digit (N.of_nat k) in
  String "0" (String "0" (String (d (n / 16)) (String (d (n mod 16)) EmptyString))).

(** The escapes of [JSON.stringify]. *)
Definition escape_char (c : ascii) : string :=
  let n := nat_of_ascii c in
  if n =? 34 then String backslash (String dquote EmptyString)
  else if n =? 92 then String backslash (String backslash EmptyString)
  else if n =? 8 then String backslash "b"
  else if n =? 12 then String backslash "f"
  else if n =? 10 then String backslash "n"
  else if n =? 13 then String backslash "r"
  else if n =? 9 then String backslash "t"
  else if n <? 32 then String backslash (String "u" (hex4 n))
  else String c EmptyString.

Fixpoint escape (s : string) : string :=
  match s with
  | EmptyString => EmptyString
  | String c s' => escape_char c +:+ escape s'
  end.

Definition quote (s : string) : string :=
  String dquote (escape s +:+ String dquote EmptyString).

Definition join (sep : string) (l : list string) : string :=
  match l with
  | [] => EmptyString
  | x :: l' => fold_left (fun acc y => acc +:+ sep +:+ y) l' x
  end.

(** [JSON.stringify(value)] without indentation. *)
Fixpoint stringify (j : json) : string :=
  match j with
  | JNull => "null"
  | JBool b => if b then "true" else "false"
  | JNum z => pretty z
  | JStr s => quote s
  | JArr items => "[" +:+ join "," (List.map stringify items) +:+ "]"
  | JObj fields =>
      "{" +:+ join "," (List.map (fun kv => quote (fst kv) +:+ ":" +:+ stringify (snd kv)) fields)
      +:+ "}"
  end.

Definition truthy_json (j : json) : bool :=
  match j with
  | JNull => false
  | JBool b => b
  | JNum z => negb (Z.eqb z 0)
  | JStr s => truthy s
  | JArr _ | JObj _ => true
  end.

(** [value[key]] on a value that is not [null]; [None] is [undefined]. *)
Fixpoint assoc (key : string) (fields : list (string * json)) : option json :=
  match fields with
  | [] => None
  | (k, v) :: rest => if String.eqb k key then Some v else assoc key rest
  end.

Definition get (key : string) (j : json) : option json :=
  match j with
  | JObj fields => assoc key fields
  | _ => None
  end.

(** [value?.[key]] on a possibly undefined or null value. *)
Definition get_opt (key : string) (o : option json) : option json :=
  match o with
  | Some JNull | None => None
  | Some j => get key j
  end.

(** A value used where the code expects a string. *)
Definition as_string (o : option json) : option string :=
  match o with
  | Some (JStr s) => Some s
  | _ => None
  end.

End Json.

(** ** HTTP requests and responses *)

Record request := mkRequest {
  headers : gmap string string;            (* req.headers, names in lower case *)
  query : option (list (string * string)); (* searchParams of new URL(req.url, base);
                                              None when the constructor throws *)
  body : option Json.json;                 (* req.body, when the platform parsed it *)
  raw : string;                            (* the bytes of the body on the wire *)
  parsed : option Json.json                (* JSON.parse(raw); None when it throws *)
}.

Record response := mkResponse {
  statusCode : nat;
  res_headers : gmap string string;
  res_body : string
}.

(** [new URL(req.url, base)] *)
Definition new_URL (req : request) : M (list (string * string)) :=
  match query req with
  | Some q => ret q
  | None => throw (JsError "Invalid URL")
  end.

(** [url.searchParams.get(name)] *)
Fixpoint searchParams_get (q : list (string * string)) (name : string) : option string :=
  match q with
  | [] => None
  | (k, v) :: rest => if String.eqb k name then Some v else searchParams_get rest name
  end.

(** ** The CommonJS handler of the webhook endpoint ([src/unnamed/part_006]) *)

Module WebhookCjs.
Import Json WebhookHandler.

(** [parseRequestBody(req)]: a truthy [req.body] is taken as it is; otherwise
    the stream is read and parsed, [{}] standing in for an empty or
    unparsable body. *)
Definition parseRequestBody (req : request) : json :=
  match body req with
  | Some b => if truthy_json b then b else
                if truthy (raw req) then default (JObj []) (parsed req) else JObj []
  | None => if truthy (raw req) then default (JObj []) (parsed req) else JObj []
  end.

(** An element of [body.events] as [handleWebhookEvent] reads it: without a
    [resource] the first property access throws; an [action] or a [gid] that
    is not a string matches no row and no case. *)
Definition decode_event (e : json) : option task_event :=
  match e with
  | JNull => None
  | _ =>
      match get "resource" e with
      | None | Some JNull => None
      | Some r =>
          Some (mkEvent (default "" (as_string (get "action" e)))
                        (default "" (as_string (get "resource_type" r)))
                        (default "" (as_string (get "gid" r))))
      end
  end.

(** The loop over [body.events], started without being awaited once the
    response is sent; an event that fails is logged and skipped. *)
Fixpoint processEvents (events : list json) (spreadsheetId : option string) : M unit :=
  match events with
  | [] => ret tt
  | event :: rest =>
      try_catch
        (match decode_event event with
         | Some ev => handleWebhookEvent ev spreadsheetId
         | None => throw (JsError "TypeError")
         end)
        (fun _ => ret tt) ;;
      processEvents rest spreadsheetId
  end.

(** [for (const [secret] of webhookSecrets)]: is there a stored secret whose
    HMAC over [bodyString] is the signature? *)
Definition isValid (webhookSecrets : gset string) (bodyString signature : string) : bool :=
  existsb (fun secret => String.eqb (Sha256.hmac_sha256_hex secret bodyString) signature)
          (elements webhookSecrets).

(** *** The id of a handshake

    The handler passes [body.data?.id] on as it comes: a string in the
    requests of the upstream service, but, as far as the code goes, any JSON
    value or [undefined]. [storeWebhookSecret] compares it with the first
    cells it has read, which are strings or [undefined], and sends it as the
    first cell of the row [[webhookId, secret]]. *)

(** [body.data?.id]; a [null] body has no properties, and reading [data] off
    it throws. *)
Definition body_id (body : json) : M (option json) :=
  match body with
  | JNull => throw (JsError "TypeError")
  | _ => ret (get_opt "id" (get "data" body))
  end.

(** [(row) => row[0] === webhookId] *)
Definition has_json_id (webhookId : option json) (r : row) : bool :=
  match webhookId with
  | None => has_id None r
  | Some (JStr id) => has_id (Some id) r
  | Some _ => false
  end.

(** What the API makes of [webhookId] as a cell: [undefined] and [null] leave
    the cell as it is, a string is stored as it is, a number and a boolean are
    read back as text; an array or an object is no cell value ([None]). *)
Definition id_cell (webhookId : option json) : option (option string) :=
  match webhookId with
  | None | Some JNull => Some None
  | Some (JStr id) => Some (Some id)
  | Some (JNum z) => Some (Some (pretty z))
  | Some (JBool b) => Some (Some (if b then "TRUE" else "FALSE"))
  | Some (JArr _) | Some (JObj _) => None
  end.

(** The two writes of the row [[webhookId, secret]]. *)
Definition update_secret (n : nat) (webhookId : option json) (secret : string) : M unit :=
  match id_cell webhookId with
  | Some c => values_update webhook_secrets n [c; Some secret]
  | None => values_refused (EvValuesUpdate (RowOf webhook_secrets n) [None; Some secret])
  end.

Definition append_secret (webhookId : option json) (secret : string) : M unit :=
  match id_cell webhookId with
  | Some c => values_append webhook_secrets [c; Some secret]
  | None => values_refused (EvValuesAppend webhook_secrets [None; Some secret])
  end.

(** [storeWebhookSecret(sheets, webhookId, hookSecret, spreadsheetId)] as the
    handler calls it, at an id of any type; at a string or [undefined] it is
    [WebhookHandler.storeWebhookSecret]. *)
Definition storeWebhookSecret_any (webhookId : option json) (secret : string)
    (spreadsheetId : option string) : M unit :=
  remember spreadsheetId ;;
  retry_once_on_429 (ensureWebhookSecretsSheet spreadsheetId)
                    (ensureWebhookSecretsSheet spreadsheetId) ;;
  let! rows :=
    retry_once_on_429
      (let! _ := getSpreadsheetId in values_get (Cols webhook_secrets 1))
      (let! _ := getSpreadsheetId in values_get (Cols webhook_secrets 1)) in
  let existingSecrets := drop 1 rows in
  match findIndex (has_json_id webhookId) existingSecrets with
  | Some existingIndex =>
      let! _ := getSpreadsheetId in
      update_secret (existingIndex + 2) webhookId secret
  | None =>
      let! _ := getSpreadsheetId in
      append_secret webhookId secret
  end.

(** The handshake branch: the id is read off the body, the secret is stored,
    then echoed; when storing fails the answer is a 500 without the header. *)
Definition handshake (body : json) (hookSecret : string)
    (spreadsheetId : option string) : M response :=
  let! webhookId := body_id body in
  try_catch
    (storeWebhookSecret_any webhookId hookSecret spreadsheetId ;;
     ret (mkResponse 200 {["X-Hook-Secret" := hookSecret]} "Webhook handshake completed"))
    (fun _ => ret (mkResponse 500 ∅ "Failed to store webhook secret")).

(** The two answers to a delivery. *)
Definition accepted : response := mkResponse 200 ∅ "OK".
Definition rejected : response := mkResponse 401 ∅ "Invalid webhook signature".

(** The delivery branch: the signature is checked against every stored
    secret; an accepted delivery is answered before its events are
    processed. On a [null] body the read of [body.events] throws once the
    answer is sent: no event is processed and the answer sent stays. *)
Definition delivery (body : json) (signature : string)
    (spreadsheetId : option string) : M response :=
  let bodyString := stringify body in
  let! listed :=
    try_catch (let! webhookSecrets := getWebhookSecrets spreadsheetId in
               ret (Some webhookSecrets))
              (fun _ => ret None) in
  match listed with
  | None => ret (mkResponse 500 ∅ "Failed to verify webhook signature")
  | Some webhookSecrets =>
      if negb (isValid webhookSecrets bodyString signature) then
        ret rejected
      else
        match get "events" body with
        | Some (JArr events) => processEvents events spreadsheetId
        | _ => ret tt
        end ;;
        ret accepted
  end.

(** [module.exports = async (req, res) => ...] *)
Definition handler (req : request) : M response :=
  try_catch
    (let! url := new_URL req in
     let spreadsheetId := searchParams_get url "sheetId" in
     if negb (truthy_opt spreadsheetId) then
       ret (mkResponse 400 ∅ "Missing sheetId query parameter")
     else
       getGoogleSheetsClient ;;
       let body := parseRequestBody req in
       match if_truthy (headers req !! "x-hook-secret") with
       | Some hookSecret => handshake body hookSecret spreadsheetId
       | None =>
           match if_truthy (headers req !! "x-hook-signature") with
           | Some signature => delivery body signature spreadsheetId
           | None => ret (mkResponse 400 ∅ "Missing required webhook headers")
           end
       end)
    (fun _ => ret (mkResponse 500 ∅ "Internal server error")).

End WebhookCjs.

(** ** [src/scripts/storeSecret.cjs]: the stand-alone upsert *)

Module StoreSecretScript.
Import WebhookHandler.

Inductive stored :=
| updated (rowNum : nat)
| appended.

(** [ensureWebhookSecretsSheet(sheets, spreadsheetId)] *)
Definition ensureWebhookSecretsSheet : M unit :=
  let! titles := spreadsheets_get in
  if existsb (String.eqb "webhook_secrets") titles then ret tt
  else
    batchUpdate_addSheet ;;
    values_update webhook_secrets 1 [Some "webhook_id"; Some "secret"].

(** [storeSecret(sheets, spreadsheetId, webhookId, secret)]: a read that
    fails is taken for an empty sheet. *)
Definition storeSecret (webhookId secret : string) : M stored :=
  ensureWebhookSecretsSheet ;;
  let! rows := try_catch (values_get (Cols webhook_secrets 2)) (fun _ => ret []) in
  match findIndex (has_id (Some webhookId)) rows with
  | Some existingIndex =>
      let rowNum := existingIndex + 2 in
      values_update webhook_secrets rowNum [Some webhookId; Some secret] ;;
      ret (updated rowNum)
  | None =>
      values_append webhook_secrets [Some webhookId; Some secret] ;;
      ret appended
  end.

End StoreSecretScript.

(** ** [src/api/webhook.js]: the handler that persists by itself *)

Module WebhookEsm.
Import WebhookHandler.

(** The process environment and the clock, as the handler reads them. *)
Record env := mkEnv {
  SPREADSHEET_ID : option string;
  GOOGLE_SHEETS_SPREADSHEET_ID : option string;
  WEBHOOK_HANDLER_VERSION : option string;
  Date_now : N;                      (* Date.now() *)
  Date_toISOString : string          (* new Date().toISOString() *)
}.

(** [loadCredentials()] followed by [client.authorize()] *)
Definition authorize : M unit :=
  fun w =>
    match auth w with
    | Some e => (Throw e, w)
    | None => (Ok tt, w)
    end.

(** [persistHookSecret(sheetId, webhookId, secret)]: credentials, the sheet
    and its header, then an update in place or an append; the [catch] logs and
    rethrows. *)
Definition persistHookSecret (webhookId secret : string) : M unit :=
  authorize ;;
  let! titles := spreadsheets_get in
  (if existsb (String.eqb "webhook_secrets") titles then ret tt
   else
     batchUpdate_addSheet ;;
     values_update webhook_secrets 1 [Some "webhook_id"; Some "secret"]) ;;
  let! rows := try_catch (values_get (Cols webhook_secrets 2)) (fun _ => ret []) in
  match findIndex (has_id (Some webhookId)) rows with
  | Some idx => values_update webhook_secrets (idx + 2) [Some webhookId; Some secret]
  | None => values_append webhook_secrets [Some webhookId; Some secret]
  end.

(** The identifier under which the secret is kept: a header, else a query
    parameter, else a name made from the clock. *)
Definition resolve_webhookId (e : env) (req : request) (url : list (string * string)) : string :=
  let webhookIdHeader :=
    or_else (or_else (or_else (headers req !! "x-hook-id") (headers req !! "x-hook-gid"))
                     (searchParams_get url "webhookId"))
            (searchParams_get url "clientWebhookId") in
  match if_truthy webhookIdHeader with
  | Some id => id
  | None => "asana-" +:+ pretty (Date_now e)
  end.

Definition handlerVersion (e : env) : string :=
  match if_truthy (WEBHOOK_HANDLER_VERSION e) with
  | Some v => v
  | None => Date_toISOString e
  end.

(** [export default async function handler(req, res)] *)
Definition handler (e : env) (req : request) : M response :=
  try_catch
    (let! full := new_URL req in
     let sheetId :=
       or_else (or_else (searchParams_get full "sheetId") (SPREADSHEET_ID e))
               (GOOGLE_SHEETS_SPREADSHEET_ID e) in
     match if_truthy (headers req !! "x-hook-secret") with
     | Some hookSecret =>
         let webhookId := resolve_webhookId e req full in
         let echoed : gmap string string :=
           <["X-Webhook-Handler-Version" := handlerVersion e]>
             {["X-Hook-Secret" := hookSecret]} in
         if negb (truthy_opt sheetId) then
           ret (mkResponse 200 echoed "Handshake OK (no sheetId)")
         else
           try_catch (persistHookSecret webhookId hookSecret) (fun _ => ret tt) ;;
           ret (mkResponse 200 echoed "Handshake OK (persist attempt completed)")
     | None => ret (mkResponse 200 ∅ "Event received")
     end)
    (fun _ => ret (mkResponse 500 ∅ "Internal error")).

End WebhookEsm.

(** ** [src/src/controllers/projectController.js]: pagination *)

Module Pagination.
Section GetAllPages.
Context {A : Type}.

(** What [await fetchWithRetry(() => fetchFunction(offset))] comes to: a
    response with its [data] and [next_page?.offset], or a thrown error. *)
Record page := mkPage {
  data : option (list A);
  next_offset : option string
}.

Inductive fetched :=
| Fetched (p : page)
| Failed (e : error).

(** The variables of the loop. *)
Record loop_state := mkLoop {
  results : list A;
  offset : option string;
  consecutiveErrors : nat
}.

Definition MAX_CONSECUTIVE_ERRORS : nat := 3.

(** The loop either returns its results or is left waiting for a fetch that
    the script does not answer. *)
Inductive outcome :=
| Returned (r : list A)
| Waiting (st : loop_state).

(** [while (hasMore) { try { ... } catch (error) { ... } }], run against the
    answers of the successive fetches, each a function of the offset it is
    asked for. *)
Fixpoint loop (script : list (option string -> fetched)) (st : loop_state) : outcome :=
  match script with
  | [] => Waiting st
  | fetchFunction :: rest =>
      match fetchFunction (offset st) with
      | Fetched response =>
          let results' := results st ++ default [] (data response) in
          if truthy_opt (next_offset response)
          then loop rest (mkLoop results' (next_offset response) 0)
          else Returned results'
      | Failed _ =>
          let consecutiveErrors' := consecutiveErrors st + 1 in
          if MAX_CONSECUTIVE_ERRORS <=? consecutiveErrors'
          then Returned (results st)
          else loop rest (mkLoop (results st) (offset st) consecutiveErrors')
      end
  end.

(** [getAllPages(fetchFunction)] *)
Definition getAllPages (script : list (option string -> fetched)) : outcome :=
  loop script (mkLoop [] None 0).

End GetAllPages.
Arguments page : clear implicits.
Arguments fetched : clear implicits.
Arguments loop_state : clear implicits.
Arguments outcome : clear implicits.
End Pagination.

(** ** The Express server: the rate limiter in front of the Sheets API

    [sheetsRateLimiter] lives in the event loop: operations are enqueued,
    the awaited operation settles, timers fire. The limiter is a transition
    system over these happenings; an operation is named by a number. *)

Module RateLimiter.

Inductive timer :=
| Requeue (op : nat)    (* () => this.queue.unshift({ operation, resolve, reject }) *)
| Release.              (* () => { this.processing = false; this.processQueue(); } *)

Record limiter := mkLimiter {
  queue : list nat;               (* this.queue *)
  processing : bool;              (* this.processing *)
  running : list nat;             (* operations awaited by processQueue *)
  timers : list (nat * timer);    (* pending timeouts, with the time they are due *)
  clock : nat;                    (* milliseconds *)
  enqueued : list nat;            (* every operation, in the order of enqueue *)
  settled : list nat              (* resolved or rejected, in that order *)
}.

Definition minDelayMs : nat := 1000.

Definition start : limiter := mkLimiter [] false [] [] 0 [] [].

(** [processQueue()], up to its [await]. *)
Definition processQueue (s : limiter) : limiter :=
  if processing s then s
  else
    match queue s with
    | [] => s
    | op :: rest =>
        mkLimiter rest true (running s ++ [op]) (timers s) (clock s)
                  (enqueued s) (settled s)
    end.

(** How the awaited [operation()] ends. *)
Inductive ending :=
| Resolved
| RateLimited (jitter : nat)   (* error.code === 429; Math.random() * 5000 *)
| Rejected.

Inductive happening :=
| Enqueue (at_ms : nat) (op : nat)
| Settle (at_ms : nat) (op : nat) (e : ending)
| Fire (t : timer).

(** Nothing happens at a time before the clock or after a pending timer is
    due. *)
Definition on_time (at_ms : nat) (s : limiter) : bool :=
  (clock s <=? at_ms) && forallb (fun dt => at_ms <=? fst dt) (timers s).

Definition set_clock (t : nat) (s : limiter) : limiter :=
  mkLimiter (queue s) (processing s) (running s) (timers s) t (enqueued s) (settled s).

Definition timer_eqb (a b : timer) : bool :=
  match a, b with
  | Requeue x, Requeue y => Nat.eqb x y
  | Release, Release => true
  | _, _ => false
  end.

(** The first pending timer that is [t] and due no later than any other. *)
Fixpoint take_timer (t : timer) (all : list (nat * timer)) (ts : list (nat * timer))
  : option (nat * list (nat * timer)) :=
  match ts with
  | [] => None
  | (due, t') :: rest =>
      if timer_eqb t t' && forallb (fun dt => due <=? fst dt) all
      then Some (due, rest)
      else
        match take_timer t all rest with
        | Some (d, rest') => Some (d, (due, t') :: rest')
        | None => None
        end
  end.

Definition remove_op (op : nat) (l : list nat) : list nat :=
  List.filter (fun x => negb (Nat.eqb x op)) l.

(** One happening; [None] when it cannot take place in this state. *)
Definition step (s : limiter) (h : happening) : option limiter :=
  match h with
  | Enqueue at_ms op =>
      if on_time at_ms s then
        Some (processQueue
                (mkLimiter (queue s ++ [op]) (processing s) (running s) (timers s)
                           at_ms (enqueued s ++ [op]) (settled s)))
      else None
  | Settle at_ms op e =>
      if on_time at_ms s && existsb (Nat.eqb op) (running s) then
        let running' := remove_op op (running s) in
        let release := (at_ms + minDelayMs, Release) in
        match e with
        | Resolved | Rejected =>
            Some (mkLimiter (queue s) (processing s) running'
                            (timers s ++ [release]) at_ms
                            (enqueued s) (settled s ++ [op]))
        | RateLimited jitter =>
            if jitter <? 5000 then
              Some (mkLimiter (queue s) (processing s) running'
                              (timers s ++ [(at_ms + 5000 + jitter, Requeue op); release])
                              at_ms (enqueued s) (settled s))
            else None
        end
      else None
  | Fire t =>
      match take_timer t (timers s) (timers s) with
      | Some (due, rest) =>
          let s' := mkLimiter (queue s) (processing s) (running s) rest
                              (Nat.max (clock s) due) (enqueued s) (settled s) in
          match t with
          | Requeue op =>
              Some (mkLimiter (op :: queue s') (processing s') (running s') (timers s')
                              (clock s') (enqueued s') (settled s'))
          | Release =>
              Some (processQueue
                      (mkLimiter (queue s') false (running s') (timers s')
                                 (clock s') (enqueued s') (settled s')))
          end
      | None => None
      end
  end.

(** A history of the limiter. *)
Fixpoint run (hs : list happening) (s : limiter) : option limiter :=
  match hs with
  | [] => Some s
  | h :: rest =>
      match step s h with
      | Some s' => run rest s'
      | None => None
      end
  end.


(** The pending timers that will release the limiter, and those that will
    put an operation back. *)
Definition is_release (dt : nat * timer) : bool :=
  match snd dt with
  | Release => true
  | Requeue _ => false
  end.

Definition releases (s : limiter) : nat := length (List.filter is_release (timers s)).



(** What the limiter keeps true: an operation is awaited, or a release is
    pending, exactly when [processing] is set, and never both. *)
Definition balanced (s : limiter) : Prop :=
  length (running s) + releases s = if processing s then 1 else 0.


End RateLimiter.

(** ** [src/scripts/storeSecret.cjs]: the command line *)

Module StoreSecretCli.
Import WebhookHandler.

(** The object that [parseArgs] fills. *)
Record options := mkOptions {
  opt_secret : option string;
  opt_webhookId : option string;
  opt_spreadsheetId : option string
}.

(** [out.flag = args[++i]]: the next token is taken as the value, whatever it
    is; after the last token the value is [undefined]. *)
Fixpoint parseArgs_loop (args : list string) (out : options) : options :=
  match args with
  | [] => out
  | a :: rest =>
      if String.eqb a "--secret" then
        match rest with
        | [] => mkOptions None (opt_webhookId out) (opt_spreadsheetId out)
        | v :: rest' =>
            parseArgs_loop rest' (mkOptions (Some v) (opt_webhookId out) (opt_spreadsheetId out))
        end
      else if String.eqb a "--webhookId" then
        match rest with
        | [] => mkOptions (opt_secret out) None (opt_spreadsheetId out)
        | v :: rest' =>
            parseArgs_loop rest' (mkOptions (opt_secret out) (Some v) (opt_spreadsheetId out))
        end
      else if String.eqb a "--spreadsheetId" then
        match rest with
        | [] => mkOptions (opt_secret out) (opt_webhookId out) None
        | v :: rest' =>
            parseArgs_loop rest' (mkOptions (opt_secret out) (opt_webhookId out) (Some v))
        end
      else parseArgs_loop rest out
  end.

(** [parseArgs()], on [process.argv.slice(2)]. *)
Definition parseArgs (args : list string) : options :=
  parseArgs_loop args (mkOptions None None None).

(** [getSheetsClient()]: credentials are loaded and the client authorised, or
    an error is thrown. *)
Definition getSheetsClient : M unit :=
  fun w =>
    match auth w with
    | Some e => (Throw e, w)
    | None => (Ok tt, w)
    end.

(** The id under which the secret is stored:
    [webhookId || `manual-${Date.now()}`]. *)
Definition chosen_id (o : options) (now : N) : string :=
  match if_truthy (opt_webhookId o) with
  | Some id => id
  | None => "manual-" +:+ pretty now
  end.

(** The script: the exit code of the process and the world it leaves. A run
    that reaches its end exits with code 0. *)
Definition main (args : list string) (now : N) (w : world) : nat * world :=
  let o := parseArgs args in
  match if_truthy (opt_secret o) with
  | None => (2, w)
  | Some secret =>
      if negb (truthy_opt (opt_spreadsheetId o)) then (2, w)
      else
        match (getSheetsClient ;;
               StoreSecretScript.storeSecret (chosen_id o now) secret) w with
        | (Ok _, w') => (0, w')
        | (Throw _, w') => (1, w')
        end
  end.

End StoreSecretCli.

(** ** [src/src/controllers/projectController.js]: [fetchWithRetry] *)

Module FetchWithRetry.

(** [parseInt(string, 10)] on a string of bytes: ASCII white space is
    skipped, a sign is read, then the longest run of decimal digits; [None]
    stands for [NaN]. Integers are exact here. *)
Definition is_space (c : ascii) : bool :=
  let n := nat_of_ascii c in (9 <=? n) && (n <=? 13) || (n =? 32).

Fixpoint trim_start (s : string) : string :=
  match s with
  | String c s' => if is_space c then trim_start s' else s
  | EmptyString => s
  end.

Definition digit (c : ascii) : option Z :=
  let n := nat_of_ascii c in
  if (48 <=? n) && (n <=? 57) then Some (Z.of_nat (n - 48)) else None.

Fixpoint digits (s : string) (acc : option Z) : option Z :=
  match s with
  | String c s' =>
      match digit c with
      | Some d => digits s' (Some (10 * default 0%Z acc + d)%Z)
      | None => acc
      end
  | EmptyString => acc
  end.

Definition parseInt (s : string) : option Z :=
  match trim_start s with
  | String c s' =>
      if Ascii.eqb c "-" then option_map Z.opp (digits s' None)
      else if Ascii.eqb c "+" then digits s' None
      else digits (String c s') None
  | EmptyString => None
  end.

(** What a rejected fetch carries, as [fetchWithRetry] reads it. *)
Record http_error := mkHttpError {
  err_status : option nat;                 (* error?.status *)
  response_status : option nat;            (* error?.response?.status *)
  response_headers : gmap string string    (* error.response?.headers *)
}.

(** A number used as a condition. *)
Definition truthy_num (o : option nat) : bool :=
  match o with
  | Some n => negb (n =? 0)
  | None => false
  end.

(** [error?.status || error?.response?.status || null] *)
Definition status_of (error : http_error) : option nat :=
  if truthy_num (err_status error) then err_status error
  else if truthy_num (response_status error) then response_status error
  else None.

(** [parseInt(String(rawRetryAfter || "0"), 10) || 0], the header looked up
    under its four spellings. *)
Definition retryAfterSeconds (error : http_error) : Z :=
  let h := response_headers error in
  let rawRetryAfter :=
    or_else (or_else (or_else (or_else (h !! "retry-after") (h !! "Retry-After"))
                              (h !! "Retry-after"))
                     (h !! "Retry-After-seconds"))
            (Some "0") in
  default 0%Z (parseInt (default "0" (or_else rawRetryAfter (Some "0")))).

Section Attempts.
Context {A : Type}.

Inductive attempt :=
| Success (a : A)
| Failure (error : http_error).

(** How the call of [fetchWithRetry] ends: with a value, with a thrown
    error, or by leaving the loop (it then returns [undefined]). *)
Inductive settled :=
| Returned (a : A)
| Threw (error : http_error)
| LeftLoop.

Variables (maxRetries baseDelay : nat).

(** The outcome of the call of [fetchFunction] made at each attempt, and the
    value of [Math.floor(Math.random() * 1000)] drawn at each attempt. *)
Variables (fetchFunction : nat -> attempt) (jitter : nat -> nat).

Definition exponentialDelay (attempt : nat) : nat := baseDelay * 2 ^ attempt.

(** The wait after a 429. *)
Definition rateLimitDelay (error : http_error) (attempt : nat) : nat :=
  if (0 <? retryAfterSeconds error)%Z then Z.to_nat (retryAfterSeconds error * 1000)
  else exponentialDelay attempt + jitter attempt.

Definition is_rate_limit (error : http_error) : bool :=
  match status_of error with
  | Some status => status =? 429
  | None => false
  end.

Definition is_server_error (error : http_error) : bool :=
  match status_of error with
  | Some status => negb (status =? 0) && (500 <=? status) && (status <? 600)
  | None => false
  end.

(** [for (let attempt = 0; attempt < maxRetries; attempt++)], from a given
    attempt on, with the number of iterations left; the delays waited are
    listed in order. *)
Fixpoint attempts (remaining attempt : nat) : list nat * settled :=
  match remaining with
  | 0 => ([], LeftLoop)
  | S remaining' =>
      match fetchFunction attempt with
      | Success a => ([], Returned a)
      | Failure error =>
          if is_rate_limit error && (attempt <? maxRetries - 1) then
            let (ds, r) := attempts remaining' (S attempt) in
            (rateLimitDelay error attempt :: ds, r)
          else if is_server_error error && (attempt <? maxRetries - 1) then
            let (ds, r) := attempts remaining' (S attempt) in
            (exponentialDelay attempt + jitter attempt :: ds, r)
          else ([], Threw error)
      end
  end.

(** [fetchWithRetry(fetchFunction, maxRetries, baseDelay)] *)
Definition fetchWithRetry : list nat * settled := attempts maxRetries 0.

(** An error after which another attempt is made, when one is left. *)
Definition retriable (error : http_error) : bool :=
  is_rate_limit error || is_server_error error.

(** The wait that follows a retriable error at an attempt. *)
Definition delay_after (error : http_error) (attempt : nat) : nat :=
  if is_rate_limit error then rateLimitDelay error attempt
  else exponentialDelay attempt + jitter attempt.

(** A run of the loop from [attempt] on that waits [k] times: [k] retriable
    failures, each followed by its wait, then a success, or a failure that is
    rethrown because it is not retriable or because no attempt is left; the
    loop is left only when it is entered with no attempt left. *)
Definition run_of (k attempt : nat) (out : list nat * settled) : Prop :=
  length out.1 = k /\
  (forall i, i < k ->
     exists error,
       fetchFunction (attempt + i) = Failure error /\ retriable error = true /\
       out.1 !! i = Some (delay_after error (attempt + i))) /\
  match out.2 with
  | Returned a => attempt + k < maxRetries /\ fetchFunction (attempt + k) = Success a
  | Threw error =>
      attempt + k < maxRetries /\ fetchFunction (attempt + k) = Failure error /\
      (retriable error = false \/ attempt + k = maxRetries - 1)
  | LeftLoop => k = 0 /\ attempt = maxRetries
  end.

End Attempts.
Arguments attempt : clear implicits.
Arguments settled : clear implicits.

End FetchWithRetry.

(** ** [src/src/controllers/projectController.js]: the rows of the export *)

Module ProjectController.
Import WebhookHandler.

(** The object that [processTaskData] of the controller returns. Its custom
    fields are collected by the same code as in [webhookHandler.js]; the
    assignee and the completion time are kept as they come, [null] or
    [undefined] included. *)
Record exported_task := mkExported {
  e_task_name : string;
  e_task_id : string;
  e_assignee : option string;
  e_completed_at : option string;
  e_completed : bool;
  e_customFieldValues : gmap string cellval
}.

(** [processTaskData(task, workspaceId)] *)
Definition processTaskData (t : task) (workspaceId : option string) : exported_task :=
  let customFieldValues :=
    match custom_fields t with
    | Some fields =>
        foldl (fun acc f =>
                 if existsb (String.eqb (cf_name f)) (fieldNames workspaceId)
                 then <[cf_name f := field_value f]> acc
                 else acc) ∅ fields
    | None => ∅
    end in
  mkExported (name t) (gid t) (assignee t) (completed_at t) (completed t)
             customFieldValues.

(** The filter of [exportWorkspaceToSheet]:
    [task.completed || (task.assignee && (task.assignee.name === ...))]. *)
Definition relevant (t : task) : bool :=
  completed t ||
  match assignee t with
  | Some n => String.eqb n "Manager" || String.eqb n "Withdrawals" || String.eqb n "Withdraws"
  | None => false
  end.

(** [task[key] || ""] *)
Definition field (task : exported_task) (key : string) : cellval :=
  cell_or_empty (default CUndef (e_customFieldValues task !! key)).

(** The row that [exportWorkspaceToSheet] pushes for a task of a project;
    the properties spread from [processTaskData] are those read. *)
Definition exportRow (workspaceId : string) (project_name project_id : string)
    (task : exported_task) : list cellval :=
  [CStr project_name; CStr (e_task_name task);
   cell_or_empty (cell_of_opt (e_assignee task));
   cell_or_empty (cell_of_opt (e_completed_at task));
   field task "Worker"; field task "Status"; field task "Paid with...";
   field task "Deposit"; field task "Bonus"; field task "Max bet";
   field task "WG"; field task "Max win"; field task "Balance";
   field task "Groups"; field task "Received"; field task "RM/BM";
   cell_or_empty (CStr project_id); cell_or_empty (CStr (e_task_id task));
   CStr (if e_completed task then "Yes" else "No")]
  ++ (if String.eqb workspaceId "1205846480740952" then [field task "balance"] else []).

(** The header row of the export. *)
Definition exportHeaders (workspaceId : string) : list string :=
  ["Project Name"; "Task Name"; "Assignee"; "Completed At"; "Worker"; "Status";
   "Paid with..."; "Deposit"; "Bonus"; "Max bet"; "WG"; "Max win"; "Balance";
   "Groups"; "Received"; "RM/BM"; "Project ID"; "Task ID"; "Completed"]
  ++ (if String.eqb workspaceId "1205846480740952" then ["balance"] else []).

End ProjectController.

(** ** [scripts/importWorkspaceWebhooks.cjs]: [retryOperation] *)

Module RetryOperation.
Import FetchWithRetry.

(** [parseInt(string)] without a radix: as with radix 10, except that a
    string that starts, after its sign, with [0x] or [0X] is read in
    radix 16. *)
Definition hex_digit (c : ascii) : option Z :=
  let n := nat_of_ascii c in
  if (48 <=? n) && (n <=? 57) then Some (Z.of_nat (n - 48))
  else if (97 <=? n) && (n <=? 102) then Some (Z.of_nat (n - 87))
  else if (65 <=? n) && (n <=? 70) then Some (Z.of_nat (n - 55))
  else None.

Fixpoint hex_digits (s : string) (acc : option Z) : option Z :=
  match s with
  | String c s' =>
      match hex_digit c with
      | Some d => hex_digits s' (Some (16 * default 0%Z acc + d)%Z)
      | None => acc
      end
  | EmptyString => acc
  end.

Definition unsigned (s : string) : option Z :=
  match s with
  | String z (String x s') =>
      if Ascii.eqb z "0" && (Ascii.eqb x "x" || Ascii.eqb x "X")
      then hex_digits s' None
      else digits s None
  | _ => digits s None
  end.

Definition parseInt (s : string) : option Z :=
  match trim_start s with
  | String c s' =>
      if Ascii.eqb c "-" then option_map Z.opp (unsigned s')
      else if Ascii.eqb c "+" then unsigned s'
      else unsigned (String c s')
  | EmptyString => None
  end.

(** What a rejected operation carries, as [retryOperation] reads it: a
    response, if any, has a status and headers. *)
Record failure := mkFailure {
  status : option nat;             (* err.response?.status *)
  retry_after : option string      (* err.response.headers['retry-after'] *)
}.

Section Loop.
Context {A : Type}.

Inductive attempt :=
| Success (a : A)
| Failure (err : failure).

(** The call returns a value or throws [lastError], which is [undefined]
    when no attempt was made. *)
Inductive settled :=
| Returned (a : A)
| Threw (lastError : option failure).

Variables (maxRetries baseDelay : nat).

(** The outcome of the call of [operation] made at each attempt. *)
Variable operation : nat -> attempt.

Definition is_429 (err : failure) : bool :=
  match status err with
  | Some s => s =? 429
  | None => false
  end.

(** [retryAfter > 0 ? retryAfter : baseDelay * Math.pow(2, attempt)], with
    [retryAfter = parseInt(headers['retry-after'] || '0') * 1000]. *)
Definition waitTime (err : failure) (attempt : nat) : nat :=
  match parseInt (default "0" (or_else (retry_after err) (Some "0"))) with
  | Some seconds =>
      if (0 <? seconds * 1000)%Z then Z.to_nat (seconds * 1000)
      else baseDelay * 2 ^ attempt
  | None => baseDelay * 2 ^ attempt
  end.

(** The wait at the head of an attempt that is not the first. *)
Definition backoff (attempt : nat) : list nat :=
  if 0 <? attempt then [baseDelay * 2 ^ attempt] else [].

(** [for (let attempt = 0; attempt < maxRetries; attempt++)], from a given
    attempt on, with the number of iterations left and [lastError]; the
    delays waited are listed in order. *)
Fixpoint loop (remaining attempt : nat) (lastError : option failure)
  : list nat * settled :=
  match remaining with
  | 0 => ([], Threw lastError)
  | S remaining' =>
      match operation attempt with
      | Success a => (backoff attempt, Returned a)
      | Failure err =>
          if is_429 err then
            let (ds, r) := loop remaining' (S attempt) (Some err) in
            (backoff attempt ++ waitTime err attempt :: ds, r)
          else if attempt =? maxRetries - 1 then (backoff attempt, Threw (Some err))
          else
            let (ds, r) := loop remaining' (S attempt) (Some err) in
            (backoff attempt ++ ds, r)
      end
  end.

(** [retryOperation(operation, maxRetries, baseDelay)] *)
Definition retryOperation : list nat * settled := loop maxRetries 0 None.

End Loop.
Arguments attempt : clear implicits.
Arguments settled : clear implicits.

End RetryOperation.

(** ** Specifications of monadic code *)

(** [hoare P m Q E]: started in a world satisfying [P], the computation [m]
    either returns [a] in a world satisfying [Q a] or throws [e] in a world
    satisfying [E e]. The shape of [M] makes every computation finish. *)
Definition hoare {A} (P : world -> Prop) (m : M A)
    (Q : A -> world -> Prop) (E : error -> world -> Prop) : Prop :=
  forall w, P w ->
    match m w with
    | (Ok a, w') => Q a w'
    | (Throw e, w') => E e w'
    end.

(** The cells of both sheets; the cache, the faults and the trace are left
    free. *)
Definition store_is (t : list row) (s : option (list row)) (w : world) : Prop :=
  sheet1 w = t /\ secrets w = s.

(** The calls that change the spreadsheet, among what has happened. *)
Definition writes (w : world) : list event := List.filter is_write (trace w).

(** A world with given cells and given writes behind it. *)
Definition quiet (ws : list event) (t : list row) (s : option (list row))
    (w : world) : Prop :=
  store_is t s w /\ writes w = ws.


(** ** Invariants of monadic code *)

(** [preserves I m]: whatever [m] does and however it ends, it keeps [I]. *)
Definition preserves {A} (I : world -> Prop) (m : M A) : Prop :=
  hoare I m (fun _ => I) (fun _ => I).

(** An invariant that speaks of the cells only: the bookkeeping (the cache,
    the faults to come, the trace) does not matter to it. *)
Definition on_cells (I : world -> Prop) : Prop :=
  forall c t s fs tr tk au c' fs' tr',
    I (mkWorld c t s fs tr tk au) -> I (mkWorld c' t s fs' tr' tk au).

(** The cells of [Sheet1] are [t]; the rows of [webhook_secrets] are [s]. *)
Definition sheet1_is (t : list row) (w : world) : Prop := sheet1 w = t.
Definition secrets_are (s : option (list row)) (w : world) : Prop := secrets w = s.

(** ** Rows of [Sheet1] and accounts of the rate limiter *)

(** The effect of a [changed] or [added] event on the rows of [Sheet1] when
    nothing fails: the row found for the task is written over; without one, a
    row is appended if the task is completed or assigned to one of the three
    names. *)
Definition reconcile_rows (taskData : task) (rows : list row) : list row :=
  let v := map WebhookHandler.to_value (WebhookHandler.rowValues taskData) in
  match findIndex (WebhookHandler.is_task_row (gid taskData)) (drop 1 rows) with
  | Some j => write_row (j + 1 + 1) v rows
  | None =>
      if completed taskData || WebhookHandler.is_special (assignee taskData)
      then rows ++ [overlay v []]
      else rows
  end.

(** The rows of [Sheet1] that carry a task id in the Task ID column. *)
Definition rows_of_task (taskId : string) (rows : list row) : list row :=
  filter (fun r : row => r !! 17 = Some taskId) rows.

(** The string by which a cell is shown once written; [undefined] writes
    nothing. *)
Definition shown (c : cellval) : string := default "" (WebhookHandler.to_value c).

(** The operations that a pending timer will put back in the queue. *)
Definition held (s : RateLimiter.limiter) : list nat :=
  omap (fun dt : nat * RateLimiter.timer =>
          match snd dt with
          | RateLimiter.Requeue op => Some op
          | RateLimiter.Release => None
          end) (RateLimiter.timers s).

(** Every operation enqueued so far is settled, awaited, queued or held by a
    timer, once. *)
Definition accounted (s : RateLimiter.limiter) : Prop :=
  RateLimiter.enqueued s
  ≡ₚ RateLimiter.settled s ++ RateLimiter.running s ++ RateLimiter.queue s ++ held s.

(** ** Sample worlds and requests *)

(** A spreadsheet with nothing in it, no cached id, no failure to come. *)
Definition blank : world := mkWorld None [] None [] [] ∅ None.

(** A spreadsheet whose store holds the given records below its header. *)
Definition with_records (records : list row) (fs : list (option error)) : world :=
  mkWorld None [] (Some (WebhookHandler.header :: records)) fs [] ∅ None.

(** A signed delivery for the spreadsheet [SHEET1]. *)
Definition signed_delivery (body : Json.json) (signature : string) : request :=
  mkRequest {["x-hook-signature" := signature]} (Some [("sheetId", "SHEET1")])
            (Some body) (Json.stringify body) (Some body).

(** The body [{"events": []}] as a sender with a space after the colon
    writes it, and a delivery of it signed with the secret [s1] over these
    bytes. *)
Definition spaced_raw : string := "{" +:+ Json.quote "events" +:+ ": []}".

Definition spaced_delivery : request :=
  mkRequest {["x-hook-signature" := Sha256.hmac_sha256_hex "s1" spaced_raw]}
            (Some [("sheetId", "SHEET1")])
            (Some (Json.JObj [("events", Json.JArr [])])) spaced_raw
            (Some (Json.JObj [("events", Json.JArr [])])).

(** A handshake for the spreadsheet [SHEET1], with extra headers and query
    parameters. *)
Definition handshake_request (hookSecret : string) (more_headers : gmap string string)
    (more_query : list (string * string)) (body : Json.json) : request :=
  mkRequest (<["x-hook-secret" := hookSecret]> more_headers)
            (Some (("sheetId", "SHEET1") :: more_query))
            (Some body) (Json.stringify body) (Some body).

(** An environment without settings, at a given time. *)
Definition bare_env (now : N) : WebhookEsm.env :=
  WebhookEsm.mkEnv None None None now "2023-11-14T22:13:20.000Z".

(** A row of [Sheet1] for a task, its id in the Task ID column. *)
Definition task_row (taskName taskId : string) : row :=
  ["Project"; taskName] ++ replicate 14 "" ++ ["P1"; taskId; "Yes"].

Definition sheet_header : row :=
  ["Project Name"; "Task Name"; "Assignee"; "Completed At"; "Worker"; "Status";
   "Paid with..."; "Deposit"; "Bonus"; "Max bet"; "WG"; "Max win"; "Balance";
   "Groups"; "Received"; "RM/BM"; "Project ID"; "Task ID"; "Completed"].

(** A task that is neither completed nor assigned. *)
Definition open_task (taskId : string) : task :=
  mkTask taskId "An open task" None false None None [].

(** A spreadsheet with two task rows, and one open task upstream. *)
Definition two_rows : world :=
  mkWorld None [sheet_header; task_row "first" "111"; task_row "second" "222"]
          None [] [] {["333" := open_task "333"]} None.

(** Fetches for a listing of numbers: a page, and a failure. *)
Definition page_of (items : list nat) (next : option string)
  : option string -> Pagination.fetched nat :=
  fun _ => Pagination.Fetched (Pagination.mkPage (Some items) next).

Definition failure (code : nat) : option string -> Pagination.fetched nat :=
  fun _ => Pagination.Failed (ApiError code).



(** A fetch that is rejected with a status and headers; the calls of a
    listing where the server asks for three seconds, then fails, then
    answers. *)
Definition rejected_with (status : nat) (hs : gmap string string)
  : FetchWithRetry.attempt nat :=
  FetchWithRetry.Failure (FetchWithRetry.mkHttpError None (Some status) hs).

Definition flaky_fetch (attempt : nat) : FetchWithRetry.attempt nat :=
  match attempt with
  | 0 => rejected_with 429 {["retry-after" := "3"]}
  | 1 => rejected_with 503 ∅
  | _ => FetchWithRetry.Success 7
  end.

(** One operation, answered 429: it is enqueued, fails, the limiter is
    released and the operation is put back. *)
Definition rate_limited_once (at_ms settle_ms jitter op : nat)
  : list RateLimiter.happening :=
  [RateLimiter.Enqueue at_ms op;
   RateLimiter.Settle settle_ms op (RateLimiter.RateLimited jitter);
   RateLimiter.Fire RateLimiter.Release;
   RateLimiter.Fire (RateLimiter.Requeue op)].

(** An operation that fails twice, once rate limited, before it answers. *)
Definition third_time_lucky (attempt : nat) : RetryOperation.attempt nat :=
  match attempt with
  | 0 => RetryOperation.Failure (RetryOperation.mkFailure (Some 429) (Some "2"))
  | 1 => RetryOperation.Failure (RetryOperation.mkFailure None None)
  | _ => RetryOperation.Success 7
  end.

(** * Part II: proofs *)

(** ** Reasoning about monadic code *)

Section HoareRules.
Context {A B : Type}.

Lemma hoare_ret (a : A) (Q : A -> world -> Prop) E :
  hoare (Q a) (ret a) Q E.
Proof. intros w H. exact H. Qed.

Lemma hoare_throw (e : error) (Q : A -> world -> Prop) (E : error -> world -> Prop) :
  hoare (E e) (throw e) Q E.
Proof. intros w H. exact H. Qed.

Lemma hoare_bind (m : M A) (k : A -> M B) P Q R E :
  hoare P m Q E ->
  (forall a, hoare (Q a) (k a) R E) ->
  hoare P (bind m k) R E.
Proof.
  intros Hm Hk w HP. unfold bind. specialize (Hm w HP).
  destruct (m w) as [[a|e] w1]; [exact (Hk a w1 Hm) | exact Hm].
Qed.

Lemma hoare_try_catch (m : M A) (h : error -> M A) P Q E E' :
  hoare P m Q E' ->
  (forall e, hoare (E' e) (h e) Q E) ->
  hoare P (try_catch m h) Q E.
Proof.
  intros Hm Hh w HP. unfold try_catch. specialize (Hm w HP).
  destruct (m w) as [[a|e] w1]; [exact Hm | exact (Hh e w1 Hm)].
Qed.

Lemma hoare_conseq (m : M A) (P P' : world -> Prop) (Q Q' : A -> world -> Prop)
    (E E' : error -> world -> Prop) :
  hoare P' m Q' E' ->
  (forall w, P w -> P' w) ->
  (forall a w, Q' a w -> Q a w) ->
  (forall e w, E' e w -> E e w) ->
  hoare P m Q E.
Proof.
  intros Hm HP HQ HE w Hw. specialize (Hm w (HP w Hw)).
  destruct (m w) as [[a|e] w1]; auto.
Qed.

Lemma hoare_run (m : M A) P Q E w r w' :
  hoare P m Q E -> P w -> m w = (r, w') ->
  match r with Ok a => Q a w' | Throw e => E e w' end.
Proof. intros Hm HP Heq. specialize (Hm w HP). rewrite Heq in Hm. exact Hm. Qed.
End HoareRules.

Ltac api_cases :=
  unfold hoare, api_call, on_sheet, store_is, sheet_rows, set_sheet_rows;
  intros [? ? ? fs ? ? ?] [? ?]; simpl in *; subst;
  repeat match goal with
         | |- context [match ?f with [] => _ | _ :: _ => _ end] =>
             destruct f as [|[?|] ?]; simpl
         | |- context [match ?o with Some _ => _ | None => _ end] =>
             destruct o; simpl
         end; try tauto; auto.

Section ApiSpecs.
Variables (t : list row) (s : option (list row)).

Lemma sleep_spec ms :
  hoare (store_is t s) (sleep ms) (fun _ => store_is t s) (fun _ => store_is t s).
Proof. intros [? ? ? ? ? ? ?] H. exact H. Qed.

Lemma spreadsheets_get_spec :
  hoare (store_is t s) spreadsheets_get
    (fun titles w =>
       store_is t s w /\
       existsb (String.eqb "webhook_secrets") titles =
         match s with Some _ => true | None => false end)
    (fun _ => store_is t s).
Proof. unfold spreadsheets_get. api_cases. Qed.

Lemma batchUpdate_addSheet_spec :
  hoare (store_is t s) batchUpdate_addSheet
    (fun _ w => s = None /\ store_is t (Some []) w)
    (fun _ => store_is t s).
Proof. unfold batchUpdate_addSheet. api_cases. Qed.

Lemma values_get_secrets_spec first :
  hoare (store_is t s) (values_get (Cols webhook_secrets first))
    (fun rows w => store_is t s w /\ exists rs, s = Some rs /\ rows = drop (first - 1) rs)
    (fun _ => store_is t s).
Proof. unfold values_get. api_cases; eauto. Qed.

Lemma values_update_secrets_spec n v :
  hoare (store_is t s) (values_update webhook_secrets n v)
    (fun _ w => exists rs, s = Some rs /\ store_is t (Some (write_row n v rs)) w)
    (fun _ => store_is t s).
Proof. unfold values_update. api_cases; eauto. Qed.

Lemma values_append_secrets_spec v :
  hoare (store_is t s) (values_append webhook_secrets v)
    (fun _ w => exists rs, s = Some rs /\ store_is t (Some (rs ++ [overlay v []])) w)
    (fun _ => store_is t s).
Proof. unfold values_append. api_cases; eauto. Qed.
End ApiSpecs.

(** Forward symbolic execution: the goal is a case analysis on the outcome
    of a computation applied to a world; [exec H] peels its first part (under
    a [bind] or a [try_catch], or the whole of it) using the triple [H]. *)
Ltac exec_with H m w :=
  let X := fresh "X" in
  unshelve epose proof (H w _) as X; [eassumption|];
  destruct (m w) as [[?|?] ?];
  cbv beta iota delta [ret throw] in X |- *.

Ltac exec H :=
  lazymatch goal with
  | |- match ?c with pair _ _ => _ end =>
      lazymatch c with
      | @bind _ _ ?m _ ?w => unfold bind at 1; exec_with H m w
      | @try_catch _ ?m _ ?w => unfold try_catch at 1; exec_with H m w
      | ?m ?w => exec_with H m w
      end
  end.

(** The same for a computation that is not to be taken apart. *)
Ltac exec_whole H :=
  lazymatch goal with
  | |- match ?m ?w with pair _ _ => _ end => exec_with H m w
  end.

Module WebhookHandlerFacts.
Import WebhookHandler.

Section Store.
Variables (t : list row) (s : option (list row)).

Lemma setSpreadsheetId_spec id :
  hoare (store_is t s) (setSpreadsheetId id)
    (fun _ => store_is t s) (fun _ => store_is t s).
Proof. intros [? ? ? ? ? ? ?] H. exact H. Qed.

Lemma getSpreadsheetId_spec :
  hoare (store_is t s) getSpreadsheetId
    (fun _ => store_is t s) (fun _ => store_is t s).
Proof.
  intros w H. unfold getSpreadsheetId.
  destruct (cache_id w) as [id|]; [destruct (truthy id)|]; exact H.
Qed.

Lemma remember_spec sid :
  hoare (store_is t s) (remember sid)
    (fun _ => store_is t s) (fun _ => store_is t s).
Proof.
  unfold remember. destruct (truthy_opt sid);
    [apply setSpreadsheetId_spec | intros w H; exact H].
Qed.
End Store.

(** What [ensureWebhookSecretsSheet] leaves behind: an existing sheet is not
    touched; a missing one is created and given its header. When it throws,
    the sheet may have been created without a header. *)
Lemma ensureWebhookSecretsSheet_spec t s sid :
  hoare (store_is t s) (ensureWebhookSecretsSheet sid)
    (fun _ w => exists rows, store_is t (Some rows) w /\
                  (s = Some rows \/ (s = None /\ rows = [header])))
    (fun _ w => store_is t s w \/ (s = None /\ store_is t (Some []) w)).
Proof.
  intros w H. unfold ensureWebhookSecretsSheet.
  exec (remember_spec t s sid); [|tauto].
  exec (getSpreadsheetId_spec t s); [|tauto].
  exec (spreadsheets_get_spec t s); [|tauto].
  destruct X1 as [X1 Hfind]. rewrite Hfind. destruct s as [rows|].
  - cbv beta iota delta [ret]. eauto.
  - exec (getSpreadsheetId_spec t None); [|tauto].
    exec (batchUpdate_addSheet_spec t None); [|tauto].
    destruct X3 as [_ X3].
    exec (getSpreadsheetId_spec t (Some [])); [|tauto].
    exec (values_update_secrets_spec t (Some []) 1
            [Some "webhook_id"; Some "secret"]); [|tauto].
    destruct X5 as (rs & Hrs & X5). inversion Hrs; subst rs.
    exists [header]. split; [exact X5 | tauto].
Qed.

(** The retried schema step: when the first attempt created the sheet and
    failed on the header with a 429, the second attempt finds the sheet and
    leaves it without a header. *)
Lemma ensure_retry_spec t s sid :
  hoare (store_is t s)
    (retry_once_on_429 (ensureWebhookSecretsSheet sid) (ensureWebhookSecretsSheet sid))
    (fun _ w => exists rows, store_is t (Some rows) w /\
                  (s = Some rows \/ (s = None /\ (rows = [header] \/ rows = []))))
    (fun _ w => store_is t s w \/ (s = None /\ store_is t (Some []) w)).
Proof.
  intros w H. unfold retry_once_on_429.
  exec (ensureWebhookSecretsSheet_spec t s sid).
  - destruct X as (rows & X & Hs). exists rows. tauto.
  - destruct (is_429 e); cbv beta iota delta [throw]; [|exact X].
    destruct X as [X | [-> X]].
    + exec (sleep_spec t s 5000); [|tauto].
      exec (ensureWebhookSecretsSheet_spec t s sid); [|exact X1].
      destruct X1 as (rows & X1 & Hs). exists rows. tauto.
    + exec (sleep_spec t (Some []) 5000); [|tauto].
      exec (ensureWebhookSecretsSheet_spec t (Some []) sid).
      * destruct X1 as (rows & X1 & [Hs | [Hs _]]); [|discriminate].
        inversion Hs; subst rows. exists []. tauto.
      * destruct X1 as [X1 | [Hs _]]; [tauto | discriminate].
Qed.

Lemma read_retry_spec t s first :
  hoare (store_is t s)
    (retry_once_on_429
       (let! _ := getSpreadsheetId in values_get (Cols webhook_secrets first))
       (let! _ := getSpreadsheetId in values_get (Cols webhook_secrets first)))
    (fun rows w => store_is t s w /\ exists rs, s = Some rs /\ rows = drop (first - 1) rs)
    (fun _ => store_is t s).
Proof.
  assert (Hread : hoare (store_is t s)
            (let! _ := getSpreadsheetId in values_get (Cols webhook_secrets first))
            (fun rows w => store_is t s w /\ exists rs, s = Some rs /\ rows = drop (first - 1) rs)
            (fun _ => store_is t s)).
  { intros w H. exec (getSpreadsheetId_spec t s); [|exact X].
    exec (values_get_secrets_spec t s first); exact X0. }
  intros w H. unfold retry_once_on_429.
  exec Hread; [exact X|].
  destruct (is_429 e); cbv beta iota delta [throw]; [|exact X].
  exec (sleep_spec t s 5000); [|exact X0].
  exec_whole Hread; exact X1.
Qed.

Lemma storeWebhookSecret_spec t s webhookId secret sid :
  hoare (store_is t s) (storeWebhookSecret webhookId secret sid)
    (fun _ w => exists rows,
         store_is t (Some (upsert_rows webhookId secret rows)) w /\
         (s = Some rows \/ (s = None /\ (rows = [header] \/ rows = []))))
    (fun _ w => exists s', store_is t s' w /\
         (s' = s \/ (s = None /\ (s' = Some [header] \/ s' = Some [])))).
Proof.
  intros w H. unfold storeWebhookSecret.
  exec (remember_spec t s sid); [|eauto].
  exec (ensure_retry_spec t s sid).
  2:{ destruct X0 as [X0 | [-> X0]]; eauto 6. }
  destruct X0 as (rows & X0 & Hs).
  assert (Hkeep : forall s', s' = Some rows ->
            s' = s \/ (s = None /\ (s' = Some [header] \/ s' = Some []))).
  { intros s' ->. destruct Hs as [-> | [-> [-> | ->]]]; tauto. }
  exec (read_retry_spec t (Some rows) 1); [|eauto].
  destruct X1 as (X1 & rs & Hrs & ->). inversion Hrs; subst rs. clear Hrs.
  change (1 - 1) with 0. rewrite drop_0.
  destruct (findIndex (has_id webhookId) (drop 1 rows)) as [i|] eqn:Hfind.
  - exec (getSpreadsheetId_spec t (Some rows)); [|eauto].
    exec (values_update_secrets_spec t (Some rows) (i + 2) [webhookId; Some secret]);
      [|eauto].
    destruct X3 as (rs & Hrs & X3). inversion Hrs; subst rs.
    exists rows. unfold upsert_rows. rewrite Hfind. tauto.
  - exec (getSpreadsheetId_spec t (Some rows)); [|eauto].
    exec (values_append_secrets_spec t (Some rows) [webhookId; Some secret]);
      [|eauto].
    destruct X3 as (rs & Hrs & X3). inversion Hrs; subst rs.
    exists rows. unfold upsert_rows. rewrite Hfind. tauto.
Qed.

(** *** Stored records *)

Lemma has_id_true id (r : row) : has_id (Some id) r = true <-> r !! 0 = Some id.
Proof. unfold has_id, strict_eq. apply bool_decide_eq_true. Qed.

Lemma findIndex_None_filter id (l : list row) :
  findIndex (has_id (Some id)) l = None ->
  filter (fun r : row => r !! 0 = Some id) l = [].
Proof.
  induction l as [|r l IH]; [done|]. cbn [findIndex].
  destruct (has_id (Some id) r) eqn:Hr; [done|].
  destruct (findIndex _ l); [done|]. intros _.
  rewrite filter_cons_False; [auto|].
  intros H. apply has_id_true in H. congruence.
Qed.

Lemma findIndex_Some_lt {A} (p : A -> bool) (l : list A) i :
  findIndex p l = Some i -> i < length l.
Proof.
  revert i. induction l as [|x l IH]; intros i; [done|]. cbn [findIndex length].
  destruct (p x); [intros [= <-]; lia|].
  destruct (findIndex p l) as [j|]; [|done].
  intros [= <-]. specialize (IH j eq_refl). lia.
Qed.

(** Overwriting the first matching row of a list with at most one match
    leaves exactly the new row as match. *)
Lemma findIndex_Some_filter_insert id (l : list row) i (x : row) :
  findIndex (has_id (Some id)) l = Some i ->
  length (filter (fun r : row => r !! 0 = Some id) l) <= 1 ->
  x !! 0 = Some id ->
  filter (fun r : row => r !! 0 = Some id) (<[i := x]> l) = [x].
Proof.
  revert i. induction l as [|r l IH]; intros i; [done|]. cbn [findIndex].
  destruct (has_id (Some id) r) eqn:Hr.
  - intros [= <-] Hlen Hx. apply has_id_true in Hr. cbn [list_insert insert].
    rewrite filter_cons_True in Hlen by done.
    rewrite filter_cons_True by done. f_equal.
    destruct (filter _ l); [done | cbn in Hlen; lia].
  - destruct (findIndex _ l) as [j|] eqn:Hj; [|done].
    intros [= <-] Hlen Hx.
    assert (Hnr : r !! 0 <> Some id).
    { intros H. apply has_id_true in H. congruence. }
    rewrite filter_cons_False in Hlen by done.
    change (<[S j := x]> (r :: l)) with (r :: <[j := x]> l).
    rewrite filter_cons_False by done. by apply IH.
Qed.

Lemma write_row_existing n v (rs : list row) old :
  rs !! (n - 1) = Some old ->
  write_row n v rs = <[n - 1 := overlay v old]> rs.
Proof.
  intros H. unfold write_row.
  assert (n - length rs = 0) as ->.
  { apply lookup_lt_Some in H. lia. }
  cbn [replicate]. rewrite app_nil_r, H. done.
Qed.

(** One successful upsert on a sheet that has a first row. *)
Lemma upsert_rows_records id secret (rows : list row) :
  rows <> [] ->
  length (records_of id rows) <= 1 ->
  exists r, records_of id (upsert_rows (Some id) secret rows) = [r] /\
            r !! 0 = Some id /\ r !! 1 = Some secret.
Proof.
  intros Hne Hlen. unfold upsert_rows, records_of in *.
  destruct rows as [|h rows]; [done|]. cbn [drop] in *. rewrite drop_0 in *.
  destruct (findIndex (has_id (Some id)) rows) as [i|] eqn:Hfind.
  - pose proof (findIndex_Some_lt _ _ _ Hfind) as Hi.
    destruct (lookup_lt_is_Some_2 rows i Hi) as [old Hold].
    rewrite (write_row_existing (i + 2) _ (h :: rows) old).
    2:{ replace (i + 2 - 1) with (S i) by lia. exact Hold. }
    replace (i + 2 - 1) with (S i) by lia.
    change (<[S i := ?x]> (h :: rows)) with (h :: <[i := x]> rows).
    cbn [drop]. rewrite drop_0.
    exists (overlay [Some id; Some secret] old).
    split; [|split; reflexivity].
    by apply findIndex_Some_filter_insert.
  - change (drop 1 ((h :: rows) ++ ?x)) with (rows ++ x).
    rewrite filter_app, (findIndex_None_filter _ _ Hfind).
    exists [id; secret]. cbn [overlay hd tl app].
    rewrite filter_cons_True by done. rewrite filter_nil. done.
Qed.

(** One successful upsert keeps the records of a webhook at most one, and
    leaves a sheet with a first row. *)
Lemma upsert_rows_invariant id secret (rows : list row) :
  length (records_of id rows) <= 1 ->
  upsert_rows (Some id) secret rows <> [] /\
  length (records_of id (upsert_rows (Some id) secret rows)) <= 1.
Proof.
  intros Hlen. destruct rows as [|h rows].
  - cbn. split; [done | lia].
  - destruct (upsert_rows_records id secret (h :: rows)) as (r & Hr & _); [done..|].
    rewrite Hr. split; [|cbn; lia].
    intros Heq. rewrite Heq in Hr. done.
Qed.

End WebhookHandlerFacts.

Module StoreFacts.
Import WebhookHandler WebhookHandlerFacts.

Lemma records_of_headerless id : records_of id [] = [] /\ records_of id [header] = [].
Proof. split; reflexivity. Qed.

(** Two upserts in a row, on the rows alone. *)
Lemma upsert_rows_twice id a b (rows : list row) :
  length (records_of id rows) <= 1 ->
  exists r, records_of id (upsert_rows (Some id) b (upsert_rows (Some id) a rows)) = [r] /\
            r !! 0 = Some id /\ r !! 1 = Some b.
Proof.
  intros Hlen.
  destruct (upsert_rows_invariant id a rows Hlen) as [Hne Hlen'].
  by apply upsert_rows_records.
Qed.

(** An upsert for a webhook with a record keeps the number of rows; one for
    a webhook without a record adds a last row. *)
Lemma upsert_rows_in_place id secret (rows : list row) :
  records_of id rows <> [] ->
  length (upsert_rows (Some id) secret rows) = length rows.
Proof.
  intros Hrec. unfold upsert_rows.
  destruct (findIndex (has_id (Some id)) (drop 1 rows)) as [i|] eqn:Hfind.
  - pose proof (findIndex_Some_lt _ _ _ Hfind) as Hi. rewrite length_drop in Hi.
    destruct (lookup_lt_is_Some_2 rows (i + 2 - 1)) as [old Hold]; [lia|].
    rewrite (write_row_existing _ _ _ _ Hold). apply length_insert.
  - destruct Hrec. by apply findIndex_None_filter.
Qed.

Lemma upsert_rows_append id secret (rows : list row) :
  records_of id rows = [] ->
  upsert_rows (Some id) secret rows = rows ++ [[id; secret]].
Proof.
  intros Hrec. unfold upsert_rows.
  destruct (findIndex (has_id (Some id)) (drop 1 rows)) as [i|] eqn:Hfind; [|done].
  exfalso. unfold records_of in Hrec. revert i Hfind Hrec.
  induction (drop 1 rows) as [|r l IH]; intros i; [done|]. cbn [findIndex].
  destruct (has_id (Some id) r) eqn:Hr.
  - apply has_id_true in Hr. by rewrite filter_cons_True.
  - destruct (findIndex _ l) as [j|]; [|done]. intros _ Hf.
    apply (IH j eq_refl). destruct (decide (r !! 0 = Some id)) as [Hd|Hd].
    + by rewrite filter_cons_True in Hf.
    + by rewrite filter_cons_False in Hf.
Qed.

(** [storeSecret] of the script when no call of the API fails. *)
Lemma storeSecret_calm id secret w :
  faults w = [] ->
  exists r w',
    StoreSecretScript.storeSecret id secret w = (Ok r, w') /\
    faults w' = [] /\ sheet1 w' = sheet1 w /\
    secrets w' = Some (upsert_rows (Some id) secret
                         (match secrets w with Some rows => rows | None => [header] end)).
Proof.
  destruct w as [c t s fs tr tk au]. cbn [faults]. intros ->.
  unfold StoreSecretScript.storeSecret, StoreSecretScript.ensureWebhookSecretsSheet,
    upsert_rows.
  destruct s as [rows|].
  - cbn. change (2 - 1) with 1.
    destruct (findIndex (has_id (Some id)) (drop 1 rows)) as [i|]; cbn;
      unfold ret; do 2 eexists; repeat split; reflexivity.
  - cbn. unfold ret. do 2 eexists. repeat split; reflexivity.
Qed.

End StoreFacts.

Module ListingFacts.
Import WebhookHandler WebhookHandlerFacts.

Lemma truthy_true (s : string) : truthy s = true <-> s <> "".
Proof.
  unfold truthy. rewrite negb_true_iff. split.
  - intros H ->. by rewrite String.eqb_refl in H.
  - intros H. by apply String.eqb_neq.
Qed.

Lemma collect_secrets_from (acc : gset string) (rows : list row) (x : string) :
  x ∈ foldl (fun acc r =>
               match r !! 1 with
               | Some secret => if truthy secret then {[secret]} ∪ acc else acc
               | None => acc
               end) acc rows
  <-> x ∈ acc \/ (x <> "" /\ exists r : row, r ∈ rows /\ r !! 1 = Some x).
Proof.
  revert acc. induction rows as [|r rows IH]; intros acc; cbn [foldl].
  - split; [tauto|]. intros [H | (_ & r & Hr & _)]; [done|]. by apply elem_of_nil in Hr.
  - rewrite IH. split.
    + intros [H | (Hx & r' & Hr' & Hs)].
      * destruct (r !! 1) as [secret|] eqn:Hsec; [|tauto].
        destruct (truthy secret) eqn:Ht; [|tauto].
        apply elem_of_union in H as [H | H]; [|tauto].
        apply elem_of_singleton in H as ->. right. split.
        -- by apply truthy_true.
        -- exists r. split; [apply elem_of_cons; tauto | done].
      * right. split; [done|]. exists r'. split; [apply elem_of_cons; tauto | done].
    + intros [H | (Hx & r' & Hr' & Hs)].
      * left. destruct (r !! 1) as [secret|]; [|done].
        destruct (truthy secret); [|done]. apply elem_of_union. tauto.
      * apply elem_of_cons in Hr' as [-> | Hr'].
        -- left. rewrite Hs. apply truthy_true in Hx. rewrite Hx.
           apply elem_of_union. left. by apply elem_of_singleton.
        -- right. eauto.
Qed.

(** The listing keeps exactly the non-empty second cells. *)
Lemma collect_secrets_spec (rows : list row) (x : string) :
  x ∈ collect_secrets rows <-> x <> "" /\ exists r : row, r ∈ rows /\ r !! 1 = Some x.
Proof.
  unfold collect_secrets. rewrite collect_secrets_from. split; [|tauto].
  intros [H | H]; [|done]. by apply not_elem_of_empty in H.
Qed.

Lemma getWebhookSecrets_try_spec t s sid :
  hoare (store_is t s) (getWebhookSecrets_try sid)
    (fun S w => exists rows, store_is t (Some rows) w /\
                  S = collect_secrets (drop 1 rows) /\
                  (s = Some rows \/ (s = None /\ (rows = [header] \/ rows = []))))
    (fun _ _ => True).
Proof.
  intros w H. unfold getWebhookSecrets_try.
  exec (remember_spec t s sid); [|done].
  exec (ensure_retry_spec t s sid); [|done].
  destruct X0 as (rows & X0 & Hs).
  exec (read_retry_spec t (Some rows) 2); [|done].
  destruct X1 as (X1 & rs & [= <-] & ->). eauto.
Qed.

(** The listing never throws. *)
Lemma getWebhookSecrets_returns sid w :
  exists S w', getWebhookSecrets sid w = (Ok S, w').
Proof.
  unfold getWebhookSecrets, try_catch.
  destruct (getWebhookSecrets_try sid w) as [[S|e] w']; unfold ret; eauto.
Qed.

(** Whatever the listing returns was read from the store. *)
Lemma listed_secrets_are_stored sid w S w1 :
  getWebhookSecrets sid w = (Ok S, w1) ->
  S = ∅ \/
  forall x, x ∈ S ->
    x <> "" /\ exists c : row, c ∈ drop 1 (secret_rows w1) /\ c !! 1 = Some x.
Proof.
  intros HS.
  pose proof (getWebhookSecrets_try_spec (sheet1 w) (secrets w) sid w
                (conj eq_refl eq_refl)) as Hspec.
  unfold getWebhookSecrets, try_catch in HS.
  destruct (getWebhookSecrets_try sid w) as [[S'|e] w'].
  - injection HS as <- <-. right.
    destruct Hspec as (rows & [_ Hs] & -> & _).
    unfold secret_rows. rewrite Hs. cbn [default].
    intros x. apply collect_secrets_spec.
  - injection HS as <- <-. by left.
Qed.

End ListingFacts.

Module WebhookCjsFacts.
Import Json WebhookHandler WebhookCjs.

(** The loop over the events swallows every error. *)
Lemma processEvents_returns events sid w :
  exists w', processEvents events sid w = (Ok tt, w').
Proof.
  revert w. induction events as [|ev events IH]; intros w; cbn [processEvents].
  - unfold ret. eauto.
  - unfold bind at 1, try_catch.
    destruct (match decode_event ev with
              | Some ev0 => handleWebhookEvent ev0 sid
              | None => throw (JsError "TypeError")
              end w) as [[[]|e] w1]; unfold ret; apply IH.
Qed.

Lemma isValid_spec (S : gset string) (bodyString signature : string) :
  isValid S bodyString signature = true <->
  exists secret, secret ∈ S /\ Sha256.hmac_sha256_hex secret bodyString = signature.
Proof.
  unfold isValid. rewrite existsb_exists. split.
  - intros (x & Hin & Heq). exists x. split.
    + apply elem_of_elements. by apply list_elem_of_In.
    + by apply String.eqb_eq.
  - intros (x & Hin & Heq). exists x. split.
    + apply list_elem_of_In. by apply elem_of_elements.
    + by apply String.eqb_eq.
Qed.

(** The delivery branch answers 200 or 401, by the validity of the signature
    against the listed secrets. *)
Lemma delivery_answer body signature sid w :
  exists S w1 w',
    getWebhookSecrets sid w = (Ok S, w1) /\
    delivery body signature sid w =
      (Ok (if isValid S (stringify body) signature then accepted else rejected), w').
Proof.
  destruct (ListingFacts.getWebhookSecrets_returns sid w) as (S & w1 & HS).
  exists S, w1. unfold delivery. unfold bind at 1. unfold try_catch at 1.
  unfold bind at 1. rewrite HS. cbv beta iota delta [ret].
  destruct (isValid S (stringify body) signature); cbn [negb].
  - unfold bind.
    destruct (get "events" body) as [[| | | |events|]|]; unfold ret; eauto.
    destruct (processEvents_returns events sid w1) as (w' & ->). eauto.
  - eauto.
Qed.

(** A request with a sheet id, a client and no handshake header, carrying a
    signature, is handled by the delivery branch. *)
Lemma handler_delivery req q signature w :
  query req = Some q ->
  truthy_opt (searchParams_get q "sheetId") = true ->
  auth w = None ->
  if_truthy (headers req !! "x-hook-secret") = None ->
  if_truthy (headers req !! "x-hook-signature") = Some signature ->
  handler req w =
    delivery (parseRequestBody req) signature (searchParams_get q "sheetId") w.
Proof.
  intros Hq Hsid Hauth Hsecret Hsig.
  destruct (delivery_answer (parseRequestBody req) signature
              (searchParams_get q "sheetId") w) as (S & w1 & w' & _ & Hd).
  unfold handler, new_URL. rewrite Hq.
  unfold try_catch at 1. unfold bind at 1. unfold ret at 1.
  rewrite Hsid. cbn [negb]. unfold bind at 1, getGoogleSheetsClient.
  rewrite Hauth, Hsecret, Hsig, Hd. reflexivity.
Qed.

(** At an id that is a string or [undefined], the call of the handler is
    [storeWebhookSecret] as the other callers have it. *)
Lemma storeWebhookSecret_any_string id secret sid :
  storeWebhookSecret_any (option_map JStr id) secret sid
  = storeWebhookSecret id secret sid.
Proof. destruct id; reflexivity. Qed.

(** The same with a handshake header: the handshake branch, under the outer
    [catch] of the handler. *)
Lemma handler_handshake req q hookSecret w :
  query req = Some q ->
  truthy_opt (searchParams_get q "sheetId") = true ->
  auth w = None ->
  if_truthy (headers req !! "x-hook-secret") = Some hookSecret ->
  handler req w =
    try_catch (handshake (parseRequestBody req) hookSecret (searchParams_get q "sheetId"))
              (fun _ => ret (mkResponse 500 ∅ "Internal server error")) w.
Proof.
  intros Hq Hsid Hauth Hsecret.
  unfold handler, new_URL. rewrite Hq.
  unfold try_catch at 1. unfold bind at 1. unfold ret at 1.
  rewrite Hsid. cbn [negb]. unfold bind at 1, getGoogleSheetsClient.
  rewrite Hauth, Hsecret. reflexivity.
Qed.

(** A handshake whose body is [null] is answered by the outer [catch], before
    any call; any other body leads to the store. *)
Lemma handshake_null hookSecret sid w :
  try_catch (handshake JNull hookSecret sid)
            (fun _ => ret (mkResponse 500 ∅ "Internal server error")) w
  = (Ok (mkResponse 500 ∅ "Internal server error"), w).
Proof. reflexivity. Qed.

Lemma handshake_stores body hookSecret sid w :
  body <> JNull ->
  try_catch (handshake body hookSecret sid)
            (fun _ => ret (mkResponse 500 ∅ "Internal server error")) w
  = match storeWebhookSecret_any (get_opt "id" (get "data" body)) hookSecret sid w with
    | (Ok _, w') =>
        (Ok (mkResponse 200 {["X-Hook-Secret" := hookSecret]} "Webhook handshake completed"),
         w')
    | (Throw _, w') => (Ok (mkResponse 500 ∅ "Failed to store webhook secret"), w')
    end.
Proof.
  intros Hbody. unfold handshake, body_id.
  destruct body; [done|..]; unfold try_catch, bind, ret;
    by destruct (storeWebhookSecret_any _ hookSecret sid w) as [[[]|e] w1].
Qed.

End WebhookCjsFacts.

(** The digests are those of the standard: FIPS 180-4 for ["abc"], RFC 4231
    (test case 2) for the HMAC. *)
Example sha256_abc :
  Sha256.hex (Sha256.sha256 (Sha256.bytes_of_string "abc"))
  = "ba7816bf8f01cfea414140de5dae2223b00361a396177a9cb410ff61f20015ad".
Proof. vm_compute. reflexivity. Qed.

Example hmac_sha256_rfc4231 :
  Sha256.hmac_sha256_hex "Jefe" "what do ya want for nothing?"
  = "5bdcc146bf60754e6a042426089575c75a003f089d2739839dec58b964ec3843".
Proof. vm_compute. reflexivity. Qed.

Example stringify_events :
  Json.stringify (Json.JObj [("events", Json.JArr [])])
  = "{" +:+ Json.quote "events" +:+ ":[]}".
Proof. reflexivity. Qed.

Module WebhookEsmFacts.
Import WebhookHandler WebhookHandlerFacts WebhookEsm.

(** The row of an upsert is in the sheet afterwards. *)
Lemma upsert_rows_contains id secret (rows : list row) :
  exists r : row, r ∈ upsert_rows (Some id) secret rows /\
                  r !! 0 = Some id /\ r !! 1 = Some secret.
Proof.
  unfold upsert_rows.
  destruct (findIndex (has_id (Some id)) (drop 1 rows)) as [i|] eqn:Hfind.
  - pose proof (findIndex_Some_lt _ _ _ Hfind) as Hi. rewrite length_drop in Hi.
    destruct (lookup_lt_is_Some_2 rows (i + 2 - 1)) as [old Hold]; [lia|].
    rewrite (write_row_existing _ _ _ _ Hold).
    exists (overlay [Some id; Some secret] old). split; [|split; reflexivity].
    apply list_elem_of_lookup. exists (i + 2 - 1).
    apply list_lookup_insert_eq. by apply lookup_lt_Some in Hold.
  - exists [id; secret]. split; [|split; reflexivity].
    apply elem_of_app. right. by apply list_elem_of_singleton.
Qed.

(** [a || b || c || d], then a fallback: the first truthy one wins. *)
Lemma or_else_cascade (a b c d : option string) (fallback : string) :
  match if_truthy (or_else (or_else (or_else a b) c) d) with
  | Some v => v
  | None => fallback
  end =
  match if_truthy a with
  | Some v => v
  | None =>
  match if_truthy b with
  | Some v => v
  | None =>
  match if_truthy c with
  | Some v => v
  | None =>
  match if_truthy d with
  | Some v => v
  | None => fallback
  end end end end.
Proof.
  unfold or_else, if_truthy.
  destruct a as [a|], b as [b|], c as [c|], d as [d|]; cbn [truthy_opt];
    repeat match goal with
           | |- context [truthy ?x] => destruct (truthy x) eqn:?; cbn [truthy_opt]
           | H : truthy ?x = _ |- context [truthy ?x] => rewrite H
           end;
    try reflexivity; congruence.
Qed.

(** [persistHookSecret] when the credentials are in order and no call of the
    API fails. *)
Lemma persistHookSecret_calm id secret w :
  auth w = None ->
  faults w = [] ->
  exists w',
    persistHookSecret id secret w = (Ok tt, w') /\
    secrets w' = Some (upsert_rows (Some id) secret
                         (match secrets w with Some rows => rows | None => [header] end)).
Proof.
  destruct w as [c t s fs tr tk au]. cbn [faults auth]. intros -> ->.
  unfold persistHookSecret, upsert_rows. destruct s as [rows|].
  - cbn. change (2 - 1) with 1.
    destruct (findIndex (has_id (Some id)) (drop 1 rows)) as [i|]; cbn;
      eexists; split; reflexivity.
  - cbn. eexists. split; reflexivity.
Qed.

(** The handshake of [api/webhook.js] answers 200 with the secret, whatever
    becomes of the persistence. *)
Lemma handler_echoes e req q hookSecret w :
  query req = Some q ->
  if_truthy (headers req !! "x-hook-secret") = Some hookSecret ->
  exists r w',
    handler e req w = (Ok r, w') /\
    statusCode r = 200 /\ res_headers r !! "X-Hook-Secret" = Some hookSecret.
Proof.
  intros Hq Hsecret. unfold handler, new_URL. rewrite Hq.
  unfold try_catch at 1. unfold bind at 1. unfold ret at 1. rewrite Hsecret.
  destruct (negb _).
  - unfold ret. do 2 eexists. split; [reflexivity|]. split; [reflexivity|].
    cbn [res_headers]. by rewrite lookup_insert_ne, lookup_singleton_eq.
  - unfold bind, try_catch.
    destruct (persistHookSecret _ hookSecret w) as [[[]|err] w1]; unfold ret;
      do 2 eexists; (split; [reflexivity|]); (split; [reflexivity|]);
      cbn [res_headers]; by rewrite lookup_insert_ne, lookup_singleton_eq.
Qed.

End WebhookEsmFacts.

Module ReconcilerFacts.
Import WebhookHandler.

Lemma writes_log ev w :
  writes (log ev w) = writes w ++ (if is_write ev then [ev] else []).
Proof.
  destruct w. unfold writes, log. cbn [trace].
  rewrite List.filter_app. cbn [List.filter]. by destruct (is_write ev).
Qed.

Ltac quiet_cases :=
  unfold hoare, api_call, on_sheet, quiet, store_is, sheet_rows, set_sheet_rows;
  intros [? ? ? fs ? ? ?] [[? ?] ?]; unfold writes in *; simpl in *; subst;
  repeat match goal with
         | |- context [match ?f with [] => _ | _ :: _ => _ end] =>
             destruct f as [|[?|] ?]; simpl
         | |- context [match ?o with Some _ => _ | None => _ end] =>
             destruct o; simpl
         end;
  rewrite ?List.filter_app; simpl; rewrite ?app_nil_r; auto.

Section Quiet.
Variables (ws : list event) (t : list row) (s : option (list row)).

Lemma getGoogleSheetsClient_quiet :
  hoare (quiet ws t s) getGoogleSheetsClient (fun _ => quiet ws t s) (fun _ => quiet ws t s).
Proof. intros w H. unfold getGoogleSheetsClient. by destruct (auth w). Qed.

Lemma setSpreadsheetId_quiet id :
  hoare (quiet ws t s) (setSpreadsheetId id) (fun _ => quiet ws t s) (fun _ => quiet ws t s).
Proof. intros [? ? ? ? ? ? ?] H. exact H. Qed.

Lemma getSpreadsheetId_quiet :
  hoare (quiet ws t s) getSpreadsheetId (fun _ => quiet ws t s) (fun _ => quiet ws t s).
Proof.
  intros w H. unfold getSpreadsheetId.
  destruct (cache_id w) as [id|]; [destruct (truthy id)|]; exact H.
Qed.

Lemma getTask_quiet taskGid :
  hoare (quiet ws t s) (getTask taskGid)
    (fun taskData w => quiet ws t s w /\ tasks w !! taskGid = Some taskData)
    (fun _ => quiet ws t s).
Proof.
  intros w H. unfold getTask.
  destruct (tasks w !! taskGid) eqn:Hlook; [split|]; done.
Qed.

Lemma values_get_sheet1_quiet first :
  hoare (quiet ws t s) (values_get (Cols Sheet1 first))
    (fun rows w => quiet ws t s w /\ rows = drop (first - 1) t)
    (fun _ => quiet ws t s).
Proof. unfold values_get. quiet_cases. Qed.



(** [findTaskRow] only reads, never throws, and answers the row of the first
    match below the header unless the read fails. *)
Lemma findTaskRow_spec taskId :
  hoare (quiet ws t s) (findTaskRow taskId)
    (fun r w => quiet ws t s w /\
      (r = None \/
       r = option_map (fun j => j + 1 + 1) (findIndex (is_task_row taskId) (drop 1 t))))
    (fun _ _ => False).
Proof.
  intros w H. unfold findTaskRow.
  assert (Hbody : hoare (quiet ws t s)
            (let! _ := getSpreadsheetId in
             let! rows := values_get (Cols Sheet1 1) in
             ret (option_map (fun j => j + 1 + 1)
                    (findIndex (is_task_row taskId) (drop 1 rows))))
            (fun r w => quiet ws t s w /\
               r = option_map (fun j => j + 1 + 1)
                     (findIndex (is_task_row taskId) (drop 1 t)))
            (fun _ => quiet ws t s)).
  { intros w0 H0. exec getSpreadsheetId_quiet; [|done].
    exec (values_get_sheet1_quiet 1); [|done].
    destruct X0 as [X0 ->]. change (1 - 1) with 0. by rewrite drop_0. }
  exec Hbody.
  - destruct X as [X ->]. tauto.
  - tauto.
Qed.

End Quiet.

(** No row below the header carries the task id. *)
Lemma findIndex_is_task_row_None taskId (rows : list row) :
  (forall r : row, r ∈ rows -> r !! 17 <> Some taskId) ->
  findIndex (is_task_row taskId) rows = None.
Proof.
  induction rows as [|r rows IH]; intros Hno; [done|]. cbn [findIndex].
  assert (Hr : is_task_row taskId r = false).
  { unfold is_task_row. destruct (r !! 17) as [c|] eqn:Hc; [|done].
    destruct (String.eqb_spec c taskId) as [->|Hne].
    - destruct (Hno r); [apply elem_of_cons; tauto | done].
    - by rewrite andb_false_r. }
  rewrite Hr, IH; [done|]. intros r' Hr'. apply Hno, elem_of_cons. tauto.
Qed.

(** A match of the scan is a row, below the header, whose cell in the Task ID
    column is the task id. *)
Lemma findIndex_is_task_row_Some taskId (rows : list row) j :
  findIndex (is_task_row taskId) rows = Some j ->
  exists r : row, rows !! j = Some r /\ r !! 17 = Some taskId.
Proof.
  revert j. induction rows as [|r rows IH]; intros j; [done|]. cbn [findIndex].
  destruct (is_task_row taskId r) eqn:Hr.
  - intros [= <-]. exists r. split; [done|]. unfold is_task_row in Hr.
    destruct (r !! 17) as [c|]; [|done]. apply andb_true_iff in Hr as [_ Hr].
    by apply String.eqb_eq in Hr as ->.
  - destruct (findIndex _ rows) as [i|]; [|done]. intros [= <-]. by apply IH.
Qed.

(** The skipped event, with the outcome of the handler spelt out. *)
Lemma skipped_event_unchanged (event : task_event) (sid : option string) (w : world)
    (taskData : task) :
  action event = "changed" \/ action event = "added" ->
  tasks w !! resource_gid event = Some taskData ->
  completed taskData = false ->
  is_special (assignee taskData) = false ->
  (forall r : row, r ∈ drop 1 (sheet1 w) -> r !! 17 <> Some (gid taskData)) ->
  match handleWebhookEvent event sid w with
  | (_, w') => quiet (writes w) (sheet1 w) (secrets w) w'
  end.
Proof.
  intros Haction Htask Hcompleted Hspecial Hrows.
  assert (Hcase : String.eqb (action event) "changed"
                  || String.eqb (action event) "added" = true).
  { destruct Haction as [-> | ->]; reflexivity. }
  unfold handleWebhookEvent, bind at 1, getGoogleSheetsClient.
  destruct (auth w); [done|].
  unfold bind at 1, setSpreadsheetId. rewrite Hcase.
  unfold bind at 1, getTask.
  change (tasks (set_cache_id sid w)) with (tasks w). rewrite Htask.
  assert (Hq : quiet (writes w) (sheet1 w) (secrets w) (set_cache_id sid w))
    by (by destruct w).
  pose proof (findTaskRow_spec (writes w) (sheet1 w) (secrets w)
                (gid taskData) _ Hq) as Hfind.
  unfold bind.
  destruct (findTaskRow (gid taskData) (set_cache_id sid w)) as [[r|e] w1]; [|done].
  destruct Hfind as [Hq1 Hr].
  rewrite (findIndex_is_task_row_None _ _ Hrows) in Hr.
  assert (r = None) as -> by (destruct Hr; done).
  rewrite Hcompleted, Hspecial. exact Hq1.
Qed.




End ReconcilerFacts.

Module RetryFacts.
Import WebhookHandler WebhookHandlerFacts.

(** The row of an upsert is in the sheet afterwards, whatever the id. *)
Lemma upsert_rows_has_secret webhookId secret (rows : list row) :
  exists r : row, r ∈ upsert_rows webhookId secret rows /\
                  r !! 1 = Some secret /\
                  (forall id, webhookId = Some id -> r !! 0 = Some id).
Proof.
  unfold upsert_rows.
  destruct (findIndex (has_id webhookId) (drop 1 rows)) as [i|] eqn:Hfind.
  - pose proof (findIndex_Some_lt _ _ _ Hfind) as Hi. rewrite length_drop in Hi.
    destruct (lookup_lt_is_Some_2 rows (i + 2 - 1)) as [old Hold]; [lia|].
    rewrite (write_row_existing _ _ _ _ Hold).
    exists (overlay [webhookId; Some secret] old).
    split; [|split; [reflexivity | by intros id ->]].
    apply list_elem_of_lookup. exists (i + 2 - 1).
    apply list_lookup_insert_eq. by apply lookup_lt_Some in Hold.
  - exists (overlay [webhookId; Some secret] []).
    split; [|split; [reflexivity | by intros id ->]].
    apply elem_of_app. right. by apply list_elem_of_singleton.
Qed.

Ltac run_store Hsid :=
  unfold storeWebhookSecret, retry_once_on_429, ensureWebhookSecretsSheet, remember,
    getSpreadsheetId, setSpreadsheetId, spreadsheets_get, values_get, values_update,
    values_append, sleep, api_call, on_sheet, bind, try_catch, ret, throw,
    upsert_event, upsert_rows;
  cbn; repeat (first [rewrite Hsid | rewrite drop_0]; cbn).

Section Scripts.
Variables (c : option string) (t rows : list row) (tr : list event)
          (tk : gmap string task) (au : option error).
Variables (webhookId : option string) (secret sid : string).
Hypothesis Hsid : truthy sid = true.

Let upsert (fs : list (option error)) : result unit * world :=
  storeWebhookSecret webhookId secret (Some sid) (mkWorld c t (Some rows) fs tr tk au).

Let get_rows : event := EvValuesGet (Cols webhook_secrets 1).

Lemma schema_check_retried_once e rest :
  (upsert (Some (ApiError 429) :: Some e :: rest)).1 = Throw e /\
  trace (upsert (Some (ApiError 429) :: Some e :: rest)).2
    = tr ++ [EvGetMeta; EvFailed (ApiError 429); EvSleep 5000; EvGetMeta; EvFailed e].
Proof.
  subst upsert. cbv beta. run_store Hsid.
  rewrite <- !app_assoc. destruct (is_429 e); done.
Qed.

Lemma read_retried_once e rest :
  (upsert (None :: Some (ApiError 429) :: Some e :: rest)).1 = Throw e /\
  trace (upsert (None :: Some (ApiError 429) :: Some e :: rest)).2
    = tr ++ [EvGetMeta; get_rows; EvFailed (ApiError 429); EvSleep 5000;
             get_rows; EvFailed e].
Proof.
  subst upsert get_rows. cbv beta. run_store Hsid.
  rewrite <- !app_assoc. done.
Qed.

Lemma read_retried_then_written rest :
  (upsert (None :: Some (ApiError 429) :: None :: None :: rest)).1 = Ok tt /\
  secrets (upsert (None :: Some (ApiError 429) :: None :: None :: rest)).2
    = Some (upsert_rows webhookId secret rows) /\
  trace (upsert (None :: Some (ApiError 429) :: None :: None :: rest)).2
    = tr ++ [EvGetMeta; get_rows; EvFailed (ApiError 429); EvSleep 5000;
             get_rows; upsert_event webhookId secret rows].
Proof.
  subst upsert get_rows. cbv beta. run_store Hsid.
  destruct (findIndex (has_id webhookId) (drop 1 rows)); cbn;
    repeat (rewrite Hsid; cbn); rewrite <- !app_assoc; done.
Qed.

Lemma other_error_raised_at_once e rest :
  is_429 e = false ->
  ((upsert (Some e :: rest)).1 = Throw e /\
   trace (upsert (Some e :: rest)).2 = tr ++ [EvGetMeta; EvFailed e]) /\
  ((upsert (None :: Some e :: rest)).1 = Throw e /\
   trace (upsert (None :: Some e :: rest)).2 = tr ++ [EvGetMeta; get_rows; EvFailed e]).
Proof.
  intros He. subst upsert get_rows. cbv beta. split; run_store Hsid;
    rewrite He; cbn; rewrite <- !app_assoc; done.
Qed.

Lemma write_error_raised e rest :
  (upsert (None :: None :: Some e :: rest)).1 = Throw e /\
  secrets (upsert (None :: None :: Some e :: rest)).2 = Some rows /\
  trace (upsert (None :: None :: Some e :: rest)).2
    = tr ++ [EvGetMeta; get_rows; upsert_event webhookId secret rows; EvFailed e].
Proof.
  subst upsert get_rows. cbv beta. run_store Hsid.
  destruct (findIndex (has_id webhookId) (drop 1 rows)); cbn;
    repeat (rewrite Hsid; cbn); rewrite <- !app_assoc; done.
Qed.

End Scripts.
End RetryFacts.

Module PaginationFacts.
Import Pagination.

(** Running a script in two parts. *)
Lemma loop_app {A} (pre rest : list (option string -> fetched A)) (st : loop_state A) :
  loop (pre ++ rest) st =
  match loop pre st with
  | Waiting st' => loop rest st'
  | Returned r => Returned r
  end.
Proof.
  revert st. induction pre as [|f pre IH]; intros st; [done|].
  cbn [app loop]. destruct (f (offset st)) as [p|e].
  - destruct (truthy_opt (next_offset p)); [apply IH | done].
  - destruct (MAX_CONSECUTIVE_ERRORS <=? consecutiveErrors st + 1); [done | apply IH].
Qed.

(** Three failures in a row end the loop with the results it has, whatever
    the count was. *)
Lemma three_failures_return {A} (f1 f2 f3 : option string -> fetched A) rest
    (st : loop_state A) e1 e2 e3 :
  f1 (offset st) = Failed e1 ->
  f2 (offset st) = Failed e2 ->
  f3 (offset st) = Failed e3 ->
  loop (f1 :: f2 :: f3 :: rest) st = Returned (results st).
Proof.
  intros H1 H2 H3. cbn [loop]. rewrite H1.
  destruct (MAX_CONSECUTIVE_ERRORS <=? consecutiveErrors st + 1) eqn:E1; [done|].
  cbn [loop offset results consecutiveErrors]. rewrite H2.
  destruct (MAX_CONSECUTIVE_ERRORS <=? consecutiveErrors st + 1 + 1) eqn:E2; [done|].
  cbn [loop offset results consecutiveErrors]. rewrite H3.
  destruct (MAX_CONSECUTIVE_ERRORS <=? consecutiveErrors st + 1 + 1 + 1) eqn:E3; [done|].
  unfold MAX_CONSECUTIVE_ERRORS in E3. apply Nat.leb_gt in E3. lia.
Qed.

End PaginationFacts.

Module RateLimiterFacts.
Import RateLimiter.

Lemma processQueue_balanced s : balanced s -> balanced (processQueue s).
Proof.
  unfold balanced, processQueue, releases.
  destruct (processing s) eqn:Hp; [by rewrite Hp|].
  destruct (queue s) as [|op rest]; [by rewrite Hp|].
  cbn. rewrite length_app. cbn. lia.
Qed.


Lemma take_timer_filter (p : nat * timer -> bool) t all ts due rest :
  take_timer t all ts = Some (due, rest) ->
  length (List.filter p ts)
  = length (List.filter p rest) + (if p (due, t) then 1 else 0).
Proof.
  revert rest. induction ts as [|[d t'] ts IH]; intros rest; [done|].
  cbn [take_timer].
  destruct (timer_eqb t t' && forallb _ all) eqn:Hhit.
  - intros [= <- <-]. apply andb_true_iff in Hhit as [Heq _].
    assert (t = t') as ->.
    { destruct t, t'; cbn in Heq; try done. by apply Nat.eqb_eq in Heq as ->. }
    cbn [List.filter]. destruct (p (d, t')); cbn; lia.
  - destruct (take_timer t all ts) as [[d' rest']|]; [|done].
    intros [= <- <-]. specialize (IH rest' eq_refl).
    cbn [List.filter]. destruct (p (d, t')); cbn; lia.
Qed.

(** With the balance, an operation that settles is the only one running. *)
Lemma running_alone s op :
  balanced s -> existsb (Nat.eqb op) (running s) = true ->
  running s = [op] /\ releases s = 0 /\ processing s = true.
Proof.
  unfold balanced. intros Hb Hin. apply existsb_exists in Hin as (x & Hx & Heq).
  apply Nat.eqb_eq in Heq as <-.
  destruct (running s) as [|y [|z l]]; [done| |destruct (processing s); cbn in Hb; lia].
  destruct Hx as [-> | []]. destruct (processing s); cbn in Hb; [|lia].
  split; [done|]. split; [lia | done].
Qed.

Lemma remove_op_alone op : remove_op op [op] = [].
Proof. unfold remove_op. cbn. by rewrite Nat.eqb_refl. Qed.

Lemma step_balanced s h s' : balanced s -> step s h = Some s' -> balanced s'.
Proof.
  intros Hb. destruct h as [at_ms op | at_ms op e | t]; cbn [step].
  - destruct (on_time at_ms s); [|done]. intros [= <-].
    apply processQueue_balanced. exact Hb.
  - destruct (on_time at_ms s); [|done]. cbn [andb].
    destruct (existsb (Nat.eqb op) (running s)) eqn:Hin; [|done].
    destruct (running_alone s op Hb Hin) as (Hrun & Hrel & Hp).
    unfold releases in Hrel.
    destruct e as [|jitter|]; [|destruct (jitter <? 5000); [|done]|];
      intros [= <-]; unfold balanced, releases; cbn;
      rewrite Hrun, remove_op_alone, Hp, List.filter_app, length_app; cbn; lia.
  - destruct (take_timer t (timers s) (timers s)) as [[due rest]|] eqn:Htake; [|done].
    pose proof (take_timer_filter is_release _ _ _ _ _ Htake) as Hcount.
    destruct t as [op|]; intros [= <-].
    + unfold balanced, releases in *. cbn in *. lia.
    + apply processQueue_balanced. unfold balanced, releases in *. cbn in *.
      destruct (processing s); lia.
Qed.




End RateLimiterFacts.

(** The handshake of the specification's end-to-end example, on a blank
    spreadsheet: the sheet is created, the secret stored under [wh1] and
    echoed. *)
Example end_to_end_handshake :
  exists r w',
    WebhookCjs.handler
      (handshake_request "s1" ∅ []
         (Json.JObj [("data", Json.JObj [("id", Json.JStr "wh1")])])) blank
      = (Ok r, w') /\
    statusCode r = 200 /\
    res_headers r !! "X-Hook-Secret" = Some "s1" /\
    secrets w' = Some [WebhookHandler.header; ["wh1"; "s1"]] /\
    writes w' = [EvAddSheet;
                 EvValuesUpdate (RowOf webhook_secrets 1) [Some "webhook_id"; Some "secret"];
                 EvValuesAppend webhook_secrets [Some "wh1"; Some "s1"]].
Proof. do 2 eexists. split; [vm_compute; reflexivity|]. repeat split. Qed.

(** A delivery signed with a secret that is not stored is refused. *)
Example unrelated_secret_rejected :
  (WebhookCjs.handler
     (signed_delivery (Json.JObj [("events", Json.JArr [])])
        (Sha256.hmac_sha256_hex "s3" (Json.stringify (Json.JObj [("events", Json.JArr [])]))))
     (with_records [["wh1"; "s1"]; ["wh2"; "s2"]] [])).1
  = Ok WebhookCjs.rejected.
Proof. vm_compute. reflexivity. Qed.

(** ** Invariants: what a computation leaves alone *)

Section PreservesRules.
Context {A B : Type}.
Variable I : world -> Prop.

Lemma preserves_ret (a : A) : preserves I (ret a).
Proof. intros w H. exact H. Qed.

Lemma preserves_throw (e : error) : preserves I (@throw A e).
Proof. intros w H. exact H. Qed.

Lemma preserves_bind (m : M A) (k : A -> M B) :
  preserves I m -> (forall a, preserves I (k a)) -> preserves I (bind m k).
Proof. intros Hm Hk. apply hoare_bind with (Q := fun _ => I); assumption. Qed.

Lemma preserves_try_catch (m : M A) (h : error -> M A) :
  preserves I m -> (forall e, preserves I (h e)) -> preserves I (try_catch m h).
Proof. intros Hm Hh. apply hoare_try_catch with (E' := fun _ => I); assumption. Qed.

Lemma preserves_run (m : M A) w : preserves I m -> I w -> I (m w).2.
Proof. intros Hm Hw. specialize (Hm w Hw). by destruct (m w) as [[a|e] w']. Qed.

(** A call of the API keeps an invariant on the cells when its action
    does. *)
Lemma preserves_api_call (ev : event) (act : world -> result A * world) :
  on_cells I -> preserves I act -> preserves I (api_call ev act).
Proof.
  intros Hc Hact [c t s fs tr tk au] H. unfold api_call. cbn [faults].
  destruct fs as [|[e|] fs].
  - apply Hact. exact (Hc _ _ _ _ _ _ _ _ _ _ H).
  - exact (Hc _ _ _ _ _ _ _ _ _ _ H).
  - apply Hact. exact (Hc _ _ _ _ _ _ _ _ _ _ H).
Qed.
End PreservesRules.

Lemma sheet1_is_on_cells t : on_cells (sheet1_is t).
Proof. intros c t0 s fs tr tk au c' fs' tr' H. exact H. Qed.

Lemma secrets_are_on_cells s : on_cells (secrets_are s).
Proof. intros c t s0 fs tr tk au c' fs' tr' H. exact H. Qed.

(** Taking a computation apart along its binds, handlers and branches; the
    leaves are closed by the lemmas of the hint database [frame]. *)
Create HintDb frame.

Ltac frame :=
  repeat lazymatch goal with
         | |- preserves _ (bind _ _) => apply preserves_bind; [|intros ?]
         | |- preserves _ (try_catch _ _) => apply preserves_try_catch; [|intros ?]
         | |- preserves _ (ret _) => apply preserves_ret
         | |- preserves _ (throw _) => apply preserves_throw
         | |- preserves _ (if ?b then _ else _) => destruct b
         | |- preserves _ (match ?o with Some _ => _ | None => _ end) => destruct o
         | |- preserves _ _ => solve [auto with frame]
         end.

Module FrameFacts.
Import WebhookHandler.

Section Bookkeeping.
Variable I : world -> Prop.
Hypothesis HI : on_cells I.

Lemma sleep_preserves ms : preserves I (sleep ms).
Proof. intros [c t s fs tr tk au] H. exact (HI _ _ _ _ _ _ _ _ _ _ H). Qed.

Lemma setSpreadsheetId_preserves id : preserves I (setSpreadsheetId id).
Proof. intros [c t s fs tr tk au] H. exact (HI _ _ _ _ _ _ _ _ _ _ H). Qed.

Lemma getSpreadsheetId_preserves : preserves I getSpreadsheetId.
Proof.
  intros w H. unfold getSpreadsheetId.
  destruct (cache_id w) as [id|]; [destruct (truthy id)|]; exact H.
Qed.

Lemma remember_preserves sid : preserves I (remember sid).
Proof.
  unfold remember. destruct (truthy_opt sid);
    [apply setSpreadsheetId_preserves | apply preserves_ret].
Qed.

Lemma getGoogleSheetsClient_preserves : preserves I getGoogleSheetsClient.
Proof. intros w H. unfold getGoogleSheetsClient. by destruct (auth w). Qed.

Lemma authorize_preserves : preserves I WebhookEsm.authorize.
Proof. intros w H. unfold WebhookEsm.authorize. by destruct (auth w). Qed.

Lemma getTask_preserves taskGid : preserves I (getTask taskGid).
Proof. intros w H. unfold getTask. by destruct (tasks w !! taskGid). Qed.

Lemma on_sheet_read_preserves {A} (sh : sheet_name) (f : list row -> A) :
  preserves I (on_sheet sh (fun rs w => (Ok (f rs), w))).
Proof.
  intros [c t s fs tr tk au] H. unfold on_sheet.
  destruct (sheet_rows sh _); [exact H | exact (HI _ _ _ _ _ _ _ _ _ _ H)].
Qed.

Lemma spreadsheets_get_preserves : preserves I spreadsheets_get.
Proof. apply preserves_api_call; [exact HI|]. intros w H. exact H. Qed.

Lemma values_get_preserves r : preserves I (values_get r).
Proof.
  apply preserves_api_call; [exact HI|].
  destruct r as [sh first|sh n]; apply on_sheet_read_preserves.
Qed.
End Bookkeeping.

#[export] Hint Resolve sleep_preserves setSpreadsheetId_preserves
  getSpreadsheetId_preserves remember_preserves getGoogleSheetsClient_preserves
  authorize_preserves getTask_preserves spreadsheets_get_preserves
  values_get_preserves sheet1_is_on_cells secrets_are_on_cells : frame.

(** *** The secret store leaves [Sheet1] alone *)

Section KeepsSheet1.
Variable t : list row.

Lemma batchUpdate_addSheet_keeps_sheet1 : preserves (sheet1_is t) batchUpdate_addSheet.
Proof.
  apply preserves_api_call; [apply sheet1_is_on_cells|].
  intros [c t0 s fs tr tk au] H. by destruct s.
Qed.

Lemma values_update_keeps_sheet1 n v :
  preserves (sheet1_is t) (values_update webhook_secrets n v).
Proof.
  apply preserves_api_call; [apply sheet1_is_on_cells|].
  intros [c t0 s fs tr tk au] H. unfold on_sheet. by destruct s.
Qed.

Lemma values_append_keeps_sheet1 v :
  preserves (sheet1_is t) (values_append webhook_secrets v).
Proof.
  apply preserves_api_call; [apply sheet1_is_on_cells|].
  intros [c t0 s fs tr tk au] H. unfold on_sheet. by destruct s.
Qed.

Hint Resolve batchUpdate_addSheet_keeps_sheet1 values_update_keeps_sheet1
  values_append_keeps_sheet1 : frame.

Lemma ensureWebhookSecretsSheet_keeps_sheet1 sid :
  preserves (sheet1_is t) (ensureWebhookSecretsSheet sid).
Proof. unfold ensureWebhookSecretsSheet. frame. Qed.

Hint Resolve ensureWebhookSecretsSheet_keeps_sheet1 : frame.

Lemma storeWebhookSecret_keeps_sheet1 webhookId secret sid :
  preserves (sheet1_is t) (storeWebhookSecret webhookId secret sid).
Proof. unfold storeWebhookSecret, retry_once_on_429. frame. Qed.

Lemma getWebhookSecrets_keeps_sheet1 sid :
  preserves (sheet1_is t) (getWebhookSecrets sid).
Proof. unfold getWebhookSecrets, getWebhookSecrets_try, retry_once_on_429. frame. Qed.

Lemma storeSecret_keeps_sheet1 id secret :
  preserves (sheet1_is t) (StoreSecretScript.storeSecret id secret).
Proof.
  unfold StoreSecretScript.storeSecret, StoreSecretScript.ensureWebhookSecretsSheet.
  frame.
Qed.

Lemma persistHookSecret_keeps_sheet1 id secret :
  preserves (sheet1_is t) (WebhookEsm.persistHookSecret id secret).
Proof. unfold WebhookEsm.persistHookSecret. frame. Qed.

Lemma new_URL_preserves (I : world -> Prop) req : preserves I (new_URL req).
Proof. unfold new_URL. destruct (query req); [apply preserves_ret | apply preserves_throw]. Qed.

Hint Resolve persistHookSecret_keeps_sheet1 storeWebhookSecret_keeps_sheet1
  getWebhookSecrets_keeps_sheet1 new_URL_preserves : frame.

Lemma esm_handler_keeps_sheet1 e req :
  preserves (sheet1_is t) (WebhookEsm.handler e req).
Proof. unfold WebhookEsm.handler. frame. Qed.

Lemma values_refused_keeps_sheet1 ev : preserves (sheet1_is t) (values_refused ev).
Proof.
  apply preserves_api_call; [apply sheet1_is_on_cells|].
  intros [c t0 s fs tr tk au] H. exact H.
Qed.

Lemma body_id_preserves (I : world -> Prop) body : preserves I (WebhookCjs.body_id body).
Proof. destruct body; first [apply preserves_throw | apply preserves_ret]. Qed.

Hint Resolve values_refused_keeps_sheet1 body_id_preserves : frame.

Lemma storeWebhookSecret_any_keeps_sheet1 webhookId secret sid :
  preserves (sheet1_is t) (WebhookCjs.storeWebhookSecret_any webhookId secret sid).
Proof.
  unfold WebhookCjs.storeWebhookSecret_any, WebhookCjs.update_secret,
    WebhookCjs.append_secret, retry_once_on_429.
  frame.
Qed.

Hint Resolve storeWebhookSecret_any_keeps_sheet1 : frame.

Lemma handshake_keeps_sheet1 body hookSecret sid :
  preserves (sheet1_is t) (WebhookCjs.handshake body hookSecret sid).
Proof. unfold WebhookCjs.handshake. frame. Qed.
End KeepsSheet1.

(** *** The reconciler leaves [webhook_secrets] alone *)

Section KeepsSecrets.
Variable s : option (list row).

Lemma values_update_keeps_secrets n v :
  preserves (secrets_are s) (values_update Sheet1 n v).
Proof.
  apply preserves_api_call; [apply secrets_are_on_cells|].
  intros [c t0 s0 fs tr tk au] H. exact H.
Qed.

Lemma values_append_keeps_secrets v :
  preserves (secrets_are s) (values_append Sheet1 v).
Proof.
  apply preserves_api_call; [apply secrets_are_on_cells|].
  intros [c t0 s0 fs tr tk au] H. exact H.
Qed.

Lemma batchUpdate_deleteDimension_keeps_secrets a b :
  preserves (secrets_are s) (batchUpdate_deleteDimension a b).
Proof.
  apply preserves_api_call; [apply secrets_are_on_cells|].
  intros [c t0 s0 fs tr tk au] H. exact H.
Qed.

Hint Resolve values_update_keeps_secrets values_append_keeps_secrets
  batchUpdate_deleteDimension_keeps_secrets : frame.

Lemma findTaskRow_keeps_secrets taskId : preserves (secrets_are s) (findTaskRow taskId).
Proof. unfold findTaskRow. frame. Qed.

Hint Resolve findTaskRow_keeps_secrets : frame.

Lemma handleWebhookEvent_keeps_secrets event sid :
  preserves (secrets_are s) (handleWebhookEvent event sid).
Proof.
  unfold handleWebhookEvent, updateSpreadsheetRow, addSpreadsheetRow,
    deleteSpreadsheetRow.
  frame.
Qed.

Lemma processEvents_keeps_secrets events sid :
  preserves (secrets_are s) (WebhookCjs.processEvents events sid).
Proof.
  induction events as [|ev events IH]; cbn [WebhookCjs.processEvents].
  - apply preserves_ret.
  - apply preserves_bind; [|intros _; exact IH].
    apply preserves_try_catch; [|intros ?; apply preserves_ret].
    destruct (WebhookCjs.decode_event ev);
      [apply handleWebhookEvent_keeps_secrets | apply preserves_throw].
Qed.
End KeepsSecrets.

End FrameFacts.

Module HandlerFacts.
Import Json WebhookHandler WebhookCjs.

(** The way of a request through the CommonJS handler. *)
Lemma handler_cases req w :
  match query req with
  | None => handler req w = (Ok (mkResponse 500 ∅ "Internal server error"), w)
  | Some q =>
      let spreadsheetId := searchParams_get q "sheetId" in
      if truthy_opt spreadsheetId then
        match auth w with
        | Some _ => handler req w = (Ok (mkResponse 500 ∅ "Internal server error"), w)
        | None =>
            match if_truthy (headers req !! "x-hook-secret") with
            | Some hookSecret =>
                handler req w
                = try_catch (handshake (parseRequestBody req) hookSecret spreadsheetId)
                            (fun _ => ret (mkResponse 500 ∅ "Internal server error")) w
            | None =>
                match if_truthy (headers req !! "x-hook-signature") with
                | Some signature =>
                    handler req w
                    = delivery (parseRequestBody req) signature spreadsheetId w
                | None =>
                    handler req w
                    = (Ok (mkResponse 400 ∅ "Missing required webhook headers"), w)
                end
            end
        end
      else handler req w = (Ok (mkResponse 400 ∅ "Missing sheetId query parameter"), w)
  end.
Proof.
  destruct (query req) as [q|] eqn:Hq; cbv zeta.
  - destruct (truthy_opt (searchParams_get q "sheetId")) eqn:Hsid.
    + destruct (auth w) as [e|] eqn:Hauth.
      * unfold handler, new_URL. rewrite Hq.
        unfold try_catch at 1. unfold bind at 1. unfold ret at 1.
        rewrite Hsid. cbn [negb]. unfold bind at 1, getGoogleSheetsClient.
        rewrite Hauth. reflexivity.
      * destruct (if_truthy (headers req !! "x-hook-secret")) as [hookSecret|] eqn:Hs.
        -- by apply WebhookCjsFacts.handler_handshake.
        -- destruct (if_truthy (headers req !! "x-hook-signature")) as [sg|] eqn:Hg.
           ++ by apply WebhookCjsFacts.handler_delivery.
           ++ unfold handler, new_URL. rewrite Hq.
              unfold try_catch at 1. unfold bind at 1. unfold ret at 1.
              rewrite Hsid. cbn [negb]. unfold bind at 1, getGoogleSheetsClient.
              rewrite Hauth, Hs, Hg. reflexivity.
    + unfold handler, new_URL. rewrite Hq.
      unfold try_catch at 1. unfold bind at 1. unfold ret at 1.
      rewrite Hsid. reflexivity.
  - unfold handler, new_URL. rewrite Hq. reflexivity.
Qed.

(** The handshake branch answers 200 or 500 and writes to the store only. *)
Lemma handshake_answer body hookSecret sid w :
  exists r w',
    try_catch (handshake body hookSecret sid)
              (fun _ => ret (mkResponse 500 ∅ "Internal server error")) w = (Ok r, w') /\
    (statusCode r = 200 \/ statusCode r = 500) /\ sheet1 w' = sheet1 w.
Proof.
  assert (Hcase : body = JNull \/ body <> JNull)
    by (destruct body; [by left | by right..]).
  destruct Hcase as [-> | Hbody].
  - rewrite WebhookCjsFacts.handshake_null. do 2 eexists.
    split; [reflexivity|]. cbn [statusCode]. tauto.
  - rewrite (WebhookCjsFacts.handshake_stores body hookSecret sid w Hbody).
    pose proof (FrameFacts.storeWebhookSecret_any_keeps_sheet1 (sheet1 w)
                  (get_opt "id" (get "data" body)) hookSecret sid w eq_refl) as H.
    destruct (storeWebhookSecret_any _ hookSecret sid w) as [[[]|e] w1];
      do 2 eexists; (split; [reflexivity|]); cbn [statusCode]; tauto.
Qed.

(** A delivery that is not accepted has only been through the listing. *)
Lemma delivery_frame body signature sid w :
  sheet1 (delivery body signature sid w).2 = sheet1 w \/
  (delivery body signature sid w).1 = Ok accepted.
Proof.
  destruct (WebhookCjsFacts.delivery_answer body signature sid w)
    as (S & w1 & w' & HS & Hd).
  pose proof (FrameFacts.getWebhookSecrets_keeps_sheet1 (sheet1 w) sid w eq_refl) as H.
  rewrite HS in H. cbn in H.
  destruct (isValid S (stringify body) signature) eqn:Hv.
  - right. by rewrite Hd.
  - left. clear Hd. unfold delivery. unfold bind at 1. unfold try_catch at 1.
    unfold bind at 1. rewrite HS. cbv beta iota delta [ret]. rewrite Hv. exact H.
Qed.

End HandlerFacts.

Module ReadOnlyFacts.
Import WebhookHandler WebhookHandlerFacts ReconcilerFacts.

(** *** On a spreadsheet that has its [webhook_secrets] sheet *)

Section Existing.
Variables (ws : list event) (t rows : list row).

Lemma sleep_reads ms : preserves (quiet ws t (Some rows)) (sleep ms).
Proof.
  intros [c t0 s fs tr tk au] [Hst Hws]. split; [exact Hst|].
  unfold writes in *. cbn in *. rewrite List.filter_app. cbn. by rewrite app_nil_r.
Qed.

Lemma remember_reads sid : preserves (quiet ws t (Some rows)) (remember sid).
Proof.
  unfold remember. destruct (truthy_opt sid);
    [apply setSpreadsheetId_quiet | apply preserves_ret].
Qed.

Lemma getSpreadsheetId_reads : preserves (quiet ws t (Some rows)) getSpreadsheetId.
Proof. apply getSpreadsheetId_quiet. Qed.

Lemma spreadsheets_get_reads :
  hoare (quiet ws t (Some rows)) spreadsheets_get
    (fun titles w => quiet ws t (Some rows) w /\
                     existsb (String.eqb "webhook_secrets") titles = true)
    (fun _ => quiet ws t (Some rows)).
Proof. unfold spreadsheets_get. quiet_cases. Qed.

Lemma values_get_reads r : preserves (quiet ws t (Some rows)) (values_get r).
Proof. unfold preserves, values_get. destruct r as [[|] first|[|] n]; quiet_cases. Qed.

(** The schema check finds the sheet and leaves it at that. *)
Lemma ensureWebhookSecretsSheet_reads sid :
  preserves (quiet ws t (Some rows)) (ensureWebhookSecretsSheet sid).
Proof.
  intros w H. unfold ensureWebhookSecretsSheet.
  exec (remember_reads sid); [|done].
  exec getSpreadsheetId_reads; [|done].
  exec spreadsheets_get_reads; [|done].
  destruct X1 as [X1 ->]. exact X1.
Qed.

Hint Resolve sleep_reads remember_reads getSpreadsheetId_reads values_get_reads
  ensureWebhookSecretsSheet_reads : frame.

Lemma getWebhookSecrets_reads sid :
  preserves (quiet ws t (Some rows)) (getWebhookSecrets sid).
Proof. unfold getWebhookSecrets, getWebhookSecrets_try, retry_once_on_429. frame. Qed.
End Existing.

(** *** Records of other webhooks *)

Lemma findIndex_Some_lookup {A} (p : A -> bool) (l : list A) i :
  findIndex p l = Some i -> exists x, l !! i = Some x /\ p x = true.
Proof.
  revert i. induction l as [|y l IH]; intros i; [done|]. cbn [findIndex].
  destruct (p y) eqn:Hy.
  - intros [= <-]. by exists y.
  - destruct (findIndex p l) as [j|]; [|done]. intros [= <-]. by apply IH.
Qed.

(** Replacing a row that is not selected by one that is not selected either
    does not change the selection. *)
Lemma filter_insert_others (P : row -> Prop) `{!forall r, Decision (P r)}
    (l : list row) i (old x : row) :
  l !! i = Some old -> ~ P old -> ~ P x -> filter P (<[i := x]> l) = filter P l.
Proof.
  revert i. induction l as [|y l IH]; intros i; [done|].
  destruct i as [|i].
  - intros [= ->] Ho Hx. change (<[0 := x]> (old :: l)) with (x :: l).
    by rewrite !filter_cons_False.
  - intros Hl Ho Hx. change (<[S i := x]> (y :: l)) with (y :: <[i := x]> l).
    rewrite !filter_cons. by rewrite (IH i Hl Ho Hx).
Qed.

Lemma upsert_rows_others id id' secret (rows : list row) :
  id' <> id ->
  records_of id' (upsert_rows (Some id) secret rows) = records_of id' rows.
Proof.
  intros Hne. unfold upsert_rows, records_of.
  destruct (findIndex (has_id (Some id)) (drop 1 rows)) as [i|] eqn:Hfind.
  - destruct (findIndex_Some_lookup _ _ _ Hfind) as (old & Hold & Hid).
    apply has_id_true in Hid. rewrite lookup_drop in Hold.
    rewrite (write_row_existing (i + 2) _ rows old).
    2:{ replace (i + 2 - 1) with (1 + i) by lia. exact Hold. }
    replace (i + 2 - 1) with (1 + i) by lia.
    rewrite drop_insert_ge by lia. replace (1 + i - 1) with i by lia.
    apply filter_insert_others with old.
    + by rewrite lookup_drop.
    + congruence.
    + cbn. congruence.
  - destruct rows as [|h rows]; [done|].
    change (drop 1 ((h :: rows) ++ ?x)) with (rows ++ x). cbn [drop]. rewrite drop_0.
    rewrite filter_app. cbn [overlay hd tl].
    rewrite (filter_cons_False _ [id; secret]) by (cbn; congruence).
    by rewrite filter_nil, app_nil_r.
Qed.

(** *** From the store to the listing *)

(** Below a first row, the row of an upsert is among the records. *)
Lemma upsert_rows_below_header webhookId secret (rows : list row) :
  rows <> [] ->
  exists r : row, r ∈ drop 1 (upsert_rows webhookId secret rows) /\ r !! 1 = Some secret.
Proof.
  intros Hne. unfold upsert_rows.
  destruct (findIndex (has_id webhookId) (drop 1 rows)) as [i|] eqn:Hfind.
  - destruct (findIndex_Some_lookup _ _ _ Hfind) as (old & Hold & _).
    rewrite lookup_drop in Hold.
    rewrite (write_row_existing (i + 2) _ rows old).
    2:{ replace (i + 2 - 1) with (1 + i) by lia. exact Hold. }
    replace (i + 2 - 1) with (1 + i) by lia.
    exists (overlay [webhookId; Some secret] old). split; [|reflexivity].
    apply list_elem_of_lookup. exists i. rewrite lookup_drop.
    apply list_lookup_insert_eq. by apply lookup_lt_Some in Hold.
  - destruct rows as [|h rows]; [done|].
    exists (overlay [webhookId; Some secret] []). split; [|reflexivity].
    change (drop 1 ((h :: rows) ++ ?x)) with (rows ++ x).
    apply elem_of_app. right. by apply list_elem_of_singleton.
Qed.

(** The listing when the sheet exists and no call fails. *)
Lemma getWebhookSecrets_calm sid (rows : list row) w :
  truthy_opt sid = true ->
  secrets w = Some rows ->
  faults w = [] ->
  (getWebhookSecrets sid w).1 = Ok (collect_secrets (drop 1 rows)).
Proof.
  destruct sid as [sid|]; [|done]. cbn [truthy_opt]. intros Hsid.
  destruct w as [c t s fs tr tk au]. cbn [faults secrets]. intros -> ->.
  unfold getWebhookSecrets, getWebhookSecrets_try, retry_once_on_429,
    ensureWebhookSecretsSheet, remember, getSpreadsheetId, setSpreadsheetId,
    spreadsheets_get, values_get, api_call, on_sheet, bind, try_catch, ret.
  cbn. repeat (rewrite Hsid; cbn). reflexivity.
Qed.

End ReadOnlyFacts.

Module UpsertFacts.
Import WebhookHandler WebhookHandlerFacts ReconcilerFacts ReadOnlyFacts.

Section OneWrite.
Variables (ws : list event) (t rows : list row).

Lemma values_update_secrets_quiet n v :
  hoare (quiet ws t (Some rows)) (values_update webhook_secrets n v)
    (fun _ => quiet (ws ++ [EvValuesUpdate (RowOf webhook_secrets n) v]) t
                    (Some (write_row n v rows)))
    (fun _ => quiet (ws ++ [EvValuesUpdate (RowOf webhook_secrets n) v]) t (Some rows)).
Proof. unfold values_update. quiet_cases. Qed.

Lemma values_append_secrets_quiet v :
  hoare (quiet ws t (Some rows)) (values_append webhook_secrets v)
    (fun _ => quiet (ws ++ [EvValuesAppend webhook_secrets v]) t
                    (Some (rows ++ [overlay v []])))
    (fun _ => quiet (ws ++ [EvValuesAppend webhook_secrets v]) t (Some rows)).
Proof. unfold values_append. quiet_cases. Qed.

Lemma values_get_secrets_quiet first :
  hoare (quiet ws t (Some rows)) (values_get (Cols webhook_secrets first))
    (fun r w => quiet ws t (Some rows) w /\ r = drop (first - 1) rows)
    (fun _ => quiet ws t (Some rows)).
Proof. unfold values_get. quiet_cases. Qed.

Lemma read_retry_quiet first :
  hoare (quiet ws t (Some rows))
    (retry_once_on_429
       (let! _ := getSpreadsheetId in values_get (Cols webhook_secrets first))
       (let! _ := getSpreadsheetId in values_get (Cols webhook_secrets first)))
    (fun r w => quiet ws t (Some rows) w /\ r = drop (first - 1) rows)
    (fun _ => quiet ws t (Some rows)).
Proof.
  assert (Hread : hoare (quiet ws t (Some rows))
            (let! _ := getSpreadsheetId in values_get (Cols webhook_secrets first))
            (fun r w => quiet ws t (Some rows) w /\ r = drop (first - 1) rows)
            (fun _ => quiet ws t (Some rows))).
  { intros w H. exec (getSpreadsheetId_reads ws t rows); [|exact X].
    exec (values_get_secrets_quiet first); exact X0. }
  intros w H. unfold retry_once_on_429.
  exec Hread; [exact X|].
  destruct (is_429 e); cbv beta iota delta [throw]; [|exact X].
  exec (sleep_reads ws t rows 5000); [|exact X0].
  exec_whole Hread; exact X1.
Qed.

Lemma ensure_retry_reads sid :
  preserves (quiet ws t (Some rows))
    (retry_once_on_429 (ensureWebhookSecretsSheet sid) (ensureWebhookSecretsSheet sid)).
Proof.
  unfold retry_once_on_429.
  apply preserves_try_catch; [apply ensureWebhookSecretsSheet_reads|]. intros e.
  destruct (is_429 e); [|apply preserves_throw].
  apply preserves_bind; [apply sleep_reads|]. intros _.
  apply ensureWebhookSecretsSheet_reads.
Qed.

(** On a sheet that exists, an upsert is one write at most: the update of the
    row found or the append; when it throws, the rows are as before. *)
Lemma storeWebhookSecret_quiet webhookId secret sid :
  hoare (quiet ws t (Some rows)) (storeWebhookSecret webhookId secret sid)
    (fun _ => quiet (ws ++ [upsert_event webhookId secret rows]) t
                    (Some (upsert_rows webhookId secret rows)))
    (fun _ w => quiet ws t (Some rows) w \/
                quiet (ws ++ [upsert_event webhookId secret rows]) t (Some rows) w).
Proof.
  intros w H. unfold storeWebhookSecret.
  exec (remember_reads ws t rows sid); [|tauto].
  exec (ensure_retry_reads sid); [|tauto].
  exec (read_retry_quiet 1); [|tauto].
  destruct X1 as [X1 ->]. change (1 - 1) with 0. rewrite drop_0.
  unfold upsert_event, upsert_rows.
  destruct (findIndex (has_id webhookId) (drop 1 rows)) as [i|].
  - exec (getSpreadsheetId_reads ws t rows); [|tauto].
    exec (values_update_secrets_quiet (i + 2) [webhookId; Some secret]); tauto.
  - exec (getSpreadsheetId_reads ws t rows); [|tauto].
    exec (values_append_secrets_quiet [webhookId; Some secret]); tauto.
Qed.
End OneWrite.

End UpsertFacts.

Module RowFacts.
Import WebhookHandler.

(** *** The row written for a task *)

Lemma to_value_cell_or_empty c : to_value (cell_or_empty c) = Some (shown (cell_or_empty c)).
Proof.
  unfold cell_or_empty, shown. destruct c as [|s|z]; cbn; [done| |];
    match goal with |- context [if ?b then _ else _] => destruct b end; done.
Qed.

(** No cell of the row is [undefined]. *)
Lemma rowValues_defined t :
  map to_value (rowValues t) = map Some (map shown (rowValues t)).
Proof.
  unfold rowValues, custom. cbv zeta.
  destruct (strict_eq _ (Some "1205846480740952")); cbn [app map];
    rewrite ?to_value_cell_or_empty; reflexivity.
Qed.

Lemma rowValues_length t :
  length (rowValues t) = 19 \/ length (rowValues t) = 20.
Proof.
  unfold rowValues. cbv zeta.
  destruct (strict_eq _ (Some "1205846480740952")); cbn; auto.
Qed.

Lemma rowValues_gid t : map shown (rowValues t) !! 17 = Some (gid t).
Proof.
  unfold rowValues. cbv zeta.
  destruct (strict_eq _ (Some "1205846480740952")); reflexivity.
Qed.

Lemma drop_S_tl {A} n (l : list A) : drop (S n) l = drop n (tl l).
Proof. destruct l; cbn; [by destruct n | done]. Qed.

(** Writing defined cells over a row replaces its first cells and keeps the
    cells beyond. *)
Lemma overlay_defined (cells old : row) :
  overlay (map Some cells) old = cells ++ drop (length cells) old.
Proof.
  revert old. induction cells as [|c cells IH]; intros old; [done|].
  cbn [map overlay length app]. by rewrite IH, drop_S_tl.
Qed.

Lemma overlay_twice (cells old : row) :
  overlay (map Some cells) (overlay (map Some cells) old) = overlay (map Some cells) old.
Proof.
  rewrite !overlay_defined. f_equal.
  by rewrite drop_app_length.
Qed.

(** The row written for a task is found by the scan for its id. *)
Lemma is_task_row_written t old :
  gid t <> "" ->
  is_task_row (gid t) (overlay (map to_value (rowValues t)) old) = true.
Proof.
  intros Hgid. rewrite rowValues_defined, overlay_defined. unfold is_task_row, row.
  rewrite lookup_app_l.
  2:{ rewrite length_map. destruct (rowValues_length t) as [-> | ->]; lia. }
  rewrite rowValues_gid. apply andb_true_iff. split.
  - by apply ListingFacts.truthy_true.
  - apply String.eqb_refl.
Qed.

Lemma written_row_gid t old :
  overlay (map to_value (rowValues t)) old !! 17 = Some (gid t).
Proof.
  rewrite rowValues_defined, overlay_defined. unfold row. rewrite lookup_app_l.
  - apply rowValues_gid.
  - rewrite length_map. destruct (rowValues_length t) as [-> | ->]; lia.
Qed.

(** *** Scans *)

Lemma findIndex_insert {A} (p : A -> bool) (l : list A) j x :
  findIndex p l = Some j -> p x = true -> findIndex p (<[j := x]> l) = Some j.
Proof.
  revert j. induction l as [|y l IH]; intros j; [done|]. cbn [findIndex].
  destruct (p y) eqn:Hy.
  - intros [= <-] Hx. change (<[0 := x]> (y :: l)) with (x :: l). cbn [findIndex].
    by rewrite Hx.
  - destruct (findIndex p l) as [i|] eqn:Hi; [|done]. intros [= <-] Hx.
    change (<[S i := x]> (y :: l)) with (y :: <[i := x]> l). cbn [findIndex].
    by rewrite Hy, (IH i eq_refl Hx).
Qed.

Lemma findIndex_app_None {A} (p : A -> bool) (l : list A) x :
  findIndex p l = None -> p x = true -> findIndex p (l ++ [x]) = Some (length l).
Proof.
  induction l as [|y l IH]; cbn [findIndex app length].
  - intros _ ->. done.
  - destruct (p y); [done|]. destruct (findIndex p l); [done|].
    intros _ Hx. by rewrite (IH eq_refl Hx).
Qed.

(** *** Reconciling twice *)

Lemma reconcile_rows_idempotent t (rows : list row) :
  rows <> [] -> gid t <> "" ->
  reconcile_rows t (reconcile_rows t rows) = reconcile_rows t rows.
Proof.
  intros Hne Hgid. destruct rows as [|h rows]; [done|].
  destruct (findIndex (is_task_row (gid t)) rows) as [j|] eqn:Hfind.
  - destruct (ReadOnlyFacts.findIndex_Some_lookup _ _ _ Hfind) as (old & Hold & _).
    assert (Hr : reconcile_rows t (h :: rows)
                 = h :: <[j := overlay (map to_value (rowValues t)) old]> rows).
    { unfold reconcile_rows. cbv zeta. cbn [drop]. rewrite drop_0, Hfind.
      rewrite (WebhookHandlerFacts.write_row_existing (j + 1 + 1) _ (h :: rows) old).
      - by replace (j + 1 + 1 - 1) with (S j) by lia.
      - replace (j + 1 + 1 - 1) with (S j) by lia. exact Hold. }
    rewrite Hr. unfold reconcile_rows. cbv zeta. cbn [drop]. rewrite drop_0.
    rewrite (findIndex_insert _ _ _ _ Hfind (is_task_row_written t old Hgid)).
    rewrite (WebhookHandlerFacts.write_row_existing (j + 1 + 1) _ _
               (overlay (map to_value (rowValues t)) old)).
    2:{ replace (j + 1 + 1 - 1) with (S j) by lia.
        change ((h :: ?l) !! S j) with (l !! j).
        apply list_lookup_insert_eq. by apply lookup_lt_Some in Hold. }
    replace (j + 1 + 1 - 1) with (S j) by lia.
    change (<[S j := ?x]> (h :: ?l)) with (h :: <[j := x]> l).
    rewrite list_insert_insert_eq. do 2 f_equal.
    rewrite rowValues_defined. apply overlay_twice.
  - destruct (completed t || is_special (assignee t)) eqn:Hadd.
    + assert (Hr : reconcile_rows t (h :: rows)
                   = (h :: rows) ++ [overlay (map to_value (rowValues t)) []]).
      { unfold reconcile_rows. cbv zeta. cbn [drop]. by rewrite drop_0, Hfind, Hadd. }
      rewrite Hr. unfold reconcile_rows. cbv zeta.
      change (drop 1 ((h :: rows) ++ ?x)) with (rows ++ x).
      rewrite (findIndex_app_None _ _ _ Hfind (is_task_row_written t [] Hgid)).
      rewrite (WebhookHandlerFacts.write_row_existing (length rows + 1 + 1) _ _
                 (overlay (map to_value (rowValues t)) [])).
      2:{ replace (length rows + 1 + 1 - 1) with (S (length rows)) by lia.
          change (((h :: rows) ++ ?x) !! S ?n) with ((rows ++ x) !! n).
          by rewrite lookup_app_r, Nat.sub_diag by lia. }
      replace (length rows + 1 + 1 - 1) with (length (h :: rows) + 0) by (cbn; lia).
      rewrite insert_app_r. cbn [insert list_insert]. do 2 f_equal.
      rewrite rowValues_defined. apply overlay_twice.
    + assert (Hr : reconcile_rows t (h :: rows) = h :: rows).
      { unfold reconcile_rows. cbv zeta. cbn [drop]. by rewrite drop_0, Hfind, Hadd. }
      rewrite Hr. exact Hr.
Qed.

(** *** The handler when nothing fails *)

Lemma changed_event_calm (event : task_event) (sid : option string) (w : world)
    (taskData : task) :
  action event = "changed" \/ action event = "added" ->
  tasks w !! resource_gid event = Some taskData ->
  truthy_opt sid = true ->
  auth w = None ->
  faults w = [] ->
  handleWebhookEvent event sid w
  = (Ok tt, mkWorld sid (reconcile_rows taskData (sheet1 w)) (secrets w) []
              (trace (handleWebhookEvent event sid w).2) (tasks w) None).
Proof.
  intros Haction Htask Hsid Hauth Hcalm.
  assert (Hcase : String.eqb (action event) "changed"
                  || String.eqb (action event) "added" = true).
  { destruct Haction as [-> | ->]; reflexivity. }
  destruct sid as [sid|]; [|done]. cbn [truthy_opt] in Hsid.
  destruct w as [c t s fs tr tk au]. cbn [faults auth sheet1 tasks secrets] in *.
  subst fs au.
  unfold handleWebhookEvent. rewrite Hcase.
  unfold findTaskRow, updateSpreadsheetRow, addSpreadsheetRow, getSpreadsheetId,
    getGoogleSheetsClient, setSpreadsheetId, getTask, values_get, values_update,
    values_append, api_call, on_sheet, bind, try_catch, ret, reconcile_rows.
  cbn. rewrite Htask. cbn. repeat (first [rewrite Hsid | rewrite drop_0]; cbn).
  destruct (findIndex (is_task_row (gid taskData)) (drop 1 t)) as [j|]; cbn.
  - repeat (rewrite Hsid; cbn). reflexivity.
  - destruct (completed taskData || is_special (assignee taskData)); cbn;
      repeat (rewrite Hsid; cbn); reflexivity.
Qed.

End RowFacts.

Module ChangedEventFacts.
Import WebhookHandler RowFacts.

(** The one write of a [changed] or [added] event when nothing fails. *)
Lemma changed_event_calm_writes (event : task_event) (sid : option string) (w : world)
    (taskData : task) :
  action event = "changed" \/ action event = "added" ->
  tasks w !! resource_gid event = Some taskData ->
  truthy_opt sid = true ->
  auth w = None ->
  faults w = [] ->
  writes (handleWebhookEvent event sid w).2
  = writes w ++
    match findIndex (is_task_row (gid taskData)) (drop 1 (sheet1 w)) with
    | Some j => [EvValuesUpdate (RowOf Sheet1 (j + 1 + 1)) (map to_value (rowValues taskData))]
    | None =>
        if completed taskData || is_special (assignee taskData)
        then [EvValuesAppend Sheet1 (map to_value (rowValues taskData))]
        else []
    end.
Proof.
  intros Haction Htask Hsid Hauth Hcalm.
  assert (Hcase : String.eqb (action event) "changed"
                  || String.eqb (action event) "added" = true).
  { destruct Haction as [-> | ->]; reflexivity. }
  destruct sid as [sid|]; [|done]. cbn [truthy_opt] in Hsid.
  destruct w as [c t s fs tr tk au]. cbn [faults auth sheet1 tasks secrets] in *.
  subst fs au.
  unfold handleWebhookEvent. rewrite Hcase.
  unfold findTaskRow, updateSpreadsheetRow, addSpreadsheetRow, getSpreadsheetId,
    getGoogleSheetsClient, setSpreadsheetId, getTask, values_get, values_update,
    values_append, api_call, on_sheet, bind, try_catch, ret, writes.
  cbn. rewrite Htask. cbn. repeat (first [rewrite Hsid | rewrite drop_0]; cbn).
  destruct (findIndex (is_task_row (gid taskData)) (drop 1 t)) as [j|]; cbn.
  - repeat (rewrite Hsid; cbn). rewrite !List.filter_app. cbn. by rewrite app_nil_r.
  - destruct (completed taskData || is_special (assignee taskData)); cbn;
      repeat (rewrite Hsid; cbn); rewrite !List.filter_app; cbn; by rewrite ?app_nil_r.
Qed.

(** When the read of [Sheet1] fails, [findTaskRow] answers [null] and the
    event goes the way of a task without a row. *)
Lemma changed_event_failed_lookup (event : task_event) (sid : option string) (w : world)
    (taskData : task) (e : error) :
  action event = "changed" \/ action event = "added" ->
  tasks w !! resource_gid event = Some taskData ->
  completed taskData || is_special (assignee taskData) = true ->
  truthy_opt sid = true ->
  auth w = None ->
  faults w = [Some e] ->
  (handleWebhookEvent event sid w).1 = Ok tt /\
  sheet1 (handleWebhookEvent event sid w).2
  = sheet1 w ++ [overlay (map to_value (rowValues taskData)) []].
Proof.
  intros Haction Htask Hadd Hsid Hauth Hfaults.
  assert (Hcase : String.eqb (action event) "changed"
                  || String.eqb (action event) "added" = true).
  { destruct Haction as [-> | ->]; reflexivity. }
  destruct sid as [sid|]; [|done]. cbn [truthy_opt] in Hsid.
  destruct w as [c t s fs tr tk au]. cbn [faults auth sheet1 tasks secrets] in *.
  subst fs au.
  unfold handleWebhookEvent. rewrite Hcase.
  unfold findTaskRow, updateSpreadsheetRow, addSpreadsheetRow, getSpreadsheetId,
    getGoogleSheetsClient, setSpreadsheetId, getTask, values_get, values_update,
    values_append, api_call, on_sheet, bind, try_catch, ret.
  cbn. rewrite Htask. cbn. repeat (first [rewrite Hsid | rewrite Hadd]; cbn).
  done.
Qed.

End ChangedEventFacts.

Module FieldFacts.
Import WebhookHandler.

(** The fold over the custom fields, read at one key. *)
Lemma customFieldValues_fold (names : list string) (fields : list custom_field)
    (acc : gmap string cellval) (k : string) :
  foldl (fun acc f =>
           if existsb (String.eqb (cf_name f)) names
           then <[cf_name f := field_value f]> acc
           else acc) acc fields !! k
  = match last (filter (fun f => cf_name f = k) fields) with
    | Some f => if existsb (String.eqb k) names then Some (field_value f) else acc !! k
    | None => acc !! k
    end.
Proof.
  induction fields as [|f fields IH] using rev_ind; [done|].
  rewrite foldl_app. cbn [foldl]. rewrite filter_app.
  destruct (decide (cf_name f = k)) as [<-|Hne].
  - rewrite (filter_cons_True _ f) by done. rewrite filter_nil, last_snoc.
    destruct (existsb (String.eqb (cf_name f)) names) eqn:Hallow.
    + by rewrite lookup_insert_eq.
    + rewrite IH. by destruct (last _).
  - rewrite (filter_cons_False _ f) by done. rewrite filter_nil, app_nil_r.
    destruct (existsb (String.eqb (cf_name f)) names).
    + rewrite lookup_insert_ne by done. apply IH.
    + apply IH.
Qed.

End FieldFacts.

Module FetchWithRetryFacts.
Import FetchWithRetry.

Example parseInt_samples :
  parseInt "120" = Some 120%Z /\ parseInt "  30s" = Some 30%Z /\
  parseInt "-5" = Some (-5)%Z /\ parseInt "+7" = Some 7%Z /\
  parseInt "soon" = None /\ parseInt "" = None /\ parseInt "0" = Some 0%Z.
Proof. repeat split; reflexivity. Qed.

Section Attempts.
Context {A : Type}.
Variables (maxRetries baseDelay : nat).
Variables (fetchFunction : nat -> attempt A) (jitter : nat -> nat).


(** The loop from an attempt on is such a run. *)
Lemma attempts_outcome remaining attempt :
  attempt + remaining = maxRetries ->
  exists k,
    run_of maxRetries baseDelay fetchFunction jitter k attempt
      (attempts maxRetries baseDelay fetchFunction jitter remaining attempt).
Proof.
  revert attempt. induction remaining as [|remaining IH]; intros attempt Hsum.
  - exists 0. split; [done|]. split; [intros; lia|]. cbn. lia.
  - cbn [attempts].
    destruct (fetchFunction attempt) as [a|error] eqn:Hfetch.
    + exists 0. split; [done|]. split; [intros; lia|].
      cbn. rewrite Nat.add_0_r. split; [lia | done].
    + assert (Hthrown : retriable error = false \/ attempt = maxRetries - 1 ->
                exists k, run_of maxRetries baseDelay fetchFunction jitter k attempt
                            ([], Threw error)).
      { intros Hwhy. exists 0. split; [done|]. split; [intros; lia|].
        cbn. rewrite Nat.add_0_r. split; [lia|]. split; [done | exact Hwhy]. }
      assert (Hretried : retriable error = true ->
                (attempt <? maxRetries - 1) = true ->
                exists k,
                  run_of maxRetries baseDelay fetchFunction jitter k attempt
                    (let (ds, r) :=
                       attempts maxRetries baseDelay fetchFunction jitter remaining
                         (S attempt) in
                     (delay_after baseDelay jitter error attempt :: ds, r))).
      { intros Hretriable Hlt. apply Nat.ltb_lt in Hlt.
        destruct (IH (S attempt) ltac:(lia)) as (k & Hlen & Hbefore & Hend).
        destruct (attempts maxRetries baseDelay fetchFunction jitter remaining (S attempt))
          as [ds r]. cbn [fst snd] in *.
        exists (S k). split; [cbn; lia|]. split.
        - intros [|i] Hi.
          + exists error. rewrite Nat.add_0_r. done.
          + destruct (Hbefore i ltac:(lia)) as (e & He & Hr & Hd).
            exists e. replace (attempt + S i) with (S attempt + i) by lia. done.
        - cbn [snd]. replace (attempt + S k) with (S attempt + k) by lia.
          destruct r as [a|e|]; [exact Hend | exact Hend | lia]. }
      unfold retriable, delay_after in *.
      destruct (is_rate_limit error) eqn:Hrl; cbn [andb orb] in *.
      * destruct (attempt <? maxRetries - 1) eqn:Hlt; [by apply Hretried|].
        apply Nat.ltb_ge in Hlt.
        destruct (is_server_error error); cbn [andb]; apply Hthrown; right; lia.
      * destruct (is_server_error error) eqn:Hse; cbn [andb].
        -- destruct (attempt <? maxRetries - 1) eqn:Hlt; [by apply Hretried|].
           apply Nat.ltb_ge in Hlt. apply Hthrown. right. lia.
        -- apply Hthrown. by left.
Qed.

End Attempts.
End FetchWithRetryFacts.

Module ConservationFacts.
Import RateLimiter RateLimiterFacts.

Lemma processQueue_accounted s : accounted s -> accounted (processQueue s).
Proof.
  unfold accounted, processQueue, held.
  destruct (processing s); [done|].
  destruct (queue s) as [|op rest] eqn:Hq; [by rewrite Hq|].
  cbn. intros ->. rewrite <- !app_assoc. cbn.
  apply Permutation_app_head, Permutation_app_head.
  by rewrite Permutation_middle.
Qed.

Lemma take_timer_held t all ts due rest :
  take_timer t all ts = Some (due, rest) ->
  omap (fun dt : nat * timer =>
          match snd dt with Requeue op => Some op | Release => None end) ts
  ≡ₚ match t with Requeue op => [op] | Release => [] end
     ++ omap (fun dt : nat * timer =>
                match snd dt with Requeue op => Some op | Release => None end) rest.
Proof.
  revert rest. induction ts as [|[d t'] ts IH]; intros rest; [done|].
  cbn [take_timer].
  destruct (timer_eqb t t' && forallb _ all) eqn:Hhit.
  - intros [= <- <-]. apply andb_true_iff in Hhit as [Heq _].
    assert (t = t') as ->.
    { destruct t, t'; cbn in Heq; try done. by apply Nat.eqb_eq in Heq as ->. }
    by destruct t'.
  - destruct (take_timer t all ts) as [[d' rest']|]; [|done].
    intros [= <- <-]. specialize (IH rest' eq_refl).
    destruct t' as [op'|]; cbn; [|exact IH].
    rewrite IH. destruct t as [op|]; cbn; [apply perm_swap | done].
Qed.

Lemma step_accounted s h s' :
  balanced s -> accounted s -> step s h = Some s' -> accounted s'.
Proof.
  intros Hb Hacc. destruct h as [at_ms op | at_ms op e | t]; cbn [step].
  - destruct (on_time at_ms s); [|done]. intros [= <-].
    apply processQueue_accounted. unfold accounted, held in *. cbn.
    rewrite Hacc, <- !app_assoc.
    apply Permutation_app_head, Permutation_app_head, Permutation_app_head.
    apply Permutation_app_comm.
  - destruct (on_time at_ms s); [|done]. cbn [andb].
    destruct (existsb (Nat.eqb op) (running s)) eqn:Hin; [|done].
    destruct (running_alone s op Hb Hin) as (Hrun & _ & _).
    unfold accounted, held in *. rewrite Hrun in Hacc.
    destruct e as [|jitter|]; [|destruct (jitter <? 5000); [|done]|];
      intros [= <-]; cbn; rewrite Hrun, remove_op_alone, Hacc; cbn.
    + rewrite omap_app. cbn. rewrite app_nil_r, <- !app_assoc. cbn.
      apply Permutation_app_head. done.
    + rewrite omap_app. cbn. apply Permutation_app_head.
      rewrite Permutation_middle. apply Permutation_app_head.
      by rewrite Permutation_app_comm.
    + rewrite omap_app. cbn. rewrite app_nil_r, <- !app_assoc. cbn.
      apply Permutation_app_head. done.
  - destruct (take_timer t (timers s) (timers s)) as [[due rest]|] eqn:Htake; [|done].
    pose proof (take_timer_held _ _ _ _ _ Htake) as Hheld.
    destruct t as [op|]; intros [= <-].
    + unfold accounted, held in *. cbn. rewrite Hacc, Hheld. cbn.
      apply Permutation_app_head, Permutation_app_head.
      by rewrite Permutation_middle.
    + apply processQueue_accounted. unfold accounted, held in *. cbn.
      by rewrite Hacc, Hheld.
Qed.

Lemma run_accounted hs s s' :
  balanced s -> accounted s -> run hs s = Some s' -> accounted s'.
Proof.
  revert s. induction hs as [|h hs IH]; intros s Hb Hacc; cbn [run].
  - by intros [= <-].
  - destruct (step s h) as [s1|] eqn:Hstep; [|done].
    apply IH; [by apply step_balanced with s h | by apply step_accounted with s h].
Qed.

End ConservationFacts.

Module ScriptFacts.
Import WebhookHandler StoreSecretScript.

(** Whatever a computation does is fine when nothing is asked of it. *)
Lemma hoare_any {A} (m : M A) : hoare (fun _ => True) m (fun _ _ => True) (fun _ _ => True).
Proof. intros w _. by destruct (m w) as [[a|e] w']. Qed.

Lemma write_row_lookup n v (rs : list row) :
  0 < n -> exists old, write_row n v rs !! (n - 1) = Some (overlay v old).
Proof.
  intros Hn. unfold write_row.
  destruct ((rs ++ replicate (n - length rs) []) !! (n - 1)) as [old|] eqn:Hold.
  - exists old. apply list_lookup_insert_eq. by apply lookup_lt_Some in Hold.
  - apply lookup_ge_None in Hold. rewrite length_app, length_replicate in Hold. lia.
Qed.

(** A write of [[id, secret]] that succeeds leaves a row with both. *)
Lemma values_update_stores n (id secret : string) :
  0 < n ->
  hoare (fun _ => True) (values_update webhook_secrets n [Some id; Some secret])
    (fun _ w' => exists r : row, r ∈ secret_rows w' /\ r !! 0 = Some id /\ r !! 1 = Some secret)
    (fun _ _ => True).
Proof.
  intros Hn [c t s fs tr tk au] _. unfold values_update, api_call, on_sheet. cbn.
  destruct (write_row_lookup n [Some id; Some secret] (default [] s) Hn) as (old & Hold).
  destruct fs as [|[e|] fs]; cbn; [|done|]; destruct s as [rs|]; cbn; try done;
    exists (overlay [Some id; Some secret] old);
    (split; [|split; reflexivity]); unfold secret_rows; cbn;
    apply list_elem_of_lookup; by exists (n - 1).
Qed.

Lemma values_append_stores (id secret : string) :
  hoare (fun _ => True) (values_append webhook_secrets [Some id; Some secret])
    (fun _ w' => exists r : row, r ∈ secret_rows w' /\ r !! 0 = Some id /\ r !! 1 = Some secret)
    (fun _ _ => True).
Proof.
  intros [c t s fs tr tk au] _. unfold values_append, api_call, on_sheet. cbn.
  destruct fs as [|[e|] fs]; cbn; [|done|]; destruct s as [rs|]; cbn; try done;
    exists [id; secret]; (split; [|split; reflexivity]); unfold secret_rows; cbn;
    apply elem_of_app; right; by apply list_elem_of_singleton.
Qed.

(** When [storeSecret] returns, the secret is in the store under the id. *)
Lemma storeSecret_stores (id secret : string) :
  hoare (fun _ => True) (storeSecret id secret)
    (fun _ w' => exists r : row, r ∈ secret_rows w' /\ r !! 0 = Some id /\ r !! 1 = Some secret)
    (fun _ _ => True).
Proof.
  unfold storeSecret.
  apply hoare_bind with (Q := fun _ _ => True); [apply hoare_any|]. intros _.
  apply hoare_bind with (Q := fun _ _ => True); [apply hoare_any|]. intros rows.
  destruct (findIndex (has_id (Some id)) rows) as [i|].
  - apply hoare_bind with
      (Q := fun _ w' => exists r : row,
                r ∈ secret_rows w' /\ r !! 0 = Some id /\ r !! 1 = Some secret).
    + apply values_update_stores. lia.
    + intros _ w H. exact H.
  - apply hoare_bind with
      (Q := fun _ w' => exists r : row,
                r ∈ secret_rows w' /\ r !! 0 = Some id /\ r !! 1 = Some secret).
    + apply values_append_stores.
    + intros _ w H. exact H.
Qed.

(** The same for [persistHookSecret] of [api/webhook.js]. *)
Lemma persistHookSecret_stores (id secret : string) :
  hoare (fun _ => True) (WebhookEsm.persistHookSecret id secret)
    (fun _ w' => exists r : row, r ∈ secret_rows w' /\ r !! 0 = Some id /\ r !! 1 = Some secret)
    (fun _ _ => True).
Proof.
  unfold WebhookEsm.persistHookSecret.
  apply hoare_bind with (Q := fun _ _ => True); [apply hoare_any|]. intros _.
  apply hoare_bind with (Q := fun _ _ => True); [apply hoare_any|]. intros titles.
  apply hoare_bind with (Q := fun _ _ => True); [apply hoare_any|]. intros _.
  apply hoare_bind with (Q := fun _ _ => True); [apply hoare_any|]. intros rows.
  destruct (findIndex (has_id (Some id)) rows) as [i|].
  - apply values_update_stores. lia.
  - apply values_append_stores.
Qed.

End ScriptFacts.

Module RetryOperationFacts.
Import RetryOperation.

Example parseInt_radix :
  parseInt "120" = Some 120%Z /\ parseInt "0x1F" = Some 31%Z /\
  parseInt "-0X10" = Some (-16)%Z /\ parseInt "later" = None /\
  FetchWithRetry.parseInt "0x1F" = Some 0%Z.
Proof. repeat split; reflexivity. Qed.

Section Loop.
Context {A : Type}.
Variables (maxRetries baseDelay : nat) (operation : nat -> attempt A).

(** The loop from an attempt on: failures, whatever they are, up to a
    success or to the last attempt. *)
Lemma loop_outcome remaining attempt lastError :
  attempt + remaining = maxRetries ->
  exists k,
    (forall i, i < k -> exists err, operation (attempt + i) = Failure err) /\
    match (loop maxRetries baseDelay operation remaining attempt lastError).2 with
    | Returned a => attempt + k < maxRetries /\ operation (attempt + k) = Success a
    | Threw e =>
        attempt + k = maxRetries /\
        e = match k with
            | 0 => lastError
            | S k' =>
                match operation (attempt + k') with
                | Failure err => Some err
                | Success _ => None
                end
            end
    end.
Proof.
  revert attempt lastError.
  induction remaining as [|remaining IH]; intros attempt lastError Hsum.
  - exists 0. cbn. split; [intros; lia|]. split; [lia | done].
  - cbn [loop]. destruct (operation attempt) as [a|err] eqn:Hop.
    + exists 0. cbn. rewrite Nat.add_0_r. split; [intros; lia|]. split; [lia | done].
    + assert (Hnext : exists k,
                (forall i, i < k -> exists err0, operation (attempt + i) = Failure err0) /\
                match (loop maxRetries baseDelay operation remaining (S attempt) (Some err)).2 with
                | Returned a => attempt + k < maxRetries /\ operation (attempt + k) = Success a
                | Threw e =>
                    attempt + k = maxRetries /\
                    e = match k with
                        | 0 => lastError
                        | S k' =>
                            match operation (attempt + k') with
                            | Failure err0 => Some err0
                            | Success _ => None
                            end
                        end
                end).
      { destruct (IH (S attempt) (Some err) ltac:(lia)) as (k & Hbefore & Hend).
        exists (S k). split.
        - intros [|i] Hi.
          + exists err. by rewrite Nat.add_0_r.
          + destruct (Hbefore i ltac:(lia)) as (e & He).
            exists e. by replace (attempt + S i) with (S attempt + i) by lia.
        - replace (attempt + S k) with (S attempt + k) by lia.
          destruct (loop maxRetries baseDelay operation remaining (S attempt) (Some err)).2
            as [a|e]; [exact Hend|].
          destruct Hend as [Hk ->]. split; [exact Hk|].
          destruct k as [|k'].
          + by rewrite Nat.add_0_r, Hop.
          + by replace (S attempt + k') with (attempt + S k') by lia. }
      destruct (is_429 err).
      * destruct (loop maxRetries baseDelay operation remaining (S attempt) (Some err))
          as [ds r]. exact Hnext.
      * destruct (attempt =? maxRetries - 1) eqn:Hlast.
        -- apply Nat.eqb_eq in Hlast. exists 1. cbn [snd]. split.
           ++ intros i Hi. replace i with 0 by lia. exists err. by rewrite Nat.add_0_r.
           ++ split; [lia|]. by rewrite Nat.add_0_r, Hop.
        -- destruct (loop maxRetries baseDelay operation remaining (S attempt) (Some err))
             as [ds r]. exact Hnext.
Qed.

End Loop.
End RetryOperationFacts.

Module DigestFacts.
Import Sha256.

Lemma be_bytes_length n x : length (be_bytes n x) = n.
Proof. induction n as [|n IH]; cbn [be_bytes length]; [done | by rewrite IH]. Qed.

Lemma blocks_length fuel (h ws : list word) :
  length h = 8%nat -> length (blocks fuel h ws) = 8%nat.
Proof.
  revert h ws. induction fuel as [|fuel IH]; intros h ws Hh; cbn [blocks]; [done|].
  destruct ws as [|w ws]; [done|]. by apply IH.
Qed.

Lemma flat_map_length_const {A B} (f : A -> list B) (n : nat) (l : list A) :
  (forall x, length (f x) = n) -> length (flat_map f l) = (n * length l)%nat.
Proof.
  intros Hf. induction l as [|x l IH]; cbn [flat_map length]; [lia|].
  rewrite length_app, Hf, IH. lia.
Qed.

(** A SHA-256 digest has 32 bytes. *)
Lemma sha256_length msg : length (sha256 msg) = 32%nat.
Proof.
  unfold sha256. cbv zeta.
  rewrite (flat_map_length_const _ 4) by apply be_bytes_length.
  by rewrite blocks_length.
Qed.

Lemma string_of_list_ascii_length l :
  String.length (string_of_list_ascii l) = length l.
Proof. induction l as [|c l IH]; cbn; [done | by rewrite IH]. Qed.

(** The hex digest of an HMAC-SHA256 has 64 characters. *)
Lemma hmac_sha256_hex_length secret data :
  String.length (hmac_sha256_hex secret data) = 64%nat.
Proof.
  unfold hmac_sha256_hex, hex, hmac. cbv zeta.
  rewrite string_of_list_ascii_length.
  rewrite (flat_map_length_const _ 2) by done.
  by rewrite sha256_length.
Qed.

End DigestFacts.

Module RowsForFacts.
Import WebhookHandler WebhookHandlerFacts.

(** Below a first row that is no row for [id], the rows for [id] are its
    records. *)
Lemma rows_for_headed id (h : row) (rows : list row) :
  h !! 0 <> Some id -> rows_for id (h :: rows) = records_of id (h :: rows).
Proof. intros Hh. unfold rows_for, records_of. by rewrite filter_cons_False. Qed.

(** An upsert keeps the first row of a sheet that has one. *)
Lemma upsert_rows_headed webhookId secret (h : row) (rows : list row) :
  exists rows', upsert_rows webhookId secret (h :: rows) = h :: rows' /\
                length rows <= length rows'.
Proof.
  unfold upsert_rows. cbn [drop]. rewrite drop_0.
  destruct (findIndex (has_id webhookId) rows) as [i|] eqn:Hfind.
  - pose proof (findIndex_Some_lt _ _ _ Hfind) as Hi.
    destruct (lookup_lt_is_Some_2 rows i Hi) as [old Hold].
    rewrite (write_row_existing (i + 2) _ (h :: rows) old).
    2:{ replace (i + 2 - 1) with (S i) by lia. exact Hold. }
    replace (i + 2 - 1) with (S i) by lia.
    change (<[S i := ?x]> (h :: rows)) with (h :: <[i := x]> rows).
    eexists. split; [reflexivity|]. by rewrite length_insert.
  - exists (rows ++ [overlay [webhookId; Some secret] []]). split; [reflexivity|].
    rewrite length_app. lia.
Qed.

(** [storeWebhookSecret] with a sheet id, when no call of the API fails. *)
Lemma storeWebhookSecret_calm webhookId secret sid w :
  truthy_opt sid = true ->
  faults w = [] ->
  exists w',
    storeWebhookSecret webhookId secret sid w = (Ok tt, w') /\
    faults w' = [] /\ sheet1 w' = sheet1 w /\
    secrets w' = Some (upsert_rows webhookId secret
                         (match secrets w with Some rows => rows | None => [header] end)).
Proof.
  destruct sid as [sid|]; [|done]. cbn [truthy_opt]. intros Hsid.
  destruct w as [c t s fs tr tk au]. cbn [faults]. intros ->.
  unfold storeWebhookSecret, retry_once_on_429, ensureWebhookSecretsSheet, remember,
    getSpreadsheetId, setSpreadsheetId, spreadsheets_get, batchUpdate_addSheet,
    values_get, values_update, values_append, api_call, on_sheet, bind, try_catch, ret,
    upsert_rows.
  destruct s as [rows|].
  - cbn. repeat (rewrite Hsid; cbn). rewrite drop_0.
    destruct (findIndex (has_id webhookId) (drop 1 rows)) as [i|]; cbn;
      repeat (rewrite Hsid; cbn); eexists; repeat split; reflexivity.
  - cbn. repeat (rewrite Hsid; cbn). eexists. repeat split; reflexivity.
Qed.

(** Two upserts on a sheet that holds its header only. *)
Lemma upsert_rows_fresh id a b :
  upsert_rows (Some id) b (upsert_rows (Some id) a [header]) = [header; [id; b]].
Proof.
  unfold upsert_rows. cbn [drop findIndex app overlay hd tl].
  assert (H : has_id (Some id) [id; a] = true) by by apply has_id_true.
  rewrite H. reflexivity.
Qed.

End RowsForFacts.

Module ListedFacts.
Import WebhookHandler WebhookHandlerFacts.

(** Below a first row, the row of an upsert is among the rows that the
    listing reads, with its id. *)
Lemma upsert_rows_record_below webhookId secret (h : row) (rows : list row) :
  exists r : row,
    r ∈ drop 1 (upsert_rows webhookId secret (h :: rows)) /\
    r !! 1 = Some secret /\
    (forall id, webhookId = Some id -> r !! 0 = Some id).
Proof.
  unfold upsert_rows. cbn [drop]. rewrite drop_0.
  destruct (findIndex (has_id webhookId) rows) as [i|] eqn:Hfind.
  - pose proof (findIndex_Some_lt _ _ _ Hfind) as Hi.
    destruct (lookup_lt_is_Some_2 rows i Hi) as [old Hold].
    rewrite (write_row_existing (i + 2) _ (h :: rows) old).
    2:{ replace (i + 2 - 1) with (S i) by lia. exact Hold. }
    replace (i + 2 - 1) with (S i) by lia.
    change (<[S i := ?x]> (h :: rows)) with (h :: <[i := x]> rows).
    cbn [drop]. rewrite drop_0.
    exists (overlay [webhookId; Some secret] old).
    split; [|split; [reflexivity | by intros id ->]].
    apply list_elem_of_lookup. exists i. by apply list_lookup_insert_eq.
  - change (drop 1 ((h :: rows) ++ ?x)) with (rows ++ x).
    exists (overlay [webhookId; Some secret] []).
    split; [|split; [reflexivity | by intros id ->]].
    apply elem_of_app. right. by apply list_elem_of_singleton.
Qed.

(** The listing with a sheet id, when no call of the API fails: the secrets
    below the first row of the sheet, none when the sheet had to be
    created. *)
Lemma getWebhookSecrets_calm_any sid w :
  truthy_opt sid = true ->
  faults w = [] ->
  (getWebhookSecrets sid w).1 = Ok (collect_secrets (drop 1 (secret_rows w))).
Proof.
  destruct sid as [sid|]; [|done]. cbn [truthy_opt]. intros Hsid.
  destruct w as [c t s fs tr tk au]. cbn [faults]. intros ->.
  unfold getWebhookSecrets, getWebhookSecrets_try, retry_once_on_429,
    ensureWebhookSecretsSheet, remember, getSpreadsheetId, setSpreadsheetId,
    spreadsheets_get, batchUpdate_addSheet, values_get, values_update, api_call,
    on_sheet, bind, try_catch, ret, secret_rows.
  destruct s as [rows|]; cbn; repeat (rewrite Hsid; cbn); reflexivity.
Qed.


End ListedFacts.

Module ListingEndFacts.
Import WebhookHandler.





End ListingEndFacts.

Module ExportFacts.
Import WebhookHandler.

(** The names that are on the list in every workspace. *)
Lemma standard_names workspaceId (k : string) :
  k ∈ ["Worker"; "Status"; "Paid with..."; "Deposit"; "Bonus"; "Max bet"; "WG";
       "Max win"; "Balance"; "Groups"; "Received"; "RM/BM"] ->
  existsb (String.eqb k) (fieldNames workspaceId) = true.
Proof.
  intros Hk. unfold fieldNames. rewrite existsb_app. apply orb_true_iff. left.
  repeat (apply elem_of_cons in Hk as [-> | Hk]; [reflexivity|]).
  by apply elem_of_nil in Hk.
Qed.

(** Under such a name the webhook and the export keep the same value,
    whatever workspace each is told. *)
Lemma standard_field t workspaceId workspaceId' (k : string) :
  k ∈ ["Worker"; "Status"; "Paid with..."; "Deposit"; "Bonus"; "Max bet"; "WG";
       "Max win"; "Balance"; "Groups"; "Received"; "RM/BM"] ->
  custom (processTaskData t workspaceId) k
  = ProjectController.field (ProjectController.processTaskData t workspaceId') k.
Proof.
  intros Hk. unfold custom, ProjectController.field, processTaskData,
    ProjectController.processTaskData.
  cbn [customFieldValues ProjectController.e_customFieldValues].
  destruct (custom_fields t) as [fields|]; [|reflexivity].
  by rewrite !FieldFacts.customFieldValues_fold, !standard_names.
Qed.

End ExportFacts.

(** * Part III: the properties of the specification *)

Import WebhookHandler.

(** C1, as amended. A request with a truthy [X-Hook-Secret] header [s] and a
    URL that parses is answered
    - by [api/webhook.js] with status 200 and the header set to [s], whether
      or not the secret could be persisted;
    - by the CommonJS handler, once it has a sheet id and a Sheets client:
      when the body is [null], with status 500, no such header and no call
      of the store; otherwise with status 200 and the header set to [s] when
      [storeWebhookSecret], called with the id of the body, returns, and with
      status 500 and no such header when it throws. *)
Theorem handshake_echo (req : request) (q : list (string * string)) (s : string)
    (w : world) :
  query req = Some q ->
  if_truthy (headers req !! "x-hook-secret") = Some s ->
  (forall e, exists r w',
      WebhookEsm.handler e req w = (Ok r, w') /\
      statusCode r = 200 /\ res_headers r !! "X-Hook-Secret" = Some s) /\
  (truthy_opt (searchParams_get q "sheetId") = true ->
   auth w = None ->
   exists r w',
      WebhookCjs.handler req w = (Ok r, w') /\
      (WebhookCjs.parseRequestBody req = Json.JNull ->
       r = mkResponse 500 ∅ "Internal server error" /\ w' = w) /\
      (WebhookCjs.parseRequestBody req <> Json.JNull ->
       match (WebhookCjs.storeWebhookSecret_any
                (Json.get_opt "id" (Json.get "data" (WebhookCjs.parseRequestBody req)))
                s (searchParams_get q "sheetId") w).1 with
       | Ok _ => statusCode r = 200 /\ res_headers r !! "X-Hook-Secret" = Some s
       | Throw _ => statusCode r = 500 /\ res_headers r !! "X-Hook-Secret" = None
       end)).
Proof.
  intros Hq Hsecret. split.
  - intros e. by apply WebhookEsmFacts.handler_echoes with q.
  - intros Hsid Hauth.
    rewrite (WebhookCjsFacts.handler_handshake req q s w Hq Hsid Hauth Hsecret).
    assert (Hcase : WebhookCjs.parseRequestBody req = Json.JNull \/
                    WebhookCjs.parseRequestBody req <> Json.JNull)
      by (destruct (WebhookCjs.parseRequestBody req); [by left | by right..]).
    destruct Hcase as [Hbody | Hbody].
    + rewrite Hbody, WebhookCjsFacts.handshake_null.
      do 2 eexists. split; [reflexivity|]. split; [done|]. by intros [].
    + rewrite (WebhookCjsFacts.handshake_stores _ s _ w Hbody).
      destruct (WebhookCjs.storeWebhookSecret_any _ s _ w) as [[[]|err] w1]; cbn [fst];
        do 2 eexists; (split; [reflexivity|]);
        (split; [by intros Hnull | intros _; split; reflexivity]).
Qed.

Lemma handshake_echo_witness :
  let req := handshake_request "abc123" ∅ [] (Json.JObj []) in
  let w := mkWorld None [] None [Some (ApiError 500)] [] ∅ None in
  (exists r w',
      WebhookEsm.handler (bare_env 1700000000000) req w = (Ok r, w') /\
      statusCode r = 200 /\ res_headers r !! "X-Hook-Secret" = Some "abc123") /\
  (exists r w',
      WebhookCjs.handler req w = (Ok r, w') /\
      statusCode r = 500 /\ res_headers r !! "X-Hook-Secret" = None).
Proof.
  cbv zeta.
  assert (Hs : if_truthy (headers (handshake_request "abc123" ∅ [] (Json.JObj []))
                            !! "x-hook-secret") = Some "abc123")
    by (vm_compute; reflexivity).
  destruct (handshake_echo (handshake_request "abc123" ∅ [] (Json.JObj []))
              [("sheetId", "SHEET1")] "abc123"
              (mkWorld None [] None [Some (ApiError 500)] [] ∅ None)
              eq_refl Hs) as [H1 H2].
  split.
  - exact (H1 (bare_env 1700000000000)).
  - destruct H2 as (r & w' & Hh & _ & Hm); [reflexivity..|].
    exists r, w'. split; [exact Hh | apply Hm; discriminate].
Defined.

(** C1 as stated fails for the CommonJS handler: when the store cannot be
    reached, the handshake is answered 500 and the secret is not echoed; and
    when the body of the handshake is [null], the handler fails on reading
    the id, answers 500 and never calls the store. *)
Lemma handshake_not_echoed_when_store_fails :
  let req := handshake_request "abc123" ∅ [] (Json.JObj []) in
  let w := mkWorld None [] None [Some (ApiError 500)] [] ∅ None in
  let req0 := handshake_request "abc123" ∅ [] Json.JNull in
  headers req !! "x-hook-secret" = Some "abc123" /\
  (WebhookCjs.handler req w).1 = Ok (mkResponse 500 ∅ "Failed to store webhook secret") /\
  headers req0 !! "x-hook-secret" = Some "abc123" /\
  WebhookCjs.parseRequestBody req0 = Json.JNull /\
  WebhookCjs.handler req0 blank = (Ok (mkResponse 500 ∅ "Internal server error"), blank).
Proof. cbv zeta. repeat split; vm_compute; reflexivity. Qed.

(** C2, as amended. For a delivery that reaches the verification (a sheet
    id, a Sheets client, no handshake header, a signature), the handler lists
    the stored secrets and answers 200 exactly when the hex HMAC-SHA256 of
    [JSON.stringify] of the parsed body under some listed secret equals the
    signature header, and 401 otherwise, in particular when no secret is
    listed. The digest is taken over the parsed body written out again, not
    over the bytes received. *)
Theorem delivery_accepted_iff_some_secret_signs (req : request)
    (q : list (string * string)) (signature : string) (w : world) :
  query req = Some q ->
  truthy_opt (searchParams_get q "sheetId") = true ->
  auth w = None ->
  if_truthy (headers req !! "x-hook-secret") = None ->
  if_truthy (headers req !! "x-hook-signature") = Some signature ->
  exists S w1 r w',
    getWebhookSecrets (searchParams_get q "sheetId") w = (Ok S, w1) /\
    WebhookCjs.handler req w = (Ok r, w') /\
    (forall x, x ∈ S ->
       x <> "" /\ exists c : row, c ∈ drop 1 (secret_rows w1) /\ c !! 1 = Some x) /\
    (statusCode r = 200 <->
       exists secret, secret ∈ S /\
         Sha256.hmac_sha256_hex secret
           (Json.stringify (WebhookCjs.parseRequestBody req)) = signature) /\
    (statusCode r = 200 \/ statusCode r = 401) /\
    (S = ∅ -> statusCode r = 401).
Proof.
  intros Hq Hsid Hauth Hsecret Hsig.
  rewrite (WebhookCjsFacts.handler_delivery req q signature w Hq Hsid Hauth Hsecret Hsig).
  destruct (WebhookCjsFacts.delivery_answer (WebhookCjs.parseRequestBody req) signature
              (searchParams_get q "sheetId") w) as (S & w1 & w' & HS & ->).
  exists S, w1. do 2 eexists. split; [exact HS|]. split; [reflexivity|].
  split; [|split; [|split]].
  - destruct (ListingFacts.listed_secrets_are_stored (searchParams_get q "sheetId") w S w1 HS)
      as [-> | H]; [intros x Hx; by apply not_elem_of_empty in Hx | exact H].
  - rewrite <- WebhookCjsFacts.isValid_spec.
    destruct (WebhookCjs.isValid S _ signature); cbn; split; congruence.
  - destruct (WebhookCjs.isValid S _ signature); cbn; tauto.
  - intros ->. reflexivity.
Qed.

Lemma delivery_accepted_iff_some_secret_signs_witness :
  exists S w1 r w',
    getWebhookSecrets (Some "SHEET1") (with_records [["wh1"; "s1"]; ["wh2"; "s2"]] [])
      = (Ok S, w1) /\
    WebhookCjs.handler
      (signed_delivery (Json.JObj [("events", Json.JArr [])])
         "a2be04267b3084fb5b916f8e1246f52c58ea104f208c36be8dadfbe17339d9d6")
      (with_records [["wh1"; "s1"]; ["wh2"; "s2"]] []) = (Ok r, w') /\
    (forall x, x ∈ S ->
       x <> "" /\ exists c : row, c ∈ drop 1 (secret_rows w1) /\ c !! 1 = Some x) /\
    (statusCode r = 200 <->
       exists secret, secret ∈ S /\
         Sha256.hmac_sha256_hex secret
           (Json.stringify (WebhookCjs.parseRequestBody
              (signed_delivery (Json.JObj [("events", Json.JArr [])])
                 "a2be04267b3084fb5b916f8e1246f52c58ea104f208c36be8dadfbe17339d9d6")))
         = "a2be04267b3084fb5b916f8e1246f52c58ea104f208c36be8dadfbe17339d9d6") /\
    (statusCode r = 200 \/ statusCode r = 401) /\
    (S = ∅ -> statusCode r = 401).
Proof.
  apply (delivery_accepted_iff_some_secret_signs
           (signed_delivery (Json.JObj [("events", Json.JArr [])])
              "a2be04267b3084fb5b916f8e1246f52c58ea104f208c36be8dadfbe17339d9d6")
           [("sheetId", "SHEET1")]
           "a2be04267b3084fb5b916f8e1246f52c58ea104f208c36be8dadfbe17339d9d6"
           (with_records [["wh1"; "s1"]; ["wh2"; "s2"]] []));
    reflexivity.
Defined.

(** C2 as stated fails: the secret [s1] is stored and the signature is its
    HMAC over the exact bytes of the body, [{"events": []}]; the handler
    digests [{"events":[]}] instead and answers 401. *)
Lemma delivery_signed_over_raw_bytes_rejected :
  let w := with_records [["wh1"; "s1"]] [] in
  let signature := "d1663306bb4b9380973e60071a8ea8872dcfad033dd291a1abb20b13eb75f92d" in
  headers spaced_delivery !! "x-hook-signature" = Some signature /\
  "s1" ∈ default ∅ (match (getWebhookSecrets (Some "SHEET1") w).1 with
                     | Ok listed => Some listed
                     | Throw _ => None
                     end) /\
  Sha256.hmac_sha256_hex "s1" (raw spaced_delivery) = signature /\
  (WebhookCjs.handler spaced_delivery w).1 = Ok WebhookCjs.rejected.
Proof.
  cbv zeta. split; [vm_compute; reflexivity|]. split.
  - apply (bool_decide_unpack _). vm_compute. exact I.
  - split; vm_compute; reflexivity.
Qed.

(** C3, as amended. On a sheet [webhook_secrets] whose first row is in place
    and is no row for [id] (the header), and which holds at most one row for
    [id], [upsert(id, a)] followed by [upsert(id, b)] leaves exactly one row
    for [id] in the whole sheet, holding [b]:
    - with [storeWebhookSecret], whenever both calls return, whatever the
      failures of the backing store in between, and they do return when no
      call fails and a sheet id is given;
    - with [storeSecret] of [scripts/storeSecret.cjs], when no call of the
      backing store fails.
    A single [storeWebhookSecret] overwrites in place (the number of rows is
    kept) when [id] has a row and appends a last row when it has none. On a
    spreadsheet without the sheet, when no call fails, the sheet is created
    with its header and the two upserts leave the one row [[id, b]] below
    it. *)
Theorem upsert_twice_leaves_one_record (w : world) (id a b : string) :
  (forall (h : row) (rows : list row),
     secrets w = Some (h :: rows) ->
     h !! 0 <> Some id ->
     length (rows_for id rows) <= 1 ->
     (forall sid w1 w2,
         storeWebhookSecret (Some id) a sid w = (Ok tt, w1) ->
         storeWebhookSecret (Some id) b sid w1 = (Ok tt, w2) ->
         sole_record id b w2) /\
     (faults w = [] ->
      forall sid, truthy_opt sid = true ->
        exists w1 w2,
          storeWebhookSecret (Some id) a sid w = (Ok tt, w1) /\
          storeWebhookSecret (Some id) b sid w1 = (Ok tt, w2) /\
          sole_record id b w2) /\
     (faults w = [] ->
      exists r1 r2 w1 w2,
        StoreSecretScript.storeSecret id a w = (Ok r1, w1) /\
        StoreSecretScript.storeSecret id b w1 = (Ok r2, w2) /\
        sole_record id b w2) /\
     (forall sid w1,
         storeWebhookSecret (Some id) a sid w = (Ok tt, w1) ->
         exists rows', secrets w1 = Some (h :: rows') /\
           (rows_for id rows <> [] -> length rows' = length rows) /\
           (rows_for id rows = [] -> rows' = rows ++ [[id; a]]))) /\
  (secrets w = None ->
   faults w = [] ->
   forall sid, truthy_opt sid = true ->
     exists w1 w2,
       storeWebhookSecret (Some id) a sid w = (Ok tt, w1) /\
       storeWebhookSecret (Some id) b sid w1 = (Ok tt, w2) /\
       secrets w2 = Some [header; [id; b]]).
Proof.
  split.
  - intros h rows Hs Hh Hlen.
    assert (Hrec : records_of id (h :: rows) = rows_for id rows) by reflexivity.
    assert (Hsole : forall w2,
              secrets w2 = Some (upsert_rows (Some id) b (upsert_rows (Some id) a (h :: rows))) ->
              sole_record id b w2).
    { intros w2 Hs2. unfold sole_record, secret_rows. rewrite Hs2. cbn [default].
      change (Datatypes.id ?x) with x.
      destruct (RowsForFacts.upsert_rows_headed (Some id) a h rows) as (rows1 & E1 & _).
      rewrite E1.
      destruct (RowsForFacts.upsert_rows_headed (Some id) b h rows1) as (rows2 & E2 & _).
      rewrite E2, (RowsForFacts.rows_for_headed id h rows2 Hh), <- E2, <- E1.
      apply StoreFacts.upsert_rows_twice. by rewrite Hrec. }
    split; [|split; [|split]].
    + intros sid w1 w2 H1 H2.
      pose proof (hoare_run _ _ _ _ w _ _
        (WebhookHandlerFacts.storeWebhookSecret_spec (sheet1 w) (secrets w) (Some id) a sid)
        (conj eq_refl eq_refl) H1) as (rows0 & [_ Hs1] & Hrows).
      rewrite Hs in Hrows. destruct Hrows as [[= <-] | [? _]]; [|done].
      pose proof (hoare_run _ _ _ _ w1 _ _
        (WebhookHandlerFacts.storeWebhookSecret_spec (sheet1 w1) (secrets w1) (Some id) b sid)
        (conj eq_refl eq_refl) H2) as (rows1 & [_ Hs2] & Hrows1).
      rewrite Hs1 in Hrows1. destruct Hrows1 as [[= <-] | [? _]]; [|done].
      by apply Hsole.
    + intros Hcalm sid Hsid.
      destruct (RowsForFacts.storeWebhookSecret_calm (Some id) a sid w Hsid Hcalm)
        as (w1 & E1 & Hc1 & _ & Hs1).
      destruct (RowsForFacts.storeWebhookSecret_calm (Some id) b sid w1 Hsid Hc1)
        as (w2 & E2 & _ & _ & Hs2).
      exists w1, w2. split; [exact E1|]. split; [exact E2|].
      apply Hsole. by rewrite Hs2, Hs1, Hs.
    + intros Hcalm.
      destruct (StoreFacts.storeSecret_calm id a w Hcalm) as (r1 & w1 & E1 & Hc1 & _ & Hs1).
      destruct (StoreFacts.storeSecret_calm id b w1 Hc1) as (r2 & w2 & E2 & _ & _ & Hs2).
      exists r1, r2, w1, w2. split; [exact E1|]. split; [exact E2|].
      apply Hsole. by rewrite Hs2, Hs1, Hs.
    + intros sid w1 H1.
      pose proof (hoare_run _ _ _ _ w _ _
        (WebhookHandlerFacts.storeWebhookSecret_spec (sheet1 w) (secrets w) (Some id) a sid)
        (conj eq_refl eq_refl) H1) as (rows0 & [_ Hs1] & Hrows).
      rewrite Hs in Hrows. destruct Hrows as [[= <-] | [? _]]; [|done].
      destruct (RowsForFacts.upsert_rows_headed (Some id) a h rows) as (rows1 & E1 & _).
      exists rows1. split; [by rewrite Hs1, E1|]. rewrite <- Hrec. split.
      * intros Hne. apply (StoreFacts.upsert_rows_in_place id a) in Hne.
        rewrite E1 in Hne. cbn [length] in Hne. lia.
      * intros He. apply (StoreFacts.upsert_rows_append id a) in He.
        rewrite E1 in He. by injection He.
  - intros Hs Hcalm sid Hsid.
    destruct (RowsForFacts.storeWebhookSecret_calm (Some id) a sid w Hsid Hcalm)
      as (w1 & E1 & Hc1 & _ & Hs1).
    destruct (RowsForFacts.storeWebhookSecret_calm (Some id) b sid w1 Hsid Hc1)
      as (w2 & E2 & _ & _ & Hs2).
    exists w1, w2. split; [exact E1|]. split; [exact E2|].
    rewrite Hs2, Hs1, Hs. f_equal. apply RowsForFacts.upsert_rows_fresh.
Qed.

Lemma upsert_twice_leaves_one_record_witness :
  let w := with_records [["wh1"; "old"]; ["wh2"; "s2"]] [None; Some (ApiError 429)] in
  sole_record "wh1" "secretB"
    (storeWebhookSecret (Some "wh1") "secretB" (Some "SHEET1")
       (storeWebhookSecret (Some "wh1") "secretA" (Some "SHEET1") w).2).2 /\
  exists w1 w2,
    storeWebhookSecret (Some "wh1") "secretA" (Some "SHEET1") blank = (Ok tt, w1) /\
    storeWebhookSecret (Some "wh1") "secretB" (Some "SHEET1") w1 = (Ok tt, w2) /\
    secrets w2 = Some [header; ["wh1"; "secretB"]].
Proof.
  cbv zeta.
  destruct (upsert_twice_leaves_one_record
              (with_records [["wh1"; "old"]; ["wh2"; "s2"]] [None; Some (ApiError 429)])
              "wh1" "secretA" "secretB") as [HA _].
  destruct (upsert_twice_leaves_one_record blank "wh1" "secretA" "secretB") as [_ HB].
  split.
  - destruct (HA header [["wh1"; "old"]; ["wh2"; "s2"]]) as [H _].
    + reflexivity.
    + discriminate.
    + vm_compute. lia.
    + apply (H (Some "SHEET1")
               (storeWebhookSecret (Some "wh1") "secretA" (Some "SHEET1")
                  (with_records [["wh1"; "old"]; ["wh2"; "s2"]]
                     [None; Some (ApiError 429)])).2);
        vm_compute; reflexivity.
  - apply HB; reflexivity.
Defined.

(** C3 as stated fails, for either upsert. On a sheet [webhook_secrets] that
    exists and is empty, with no failure at all, the row that
    [storeWebhookSecret] appends becomes row 1, where the next upsert does not
    look ([rows.slice(1)]): it appends again, and the webhook has two rows.
    For the script, with the header in place: its two upserts both return,
    yet when the second one cannot read the sheet it takes it for empty and
    appends, and the webhook has two rows. *)
Lemma upserts_leave_two_rows :
  let w0 := mkWorld None [] (Some []) [] [] ∅ None in
  let v1 := (storeWebhookSecret (Some "wh1") "secretA" (Some "SHEET1") w0).2 in
  let v2 := (storeWebhookSecret (Some "wh1") "secretB" (Some "SHEET1") v1).2 in
  let w := mkWorld None [] (Some [header])
             [None; None; None; None; Some (ApiError 429); None] [] ∅ None in
  let w1 := (StoreSecretScript.storeSecret "wh1" "secretA" w).2 in
  let w2 := (StoreSecretScript.storeSecret "wh1" "secretB" w1).2 in
  (rows_for "wh1" (secret_rows w0) = [] /\
   (storeWebhookSecret (Some "wh1") "secretA" (Some "SHEET1") w0).1 = Ok tt /\
   (storeWebhookSecret (Some "wh1") "secretB" (Some "SHEET1") v1).1 = Ok tt /\
   trace v2 = [EvGetMeta; EvValuesGet (Cols webhook_secrets 1);
               EvValuesAppend webhook_secrets [Some "wh1"; Some "secretA"];
               EvGetMeta; EvValuesGet (Cols webhook_secrets 1);
               EvValuesAppend webhook_secrets [Some "wh1"; Some "secretB"]] /\
   secret_rows v2 = [["wh1"; "secretA"]; ["wh1"; "secretB"]] /\
   ~ sole_record "wh1" "secretB" v2) /\
  (rows_for "wh1" (secret_rows w) = [] /\
   (StoreSecretScript.storeSecret "wh1" "secretA" w).1 = Ok StoreSecretScript.appended /\
   (StoreSecretScript.storeSecret "wh1" "secretB" w1).1 = Ok StoreSecretScript.appended /\
   secret_rows w2 = [header; ["wh1"; "secretA"]; ["wh1"; "secretB"]] /\
   ~ sole_record "wh1" "secretB" w2).
Proof.
  cbv zeta. split.
  - split; [reflexivity|]. split; [reflexivity|]. split; [reflexivity|].
    split; [reflexivity|]. split; [reflexivity|].
    intros (r & Hr & _). vm_compute in Hr. discriminate.
  - split; [reflexivity|]. split; [reflexivity|]. split; [reflexivity|].
    split; [reflexivity|].
    intros (r & Hr & _). vm_compute in Hr. discriminate.
Qed.




(** C5. A [changed] or [added] event whose fetched task is not completed, is
    not assigned to Manager, Withdrawals or Withdraws, and has no row below
    the header with its id in the Task ID column, makes no write: the cells of
    both sheets are as before and no writing call is issued. *)
Theorem skip_rule (event : task_event) (sid : option string) (w : world)
    (taskData : task) :
  action event = "changed" \/ action event = "added" ->
  tasks w !! resource_gid event = Some taskData ->
  completed taskData = false ->
  assignee taskData <> Some "Manager" ->
  assignee taskData <> Some "Withdrawals" ->
  assignee taskData <> Some "Withdraws" ->
  (forall r : row, r ∈ drop 1 (sheet1 w) -> r !! 17 <> Some (gid taskData)) ->
  sheet1 (handleWebhookEvent event sid w).2 = sheet1 w /\
  secrets (handleWebhookEvent event sid w).2 = secrets w /\
  writes (handleWebhookEvent event sid w).2 = writes w.
Proof.
  intros Haction Htask Hcompleted Hm Hw1 Hw2 Hrows.
  assert (Hspecial : is_special (assignee taskData) = false).
  { unfold is_special, strict_eq.
    rewrite !bool_decide_eq_false_2 by done. reflexivity. }
  pose proof (ReconcilerFacts.skipped_event_unchanged event sid w taskData
                Haction Htask Hcompleted Hspecial Hrows) as H.
  destruct (handleWebhookEvent event sid w) as [res w'].
  destruct H as [[Ht Hs] Hws]. done.
Qed.

Lemma skip_rule_witness :
  sheet1 (handleWebhookEvent (mkEvent "changed" "task" "333") (Some "SHEET1") two_rows).2
    = sheet1 two_rows /\
  secrets (handleWebhookEvent (mkEvent "changed" "task" "333") (Some "SHEET1") two_rows).2
    = secrets two_rows /\
  writes (handleWebhookEvent (mkEvent "changed" "task" "333") (Some "SHEET1") two_rows).2
    = writes two_rows.
Proof.
  apply (skip_rule (mkEvent "changed" "task" "333") (Some "SHEET1") two_rows
           (open_task "333")); try (vm_compute; reflexivity); try discriminate.
  - left. reflexivity.
  - intros r Hr. cbn in Hr.
    apply elem_of_cons in Hr as [-> | Hr]; [discriminate|].
    apply list_elem_of_singleton in Hr as ->. discriminate.
Defined.




(** C7, as amended. The handshake of [api/webhook.js] names the webhook by
    the header [x-hook-id], else the header [x-hook-gid], else the query
    parameter [webhookId], else the query parameter [clientWebhookId], else
    by ["asana-"] followed by the current time in milliseconds; with a sheet
    id, credentials and a backing store that answers, the secret is stored in
    a row under that name. *)
Theorem webhook_id_resolution (e : WebhookEsm.env) (req : request)
    (q : list (string * string)) (s : string) (w : world) :
  query req = Some q ->
  if_truthy (headers req !! "x-hook-secret") = Some s ->
  let id := WebhookEsm.resolve_webhookId e req q in
  id = match if_truthy (headers req !! "x-hook-id") with
       | Some v => v
       | None =>
       match if_truthy (headers req !! "x-hook-gid") with
       | Some v => v
       | None =>
       match if_truthy (searchParams_get q "webhookId") with
       | Some v => v
       | None =>
       match if_truthy (searchParams_get q "clientWebhookId") with
       | Some v => v
       | None => "asana-" +:+ pretty (WebhookEsm.Date_now e)
       end end end end /\
  (truthy_opt (or_else (or_else (searchParams_get q "sheetId") (WebhookEsm.SPREADSHEET_ID e))
                       (WebhookEsm.GOOGLE_SHEETS_SPREADSHEET_ID e)) = true ->
   auth w = None ->
   faults w = [] ->
   exists r w',
     WebhookEsm.handler e req w = (Ok r, w') /\
     secrets w' = Some (upsert_rows (Some id) s
                          (match secrets w with Some rows => rows | None => [header] end)) /\
     exists c : row, c ∈ secret_rows w' /\ c !! 0 = Some id /\ c !! 1 = Some s).
Proof.
  intros Hq Hsecret id. split.
  - subst id. unfold WebhookEsm.resolve_webhookId.
    apply WebhookEsmFacts.or_else_cascade.
  - intros Hsheet Hauth Hcalm.
    destruct (WebhookEsmFacts.persistHookSecret_calm id s w Hauth Hcalm) as (w' & Hp & Hs).
    unfold WebhookEsm.handler, new_URL. rewrite Hq.
    unfold try_catch at 1. unfold bind at 1. unfold ret at 1.
    rewrite Hsecret, Hsheet. cbn [negb].
    unfold bind, try_catch. fold id. rewrite Hp. unfold ret.
    do 2 eexists. split; [reflexivity|]. split; [exact Hs|].
    unfold secret_rows. rewrite Hs. cbn [default].
    apply WebhookEsmFacts.upsert_rows_contains.
Qed.

Lemma webhook_id_resolution_witness :
  let req := handshake_request "abc123" {["x-hook-gid" := "12345"]}
               [("clientWebhookId", "sim-client")] (Json.JObj []) in
  WebhookEsm.resolve_webhookId (bare_env 1700000000000) req
    [("sheetId", "SHEET1"); ("clientWebhookId", "sim-client")] = "12345" /\
  exists r w',
    WebhookEsm.handler (bare_env 1700000000000) req blank = (Ok r, w') /\
    exists c : row, c ∈ secret_rows w' /\ c !! 0 = Some "12345" /\ c !! 1 = Some "abc123".
Proof.
  cbv zeta.
  assert (Hs : if_truthy (headers (handshake_request "abc123" {["x-hook-gid" := "12345"]}
                                     [("clientWebhookId", "sim-client")] (Json.JObj []))
                            !! "x-hook-secret") = Some "abc123")
    by (vm_compute; reflexivity).
  destruct (webhook_id_resolution (bare_env 1700000000000)
              (handshake_request "abc123" {["x-hook-gid" := "12345"]}
                 [("clientWebhookId", "sim-client")] (Json.JObj []))
              [("sheetId", "SHEET1"); ("clientWebhookId", "sim-client")] "abc123" blank
              eq_refl Hs) as [H1 H2].
  split.
  - rewrite H1. vm_compute. reflexivity.
  - destruct H2 as (r & w' & Hh & _ & c & Hc); [reflexivity..|].
    exists r, w'. split; [exact Hh|]. exists c. exact Hc.
Defined.

(** C7 as stated fails on the fallback: the name made when the request
    carries no identifier begins with ["asana-"], not ["generated-"]. *)
Lemma fallback_id_is_not_generated :
  let e := bare_env 1700000000000 in
  let req := handshake_request "abc123" ∅ [] (Json.JObj []) in
  WebhookEsm.resolve_webhookId e req [("sheetId", "SHEET1")] = "asana-1700000000000" /\
  WebhookEsm.resolve_webhookId e req [("sheetId", "SHEET1")]
    <> "generated-" +:+ pretty (WebhookEsm.Date_now e).
Proof. cbv zeta. split; [vm_compute; reflexivity | vm_compute; discriminate]. Qed.

(** C8, as amended. In [storeWebhookSecret], on a sheet that exists and with
    a sheet id:
    - a 429 on the schema check, or on the read of the existing rows, is
      followed by one sleep of 5000 ms and one more attempt of that step; the
      error of a second failure is raised;
    - an error that is not a 429 is raised at once;
    - an error of the final write is raised, the rows being left as they
      were.
    And whenever [storeWebhookSecret] returns, a row holding the secret (and
    the id) is in the sheet; on a sheet that had its first row, that row is
    below the first, where the listing reads: a secret that is not empty is
    then listed by [getWebhookSecrets] when no call fails. *)
Theorem upsert_retries_then_raises (c : option string) (t rows : list row)
    (tr : list event) (tk : gmap string task) (au : option error)
    (webhookId : option string) (secret sid : string) (e : error)
    (rest : list (option error)) :
  truthy sid = true ->
  let upsert fs :=
    storeWebhookSecret webhookId secret (Some sid) (mkWorld c t (Some rows) fs tr tk au) in
  let get_rows := EvValuesGet (Cols webhook_secrets 1) in
  let limited := Some (ApiError 429) in
  ((upsert (limited :: Some e :: rest)).1 = Throw e /\
   trace (upsert (limited :: Some e :: rest)).2
     = tr ++ [EvGetMeta; EvFailed (ApiError 429); EvSleep 5000; EvGetMeta; EvFailed e]) /\
  ((upsert (None :: limited :: Some e :: rest)).1 = Throw e /\
   trace (upsert (None :: limited :: Some e :: rest)).2
     = tr ++ [EvGetMeta; get_rows; EvFailed (ApiError 429); EvSleep 5000;
              get_rows; EvFailed e]) /\
  ((upsert (None :: limited :: None :: None :: rest)).1 = Ok tt /\
   secrets (upsert (None :: limited :: None :: None :: rest)).2
     = Some (upsert_rows webhookId secret rows) /\
   trace (upsert (None :: limited :: None :: None :: rest)).2
     = tr ++ [EvGetMeta; get_rows; EvFailed (ApiError 429); EvSleep 5000;
              get_rows; upsert_event webhookId secret rows]) /\
  (is_429 e = false ->
   ((upsert (Some e :: rest)).1 = Throw e /\
    trace (upsert (Some e :: rest)).2 = tr ++ [EvGetMeta; EvFailed e]) /\
   ((upsert (None :: Some e :: rest)).1 = Throw e /\
    trace (upsert (None :: Some e :: rest)).2 = tr ++ [EvGetMeta; get_rows; EvFailed e])) /\
  ((upsert (None :: None :: Some e :: rest)).1 = Throw e /\
   secrets (upsert (None :: None :: Some e :: rest)).2 = Some rows /\
   trace (upsert (None :: None :: Some e :: rest)).2
     = tr ++ [EvGetMeta; get_rows; upsert_event webhookId secret rows; EvFailed e]) /\
  (forall spreadsheetId w w',
     storeWebhookSecret webhookId secret spreadsheetId w = (Ok tt, w') ->
     (exists r : row, r ∈ secret_rows w' /\ r !! 1 = Some secret /\
                      (forall id, webhookId = Some id -> r !! 0 = Some id)) /\
     (forall (h : row) (rows0 : list row),
        secrets w = Some (h :: rows0) ->
        (exists r : row, r ∈ drop 1 (secret_rows w') /\ r !! 1 = Some secret /\
                         (forall id, webhookId = Some id -> r !! 0 = Some id)) /\
        (secret <> "" ->
         truthy_opt spreadsheetId = true ->
         faults w' = [] ->
         exists listed, (getWebhookSecrets spreadsheetId w').1 = Ok listed /\
                        secret ∈ listed))).
Proof.
  intros Hsid. cbv zeta.
  split; [by apply RetryFacts.schema_check_retried_once|].
  split; [by apply RetryFacts.read_retried_once|].
  split; [by apply RetryFacts.read_retried_then_written|].
  split; [by apply RetryFacts.other_error_raised_at_once|].
  split; [by apply RetryFacts.write_error_raised|].
  intros spreadsheetId w w' Hrun.
  pose proof (hoare_run _ _ _ _ w _ _
    (WebhookHandlerFacts.storeWebhookSecret_spec (sheet1 w) (secrets w) webhookId secret
       spreadsheetId) (conj eq_refl eq_refl) Hrun) as (rows0 & [_ Hs] & Hrows).
  split.
  - unfold secret_rows. rewrite Hs. cbn [default].
    apply RetryFacts.upsert_rows_has_secret.
  - intros h rows1 Hw. rewrite Hw in Hrows.
    destruct Hrows as [[= <-] | [? _]]; [|done].
    assert (Hbelow : exists r : row,
              r ∈ drop 1 (secret_rows w') /\ r !! 1 = Some secret /\
              (forall id, webhookId = Some id -> r !! 0 = Some id)).
    { unfold secret_rows. rewrite Hs. cbn [default].
      apply ListedFacts.upsert_rows_record_below. }
    split; [exact Hbelow|].
    intros Hsecret Hsheet Hcalm. eexists. split.
    + by apply ListedFacts.getWebhookSecrets_calm_any.
    + apply ListingFacts.collect_secrets_spec. split; [exact Hsecret|].
      destruct Hbelow as (r & Hin & Hr & _). by exists r.
Qed.

Lemma upsert_retries_then_raises_witness :
  let upsert fs :=
    storeWebhookSecret (Some "wh1") "s1" (Some "SHEET1")
      (mkWorld None [] (Some [header]) fs [] ∅ None) in
  ((upsert [None; Some (ApiError 429); Some (ApiError 503)]).1 = Throw (ApiError 503) /\
   trace (upsert [None; Some (ApiError 429); Some (ApiError 503)]).2
     = [EvGetMeta; EvValuesGet (Cols webhook_secrets 1); EvFailed (ApiError 429);
        EvSleep 5000; EvValuesGet (Cols webhook_secrets 1); EvFailed (ApiError 503)]) /\
  exists listed,
    (getWebhookSecrets (Some "SHEET1") (upsert [None; Some (ApiError 429)]).2).1
    = Ok listed /\ "s1" ∈ listed.
Proof.
  cbv zeta.
  destruct (upsert_retries_then_raises None [] [header] [] ∅ None (Some "wh1") "s1"
              "SHEET1" (ApiError 503) [] eq_refl) as (_ & H & _ & _ & _ & Hret).
  split; [exact H|].
  destruct (Hret (Some "SHEET1")
              (mkWorld None [] (Some [header]) [None; Some (ApiError 429)] [] ∅ None)
              (storeWebhookSecret (Some "wh1") "s1" (Some "SHEET1")
                 (mkWorld None [] (Some [header]) [None; Some (ApiError 429)] [] ∅ None)).2)
    as [_ Hlisted].
  - vm_compute. reflexivity.
  - destruct (Hlisted header [] eq_refl) as [_ Hl].
    apply Hl; [discriminate | reflexivity | vm_compute; reflexivity].
Defined.

(** C8 as stated fails at the write: a 429 answered to the append is raised
    to the caller with no sleep and no second attempt. And a returning upsert
    can leave a secret that is lost all the same: when the sheet has to be
    created and the write of its header is answered 429, the schema check is
    retried, finds the sheet and is content; the upsert returns, with the
    secret in the first row of the sheet, which the listing never reads, and
    a delivery signed with that secret is refused. *)
Lemma rate_limited_upsert_fails_or_loses_secret :
  let w := with_records [] [None; None; Some (ApiError 429); None] in
  let out := storeWebhookSecret (Some "wh1") "s1" (Some "SHEET1") w in
  let v := mkWorld None [] None [None; None; Some (ApiError 429)] [] ∅ None in
  let kept := storeWebhookSecret (Some "wh1") "s1" (Some "SHEET1") v in
  let body := Json.JObj [("events", Json.JArr [])] in
  (out.1 = Throw (ApiError 429) /\
   trace out.2 = [EvGetMeta; EvValuesGet (Cols webhook_secrets 1);
                  EvValuesAppend webhook_secrets [Some "wh1"; Some "s1"];
                  EvFailed (ApiError 429)] /\
   ~ In (EvSleep 5000) (trace out.2) /\
   length (List.filter is_write (trace out.2)) = 1 /\
   faults out.2 = [None]) /\
  (kept.1 = Ok tt /\
   trace kept.2 = [EvGetMeta; EvAddSheet;
                   EvValuesUpdate (RowOf webhook_secrets 1)
                     [Some "webhook_id"; Some "secret"];
                   EvFailed (ApiError 429); EvSleep 5000; EvGetMeta;
                   EvValuesGet (Cols webhook_secrets 1);
                   EvValuesAppend webhook_secrets [Some "wh1"; Some "s1"]] /\
   secrets kept.2 = Some [["wh1"; "s1"]] /\
   faults kept.2 = [] /\
   (getWebhookSecrets (Some "SHEET1") kept.2).1 = Ok ∅ /\
   (WebhookCjs.handler
      (signed_delivery body (Sha256.hmac_sha256_hex "s1" (Json.stringify body)))
      kept.2).1 = Ok WebhookCjs.rejected).
Proof.
  cbv zeta. split.
  - split; [reflexivity|]. split; [reflexivity|].
    split; [|split; reflexivity].
    intros H. vm_compute in H. intuition discriminate.
  - split; [reflexivity|]. split; [reflexivity|]. split; [reflexivity|].
    split; [reflexivity|]. split; vm_compute; reflexivity.
Qed.

(** C9. Whenever [getAllPages] is waiting for a fetch, in a state [st]:
    - three failed fetches in a row make it return the results accumulated
      so far, and it cannot end otherwise than by returning results;
    - counted from zero, two failures do not stop it: it asks again, for the
      same offset;
    - a fetch that succeeds and names a next page sets the count of
      consecutive errors back to zero. *)
Theorem pagination_stops_after_three_errors {A : Type}
    (pre rest : list (option string -> Pagination.fetched A))
    (f1 f2 f3 : option string -> Pagination.fetched A)
    (st : Pagination.loop_state A) (e1 e2 e3 : error) :
  Pagination.getAllPages pre = Pagination.Waiting st ->
  f1 (Pagination.offset st) = Pagination.Failed e1 ->
  f2 (Pagination.offset st) = Pagination.Failed e2 ->
  f3 (Pagination.offset st) = Pagination.Failed e3 ->
  Pagination.getAllPages (pre ++ f1 :: f2 :: f3 :: rest)
    = Pagination.Returned (Pagination.results st) /\
  (Pagination.consecutiveErrors st = 0 ->
   Pagination.getAllPages (pre ++ [f1; f2])
     = Pagination.Waiting
         (Pagination.mkLoop (Pagination.results st) (Pagination.offset st) 2)) /\
  (forall g p,
     g (Pagination.offset st) = Pagination.Fetched p ->
     truthy_opt (Pagination.next_offset p) = true ->
     Pagination.getAllPages (pre ++ [g])
       = Pagination.Waiting
           (Pagination.mkLoop
              (Pagination.results st ++ default [] (Pagination.data p))
              (Pagination.next_offset p) 0)).
Proof.
  intros Hpre H1 H2 H3. unfold Pagination.getAllPages in *.
  rewrite !PaginationFacts.loop_app, Hpre. split; [|split].
  - by apply PaginationFacts.three_failures_return with e1 e2 e3.
  - intros Hzero. destruct st as [r o n]. cbn in *. subst n.
    rewrite H1. cbn. rewrite H2. reflexivity.
  - intros g p Hg Hnext. rewrite PaginationFacts.loop_app, Hpre.
    cbn. rewrite Hg, Hnext. reflexivity.
Qed.

Lemma pagination_stops_after_three_errors_witness :
  Pagination.getAllPages
    ([page_of [1; 2] (Some "o1"); failure 500; page_of [3] (Some "o2")]
     ++ failure 500 :: failure 502 :: failure 429 :: [page_of [4] None])
  = Pagination.Returned [1; 2; 3].
Proof.
  apply (pagination_stops_after_three_errors
           [page_of [1; 2] (Some "o1"); failure 500; page_of [3] (Some "o2")]
           [page_of [4] None] (failure 500) (failure 502) (failure 429)
           (Pagination.mkLoop [1; 2; 3] (Some "o2") 0)
           (ApiError 500) (ApiError 502) (ApiError 429));
    reflexivity.
Defined.



(** * Part IV: further properties of the code

    Properties read off the code beyond those of the specification, numbered
    X1, X2, ... *)

(** X1. The functions of the secret store, [ensureWebhookSecretsSheet],
    [storeWebhookSecret] and [getWebhookSecrets], never change a cell of
    [Sheet1], whatever their arguments, the state of the spreadsheet and the
    failures of the API, and whether they return or throw. *)
Theorem secret_store_leaves_Sheet1 (webhookId : option string) (secret : string)
    (sid : option string) (w : world) :
  sheet1 (ensureWebhookSecretsSheet sid w).2 = sheet1 w /\
  sheet1 (storeWebhookSecret webhookId secret sid w).2 = sheet1 w /\
  sheet1 (getWebhookSecrets sid w).2 = sheet1 w.
Proof.
  split; [|split].
  - exact (preserves_run _ _ w
             (FrameFacts.ensureWebhookSecretsSheet_keeps_sheet1 (sheet1 w) sid) eq_refl).
  - exact (preserves_run _ _ w
             (FrameFacts.storeWebhookSecret_keeps_sheet1 (sheet1 w) webhookId secret sid)
             eq_refl).
  - exact (preserves_run _ _ w
             (FrameFacts.getWebhookSecrets_keeps_sheet1 (sheet1 w) sid) eq_refl).
Qed.

(** X2. The reconciler never touches the secret store: [handleWebhookEvent],
    and the loop of the handler over the events of a delivery, leave the
    sheet [webhook_secrets] as it was (absent, or with the same rows),
    whatever the events and the failures. *)
Theorem reconciler_leaves_secret_store (event : task_event) (events : list Json.json)
    (sid : option string) (w : world) :
  secrets (handleWebhookEvent event sid w).2 = secrets w /\
  secrets (WebhookCjs.processEvents events sid w).2 = secrets w.
Proof.
  split.
  - exact (preserves_run _ _ w
             (FrameFacts.handleWebhookEvent_keeps_secrets (secrets w) event sid) eq_refl).
  - exact (preserves_run _ _ w
             (FrameFacts.processEvents_keeps_secrets (secrets w) events sid) eq_refl).
Qed.

(** X3. The CommonJS handler always answers: it never throws, and its status
    is 200, 400, 401 or 500. *)
Theorem cjs_handler_always_answers (req : request) (w : world) :
  exists r w',
    WebhookCjs.handler req w = (Ok r, w') /\
    (statusCode r = 200 \/ statusCode r = 400 \/ statusCode r = 401 \/ statusCode r = 500).
Proof.
  pose proof (HandlerFacts.handler_cases req w) as H.
  destruct (query req) as [q|]; cbv zeta in H.
  - destruct (truthy_opt (searchParams_get q "sheetId")).
    + destruct (auth w) as [e|].
      * rewrite H. do 2 eexists. split; [reflexivity|]. cbn. tauto.
      * destruct (if_truthy (headers req !! "x-hook-secret")) as [hookSecret|].
        -- rewrite H.
           destruct (HandlerFacts.handshake_answer (WebhookCjs.parseRequestBody req)
                       hookSecret (searchParams_get q "sheetId") w)
             as (r & w' & -> & Hst & _).
           exists r, w'. split; [reflexivity | tauto].
        -- destruct (if_truthy (headers req !! "x-hook-signature")) as [signature|].
           ++ rewrite H.
              destruct (WebhookCjsFacts.delivery_answer (WebhookCjs.parseRequestBody req)
                          signature (searchParams_get q "sheetId") w)
                as (S & w1 & w' & _ & ->).
              do 2 eexists. split; [reflexivity|].
              destruct (WebhookCjs.isValid S _ signature); cbn; tauto.
           ++ rewrite H. do 2 eexists. split; [reflexivity|]. cbn. tauto.
    + rewrite H. do 2 eexists. split; [reflexivity|]. cbn. tauto.
  - rewrite H. do 2 eexists. split; [reflexivity|]. cbn. tauto.
Qed.

(** X4. Only an accepted delivery can change [Sheet1]: whenever the CommonJS
    handler answers anything but the 200 of an accepted delivery (a
    handshake, a refused signature, a bad request, a failure), the cells of
    [Sheet1] are as before. *)
Theorem only_accepted_delivery_changes_Sheet1 (req : request) (w : world) :
  sheet1 (WebhookCjs.handler req w).2 = sheet1 w \/
  (WebhookCjs.handler req w).1 = Ok WebhookCjs.accepted.
Proof.
  pose proof (HandlerFacts.handler_cases req w) as H.
  destruct (query req) as [q|]; cbv zeta in H.
  - destruct (truthy_opt (searchParams_get q "sheetId")).
    + destruct (auth w) as [e|].
      * rewrite H. by left.
      * destruct (if_truthy (headers req !! "x-hook-secret")) as [hookSecret|].
        -- rewrite H.
           destruct (HandlerFacts.handshake_answer (WebhookCjs.parseRequestBody req)
                       hookSecret (searchParams_get q "sheetId") w)
             as (r & w' & -> & _ & Hframe).
           by left.
        -- destruct (if_truthy (headers req !! "x-hook-signature")) as [signature|].
           ++ rewrite H. apply HandlerFacts.delivery_frame.
           ++ rewrite H. by left.
    + rewrite H. by left.
  - rewrite H. by left.
Qed.

(** X5. A request that the CommonJS handler answers with status 400 has
    caused nothing: no call of the API, no change of the cache, the world is
    the same. A request is answered so exactly when its URL parses and either
    the [sheetId] parameter is missing or empty, or a client could be had and
    neither webhook header is set. *)
Theorem bad_request_causes_nothing (req : request) (w w' : world) (r : response) :
  WebhookCjs.handler req w = (Ok r, w') ->
  (statusCode r = 400 <->
   exists q, query req = Some q /\
     (truthy_opt (searchParams_get q "sheetId") = false \/
      (auth w = None /\
       if_truthy (headers req !! "x-hook-secret") = None /\
       if_truthy (headers req !! "x-hook-signature") = None))) /\
  (statusCode r = 400 -> w' = w).
Proof.
  intros Hrun.
  pose proof (HandlerFacts.handler_cases req w) as H.
  destruct (query req) as [q|]; cbv zeta in H.
  - destruct (truthy_opt (searchParams_get q "sheetId")) eqn:Hsid.
    + destruct (auth w) as [e|] eqn:Hauth.
      * rewrite H in Hrun. injection Hrun as <- <-. cbn [statusCode].
        split; [|done]. split; [done|].
        intros (q' & [= <-] & [Hc | (Hc & _)]); congruence.
      * destruct (if_truthy (headers req !! "x-hook-secret")) as [hookSecret|] eqn:Hs.
        -- rewrite H in Hrun.
           destruct (HandlerFacts.handshake_answer (WebhookCjs.parseRequestBody req)
                       hookSecret (searchParams_get q "sheetId") w)
             as (r0 & w0 & Hh & Hst0 & _).
           rewrite Hh in Hrun. injection Hrun as <- <-.
           split; [|lia]. split; [lia|].
           intros (q' & [= <-] & [Hc | (_ & Hc & _)]); congruence.
        -- destruct (if_truthy (headers req !! "x-hook-signature")) as [signature|] eqn:Hg.
           ++ rewrite H in Hrun.
              destruct (WebhookCjsFacts.delivery_answer (WebhookCjs.parseRequestBody req)
                          signature (searchParams_get q "sheetId") w)
                as (S & w1 & w0 & _ & Hd).
              rewrite Hd in Hrun. injection Hrun as <- <-.
              assert (Hst : statusCode (if WebhookCjs.isValid S
                                             (Json.stringify (WebhookCjs.parseRequestBody req))
                                             signature
                                        then WebhookCjs.accepted else WebhookCjs.rejected)
                            <> 400).
              { destruct (WebhookCjs.isValid S _ signature); discriminate. }
              split; [|done]. split; [done|].
              intros (q' & [= <-] & [Hc | (_ & _ & Hc)]); congruence.
           ++ rewrite H in Hrun. injection Hrun as <- <-. cbn [statusCode].
              split; [|done]. split; [|done]. intros _. exists q. tauto.
    + rewrite H in Hrun. injection Hrun as <- <-. cbn [statusCode].
      split; [|done]. split; [|done]. intros _. exists q. tauto.
  - rewrite H in Hrun. injection Hrun as <- <-. cbn [statusCode].
    split; [|done]. split; [done|]. intros (q' & Hq' & _). discriminate.
Qed.

Lemma bad_request_causes_nothing_witness :
  let req := mkRequest {["x-hook-signature" := "00"]} (Some [("sheetId", "")])
                       None "" None in
  (WebhookCjs.handler req two_rows).2 = two_rows.
Proof.
  cbv zeta.
  refine (proj2 (bad_request_causes_nothing
                   (mkRequest {["x-hook-signature" := "00"]} (Some [("sheetId", "")])
                              None "" None)
                   two_rows _
                   (mkResponse 400 ∅ "Missing sheetId query parameter") _) _).
  - vm_compute. reflexivity.
  - reflexivity.
Defined.

(** X6. The handler of [api/webhook.js] always answers, with status 200
    whenever the URL of the request parses and 500 otherwise, and it never
    changes a cell of [Sheet1]: it stores handshake secrets and processes no
    event. *)
Theorem esm_handler_always_answers (e : WebhookEsm.env) (req : request) (w : world) :
  exists r w',
    WebhookEsm.handler e req w = (Ok r, w') /\
    statusCode r = match query req with Some _ => 200 | None => 500 end /\
    sheet1 w' = sheet1 w.
Proof.
  assert (Hans : exists r w',
             WebhookEsm.handler e req w = (Ok r, w') /\
             statusCode r = match query req with Some _ => 200 | None => 500 end).
  { unfold WebhookEsm.handler, new_URL. destruct (query req) as [q|].
    - unfold try_catch at 1. unfold bind at 1. unfold ret at 1.
      destruct (if_truthy (headers req !! "x-hook-secret")) as [hookSecret|].
      + destruct (negb _).
        * do 2 eexists. split; reflexivity.
        * unfold bind, try_catch.
          destruct (WebhookEsm.persistHookSecret _ hookSecret w) as [[[]|err] w1];
            unfold ret; do 2 eexists; split; reflexivity.
      + do 2 eexists. split; reflexivity.
    - do 2 eexists. split; reflexivity. }
  destruct Hans as (r & w' & Hrun & Hst). exists r, w'.
  split; [exact Hrun|]. split; [exact Hst|].
  pose proof (preserves_run _ _ w (FrameFacts.esm_handler_keeps_sheet1 (sheet1 w) e req)
                eq_refl) as Hframe.
  rewrite Hrun in Hframe. exact Hframe.
Qed.

(** X7. For the handler of [api/webhook.js], a request that is no handshake
    (no [X-Hook-Secret] header, or an empty one) is acknowledged with 200 and
    nothing else: its signature is not looked at and the world is the same.
    The same goes for a handshake when no sheet id is given by the URL or the
    environment: the secret is echoed and no call is made. *)
Theorem esm_acknowledges_without_calls (e : WebhookEsm.env) (req : request)
    (q : list (string * string)) (w : world) :
  query req = Some q ->
  if_truthy (headers req !! "x-hook-secret") = None \/
  truthy_opt (or_else (or_else (searchParams_get q "sheetId") (WebhookEsm.SPREADSHEET_ID e))
                      (WebhookEsm.GOOGLE_SHEETS_SPREADSHEET_ID e)) = false ->
  exists r,
    WebhookEsm.handler e req w = (Ok r, w) /\ statusCode r = 200 /\
    res_headers r !! "X-Hook-Secret" = if_truthy (headers req !! "x-hook-secret").
Proof.
  intros Hq Hcase. unfold WebhookEsm.handler, new_URL. rewrite Hq.
  unfold try_catch at 1. unfold bind at 1. unfold ret at 1.
  destruct (if_truthy (headers req !! "x-hook-secret")) as [hookSecret|].
  - destruct Hcase as [Hcase | ->]; [discriminate|]. cbn [negb].
    eexists. split; [reflexivity|]. split; [reflexivity|].
    cbn [res_headers]. by rewrite lookup_insert_ne, lookup_singleton_eq.
  - eexists. split; [reflexivity|]. split; [reflexivity|]. apply lookup_empty.
Qed.

Lemma esm_acknowledges_without_calls_witness :
  exists r,
    WebhookEsm.handler (bare_env 0)
      (signed_delivery (Json.JObj [("events", Json.JArr [])]) "00") two_rows
    = (Ok r, two_rows) /\ statusCode r = 200 /\ res_headers r !! "X-Hook-Secret" = None.
Proof.
  apply (esm_acknowledges_without_calls (bare_env 0)
           (signed_delivery (Json.JObj [("events", Json.JArr [])]) "00")
           [("sheetId", "SHEET1")] two_rows).
  - reflexivity.
  - left. vm_compute. reflexivity.
Defined.

(** X8. On a spreadsheet that already has its [webhook_secrets] sheet, the
    listing [getWebhookSecrets] only reads: whatever the failures, it issues no
    writing call and leaves the rows of both sheets as they were. *)
Theorem listing_is_read_only (sid : option string) (w : world) (rows : list row) :
  secrets w = Some rows ->
  secrets (getWebhookSecrets sid w).2 = Some rows /\
  sheet1 (getWebhookSecrets sid w).2 = sheet1 w /\
  writes (getWebhookSecrets sid w).2 = writes w.
Proof.
  intros Hs.
  pose proof (preserves_run _ _ w
                (ReadOnlyFacts.getWebhookSecrets_reads (writes w) (sheet1 w) rows sid)
                (conj (conj eq_refl Hs) eq_refl)) as [[Ht Hs'] Hws].
  done.
Qed.

Lemma listing_is_read_only_witness :
  let w := with_records [["wh1"; "s1"]] [Some (ApiError 429); None; Some (ApiError 500)] in
  secrets (getWebhookSecrets (Some "SHEET1") w).2 = Some [header; ["wh1"; "s1"]] /\
  sheet1 (getWebhookSecrets (Some "SHEET1") w).2 = sheet1 w /\
  writes (getWebhookSecrets (Some "SHEET1") w).2 = writes w.
Proof.
  cbv zeta.
  apply (listing_is_read_only (Some "SHEET1")
           (with_records [["wh1"; "s1"]] [Some (ApiError 429); None; Some (ApiError 500)])
           [header; ["wh1"; "s1"]]).
  reflexivity.
Defined.

(** X9. The schema check is idempotent: once [ensureWebhookSecretsSheet] has
    returned, a further run for the same spreadsheet, under whatever
    failures, issues no writing call and leaves both sheets as they are; in
    particular the header is written once, when the sheet is created. *)
Theorem schema_check_is_idempotent (sid : option string) (w w1 : world) :
  ensureWebhookSecretsSheet sid w = (Ok tt, w1) ->
  secrets (ensureWebhookSecretsSheet sid w1).2 = secrets w1 /\
  sheet1 (ensureWebhookSecretsSheet sid w1).2 = sheet1 w1 /\
  writes (ensureWebhookSecretsSheet sid w1).2 = writes w1.
Proof.
  intros Hrun.
  pose proof (WebhookHandlerFacts.ensureWebhookSecretsSheet_spec (sheet1 w) (secrets w) sid w
                (conj eq_refl eq_refl)) as Hspec.
  rewrite Hrun in Hspec. destruct Hspec as (rows & [_ Hs] & _).
  pose proof (preserves_run _ _ w1
                (ReadOnlyFacts.ensureWebhookSecretsSheet_reads (writes w1) (sheet1 w1) rows sid)
                (conj (conj eq_refl Hs) eq_refl)) as [[Ht Hs'] Hws].
  rewrite Hs. done.
Qed.

Lemma schema_check_is_idempotent_witness :
  let w1 := (ensureWebhookSecretsSheet (Some "SHEET1") blank).2 in
  secrets w1 = Some [header] /\
  secrets (ensureWebhookSecretsSheet (Some "SHEET1") w1).2 = secrets w1 /\
  sheet1 (ensureWebhookSecretsSheet (Some "SHEET1") w1).2 = sheet1 w1 /\
  writes (ensureWebhookSecretsSheet (Some "SHEET1") w1).2 = writes w1.
Proof.
  cbv zeta. split; [vm_compute; reflexivity|].
  apply (schema_check_is_idempotent (Some "SHEET1") blank
           (ensureWebhookSecretsSheet (Some "SHEET1") blank).2).
  vm_compute. reflexivity.
Defined.

(** X10. On a sheet that exists, [storeWebhookSecret] is one writing call at
    most, and all or nothing: when it returns, the rows are those of the
    upsert and the one write issued is the update of the row found or the
    append; when it throws, the rows are unchanged, and the only write that
    can have been tried is that one. *)
Theorem upsert_is_one_write_all_or_nothing (webhookId : option string) (secret : string)
    (sid : option string) (w : world) (rows : list row) :
  secrets w = Some rows ->
  match storeWebhookSecret webhookId secret sid w with
  | (Ok _, w') =>
      secrets w' = Some (upsert_rows webhookId secret rows) /\
      writes w' = writes w ++ [upsert_event webhookId secret rows]
  | (Throw _, w') =>
      secrets w' = Some rows /\
      (writes w' = writes w \/
       writes w' = writes w ++ [upsert_event webhookId secret rows])
  end.
Proof.
  intros Hs.
  pose proof (UpsertFacts.storeWebhookSecret_quiet (writes w) (sheet1 w) rows
                webhookId secret sid w (conj (conj eq_refl Hs) eq_refl)) as H.
  destruct (storeWebhookSecret webhookId secret sid w) as [[[]|e] w'].
  - destruct H as [[_ Hs'] Hws]. done.
  - destruct H as [[[_ Hs'] Hws] | [[_ Hs'] Hws]]; split; tauto.
Qed.

Lemma upsert_is_one_write_all_or_nothing_witness :
  let w := with_records [["wh1"; "s1"]] [None; None; Some (ApiError 429)] in
  (storeWebhookSecret (Some "wh1") "s2" (Some "SHEET1") w).1 = Throw (ApiError 429) /\
  secrets (storeWebhookSecret (Some "wh1") "s2" (Some "SHEET1") w).2
  = Some [header; ["wh1"; "s1"]].
Proof.
  cbv zeta. split; [vm_compute; reflexivity|].
  pose proof (upsert_is_one_write_all_or_nothing (Some "wh1") "s2" (Some "SHEET1")
                (with_records [["wh1"; "s1"]] [None; None; Some (ApiError 429)])
                [header; ["wh1"; "s1"]] eq_refl) as H.
  destruct (storeWebhookSecret (Some "wh1") "s2" (Some "SHEET1")
              (with_records [["wh1"; "s1"]] [None; None; Some (ApiError 429)]))
    as [[[]|e] w'] eqn:Hrun.
  - vm_compute in Hrun. discriminate.
  - exact (proj1 H).
Defined.

(** X11. An upsert for one webhook leaves the records of every other webhook
    as they were, whether [storeWebhookSecret] returns or throws, on a sheet
    that exists or on one it has to create. *)
Theorem upsert_keeps_other_records (id id' secret : string) (sid : option string)
    (w : world) :
  id' <> id ->
  records_of id' (secret_rows (storeWebhookSecret (Some id) secret sid w).2)
  = records_of id' (secret_rows w).
Proof.
  intros Hne.
  pose proof (WebhookHandlerFacts.storeWebhookSecret_spec (sheet1 w) (secrets w)
                (Some id) secret sid w (conj eq_refl eq_refl)) as H.
  destruct (storeWebhookSecret (Some id) secret sid w) as [[[]|e] w']; cbn [snd].
  - destruct H as (rows & [_ Hs'] & Hs). unfold secret_rows. rewrite Hs'.
    change (default [] (Some ?x)) with x.
    rewrite ReadOnlyFacts.upsert_rows_others by done.
    destruct Hs as [-> | [-> [-> | ->]]]; reflexivity.
  - destruct H as (s' & [_ Hs'] & Hs). unfold secret_rows. rewrite Hs'.
    destruct Hs as [-> | [-> [-> | ->]]]; reflexivity.
Qed.

Lemma upsert_keeps_other_records_witness :
  records_of "wh2"
    (secret_rows (storeWebhookSecret (Some "wh1") "new" (Some "SHEET1")
                    (with_records [["wh1"; "s1"]; ["wh2"; "s2"]] [])).2)
  = [["wh2"; "s2"]].
Proof.
  rewrite (upsert_keeps_other_records "wh1" "wh2" "new" (Some "SHEET1")
             (with_records [["wh1"; "s1"]; ["wh2"; "s2"]] [])).
  - reflexivity.
  - discriminate.
Defined.

(** X12. From the handshake to the delivery: once [storeWebhookSecret] has
    returned for a non-empty secret, on a sheet that had a first row, a
    delivery whose signature is the HMAC of [JSON.stringify] of its body under
    that secret is accepted, provided no call of the API fails while the
    secrets are listed. *)
Theorem stored_secret_verifies (webhookId : option string) (secret : string)
    (sid : option string) (w w1 : world) (rows : list row) (body : Json.json) :
  secrets w = Some rows ->
  rows <> [] ->
  secret <> "" ->
  truthy_opt sid = true ->
  storeWebhookSecret webhookId secret sid w = (Ok tt, w1) ->
  faults w1 = [] ->
  (WebhookCjs.delivery body (Sha256.hmac_sha256_hex secret (Json.stringify body)) sid w1).1
  = Ok WebhookCjs.accepted.
Proof.
  intros Hs Hne Hsecret Hsid Hrun Hcalm.
  pose proof (WebhookHandlerFacts.storeWebhookSecret_spec (sheet1 w) (secrets w)
                webhookId secret sid w (conj eq_refl eq_refl)) as H.
  rewrite Hrun in H. destruct H as (rows' & [_ Hs1] & Hrows).
  assert (rows' = rows) as ->.
  { destruct Hrows as [Heq | [Heq _]]; congruence. }
  pose proof (ReadOnlyFacts.getWebhookSecrets_calm sid _ w1 Hsid Hs1 Hcalm) as Hlist.
  destruct (WebhookCjsFacts.delivery_answer body
              (Sha256.hmac_sha256_hex secret (Json.stringify body)) sid w1)
    as (S & w2 & w' & HS & ->).
  rewrite HS in Hlist. cbn [fst] in *. injection Hlist as ->.
  assert (Hv : WebhookCjs.isValid (collect_secrets (drop 1 (upsert_rows webhookId secret rows)))
                 (Json.stringify body)
                 (Sha256.hmac_sha256_hex secret (Json.stringify body)) = true).
  { apply WebhookCjsFacts.isValid_spec. exists secret. split; [|reflexivity].
    apply ListingFacts.collect_secrets_spec. split; [exact Hsecret|].
    destruct (ReadOnlyFacts.upsert_rows_below_header webhookId secret rows Hne)
      as (r & Hin & Hr).
    by exists r. }
  by rewrite Hv.
Qed.

Lemma stored_secret_verifies_witness :
  let w := with_records [["wh0"; "s0"]] [] in
  let body := Json.JObj [("events", Json.JArr [])] in
  (WebhookCjs.delivery body (Sha256.hmac_sha256_hex "s1" (Json.stringify body))
     (Some "SHEET1")
     (storeWebhookSecret (Some "wh1") "s1" (Some "SHEET1") w).2).1
  = Ok WebhookCjs.accepted.
Proof.
  cbv zeta.
  apply (stored_secret_verifies (Some "wh1") "s1" (Some "SHEET1")
           (with_records [["wh0"; "s0"]] [])
           (storeWebhookSecret (Some "wh1") "s1" (Some "SHEET1")
              (with_records [["wh0"; "s0"]] [])).2
           [header; ["wh0"; "s0"]]).
  - reflexivity.
  - discriminate.
  - discriminate.
  - reflexivity.
  - vm_compute. reflexivity.
  - vm_compute. reflexivity.
Defined.

(** X13. A secret can end up where the listing never looks. When the sheet
    [webhook_secrets] has to be created and the write of its header is
    answered 429, the retried schema check finds the sheet and is content;
    the upsert then returns, with the secret appended as the first row of the
    sheet. [getWebhookSecrets] reads from the second row on: it lists
    nothing, and a delivery signed with that very secret is refused. *)
Theorem secret_in_header_row_is_never_listed (c : option string) (t : list row)
    (tr : list event) (tk : gmap string task) (id secret sid : string)
    (body : Json.json) :
  truthy sid = true ->
  let w := mkWorld c t None [None; None; Some (ApiError 429)] tr tk None in
  let w1 := (storeWebhookSecret (Some id) secret (Some sid) w).2 in
  (storeWebhookSecret (Some id) secret (Some sid) w).1 = Ok tt /\
  secrets w1 = Some [[id; secret]] /\
  (getWebhookSecrets (Some sid) w1).1 = Ok ∅ /\
  (WebhookCjs.delivery body (Sha256.hmac_sha256_hex secret (Json.stringify body))
     (Some sid) w1).1 = Ok WebhookCjs.rejected.
Proof.
  intros Hsid w w1.
  assert (Hrun : storeWebhookSecret (Some id) secret (Some sid) w
                 = (Ok tt, mkWorld (Some sid) t (Some [[id; secret]]) []
                             (trace w1) tk None)).
  { subst w1 w. RetryFacts.run_store Hsid. reflexivity. }
  assert (Hw1 : w1 = mkWorld (Some sid) t (Some [[id; secret]]) [] (trace w1) tk None).
  { subst w1. by rewrite Hrun at 1. }
  assert (Hlist : (getWebhookSecrets (Some sid) w1).1 = Ok ∅).
  { rewrite Hw1. by apply (ReadOnlyFacts.getWebhookSecrets_calm (Some sid) [[id; secret]]). }
  split; [by rewrite Hrun|]. split; [by rewrite Hw1|]. split; [exact Hlist|].
  destruct (WebhookCjsFacts.delivery_answer body
              (Sha256.hmac_sha256_hex secret (Json.stringify body)) (Some sid) w1)
    as (S & w2 & w' & HS & ->).
  rewrite HS in Hlist. cbn [fst] in *. injection Hlist as ->.
  unfold WebhookCjs.isValid. by rewrite elements_empty.
Qed.

Lemma secret_in_header_row_is_never_listed_witness :
  let w := mkWorld None [] None [None; None; Some (ApiError 429)] [] ∅ None in
  let w1 := (storeWebhookSecret (Some "wh1") "s1" (Some "SHEET1") w).2 in
  secrets w1 = Some [["wh1"; "s1"]] /\
  (WebhookCjs.delivery (Json.JObj []) (Sha256.hmac_sha256_hex "s1" (Json.stringify (Json.JObj [])))
     (Some "SHEET1") w1).1 = Ok WebhookCjs.rejected.
Proof.
  cbv zeta.
  pose proof (secret_in_header_row_is_never_listed None [] [] ∅ "wh1" "s1" "SHEET1"
                (Json.JObj []) eq_refl) as H.
  cbv zeta in H. split; [exact (proj1 (proj2 H)) | exact (proj2 (proj2 (proj2 H)))].
Defined.

(** X14. The update rule. When nothing fails, a [changed] or [added] event
    for a task that has a row in [Sheet1] (the first row below the header
    whose Task ID cell is the task's id) returns after one call, the update
    of that row: the row gets the task's values in its columns A to S, none
    of them left as it was, and keeps what it had beyond; the number of rows
    and every other row are unchanged. The task's row is taken to have the 19
    cells of the range [A:S] that the update names, as it has in every
    workspace but the one with the extra [balance] column. *)
Theorem update_rule (event : task_event) (sid : option string) (w : world)
    (taskData : task) (j : nat) :
  action event = "changed" \/ action event = "added" ->
  tasks w !! resource_gid event = Some taskData ->
  findIndex (is_task_row (gid taskData)) (drop 1 (sheet1 w)) = Some j ->
  length (rowValues taskData) = 19 ->
  truthy_opt sid = true ->
  auth w = None ->
  faults w = [] ->
  exists old : row,
    sheet1 w !! (j + 1) = Some old /\ old !! 17 = Some (gid taskData) /\
    (handleWebhookEvent event sid w).1 = Ok tt /\
    sheet1 (handleWebhookEvent event sid w).2
    = <[j + 1 := map shown (rowValues taskData) ++ drop 19 old]> (sheet1 w) /\
    length (sheet1 (handleWebhookEvent event sid w).2) = length (sheet1 w) /\
    writes (handleWebhookEvent event sid w).2
    = writes w ++ [EvValuesUpdate (RowOf Sheet1 (j + 2))
                     (map to_value (rowValues taskData))].
Proof.
  intros Haction Htask Hfind Hwidth Hsid Hauth Hcalm.
  pose proof (RowFacts.changed_event_calm event sid w taskData
                Haction Htask Hsid Hauth Hcalm) as Hrun.
  pose proof (ChangedEventFacts.changed_event_calm_writes event sid w taskData
                Haction Htask Hsid Hauth Hcalm) as Hws.
  destruct (ReconcilerFacts.findIndex_is_task_row_Some _ _ _ Hfind) as (old & Hold & Hid).
  rewrite lookup_drop in Hold. replace (1 + j) with (j + 1) in Hold by lia.
  exists old. split; [exact Hold|]. split; [exact Hid|].
  rewrite Hfind in Hws. replace (j + 1 + 1) with (j + 2) in Hws by lia.
  assert (Hsheet : sheet1 (handleWebhookEvent event sid w).2
                   = <[j + 1 := map shown (rowValues taskData) ++ drop 19 old]> (sheet1 w)).
  { rewrite Hrun. cbn [snd sheet1]. unfold reconcile_rows. cbv zeta. rewrite Hfind.
    rewrite (WebhookHandlerFacts.write_row_existing (j + 1 + 1) _ (sheet1 w) old).
    2:{ replace (j + 1 + 1 - 1) with (j + 1) by lia. exact Hold. }
    replace (j + 1 + 1 - 1) with (j + 1) by lia.
    by rewrite RowFacts.rowValues_defined, RowFacts.overlay_defined, length_map, Hwidth. }
  split; [by rewrite Hrun|]. split; [exact Hsheet|]. split; [|exact Hws].
  rewrite Hsheet. apply length_insert.
Qed.

Lemma update_rule_witness :
  let w := mkWorld None [sheet_header; task_row "first" "111"; task_row "second" "222"]
                   None [] [] {["222" := mkTask "222" "renamed" None true None None []]} None in
  sheet1 (handleWebhookEvent (mkEvent "changed" "task" "222") (Some "SHEET1") w).2
  = [sheet_header; task_row "first" "111";
     ["" ; "renamed"] ++ replicate 14 "" ++ [""; "222"; "Yes"]].
Proof.
  cbv zeta.
  destruct (update_rule (mkEvent "changed" "task" "222") (Some "SHEET1")
              (mkWorld None [sheet_header; task_row "first" "111"; task_row "second" "222"]
                 None [] [] {["222" := mkTask "222" "renamed" None true None None []]} None)
              (mkTask "222" "renamed" None true None None []) 1)
    as (old & Hold & _ & _ & Hsheet & _).
  - left. reflexivity.
  - vm_compute. reflexivity.
  - vm_compute. reflexivity.
  - reflexivity.
  - reflexivity.
  - reflexivity.
  - reflexivity.
  - rewrite Hsheet. injection Hold as <-. vm_compute. reflexivity.
Defined.

(** X15. The add rule. When nothing fails, a [changed] or [added] event for
    a task without a row that is completed, or assigned to Manager,
    Withdrawals or Withdraws, returns after one call, an append: [Sheet1] gets
    one more row, the last, made of the task's values, its id in the Task ID
    column; the rows above are unchanged. *)
Theorem add_rule (event : task_event) (sid : option string) (w : world)
    (taskData : task) :
  action event = "changed" \/ action event = "added" ->
  tasks w !! resource_gid event = Some taskData ->
  findIndex (is_task_row (gid taskData)) (drop 1 (sheet1 w)) = None ->
  completed taskData || is_special (assignee taskData) = true ->
  truthy_opt sid = true ->
  auth w = None ->
  faults w = [] ->
  (handleWebhookEvent event sid w).1 = Ok tt /\
  sheet1 (handleWebhookEvent event sid w).2 = sheet1 w ++ [map shown (rowValues taskData)] /\
  map shown (rowValues taskData) !! 17 = Some (gid taskData) /\
  writes (handleWebhookEvent event sid w).2
  = writes w ++ [EvValuesAppend Sheet1 (map to_value (rowValues taskData))].
Proof.
  intros Haction Htask Hfind Hadd Hsid Hauth Hcalm.
  pose proof (RowFacts.changed_event_calm event sid w taskData
                Haction Htask Hsid Hauth Hcalm) as Hrun.
  pose proof (ChangedEventFacts.changed_event_calm_writes event sid w taskData
                Haction Htask Hsid Hauth Hcalm) as Hws.
  rewrite Hfind, Hadd in Hws.
  split; [by rewrite Hrun|]. split; [|split; [apply RowFacts.rowValues_gid | exact Hws]].
  rewrite Hrun. cbn [snd sheet1]. unfold reconcile_rows. cbv zeta. rewrite Hfind, Hadd.
  rewrite RowFacts.rowValues_defined, RowFacts.overlay_defined, drop_nil, app_nil_r. done.
Qed.

Lemma add_rule_witness :
  let w := mkWorld None [sheet_header; task_row "first" "111"] None [] []
                   {["333" := mkTask "333" "new" (Some "Manager") false None None []]} None in
  sheet1 (handleWebhookEvent (mkEvent "added" "task" "333") (Some "SHEET1") w).2
  = [sheet_header; task_row "first" "111";
     [""; "new"; "Manager"] ++ replicate 13 "" ++ [""; "333"; "No"]].
Proof.
  cbv zeta.
  destruct (add_rule (mkEvent "added" "task" "333") (Some "SHEET1")
              (mkWorld None [sheet_header; task_row "first" "111"] None [] []
                 {["333" := mkTask "333" "new" (Some "Manager") false None None []]} None)
              (mkTask "333" "new" (Some "Manager") false None None []))
    as (_ & Hsheet & _).
  - right. reflexivity.
  - vm_compute. reflexivity.
  - vm_compute. reflexivity.
  - reflexivity.
  - reflexivity.
  - reflexivity.
  - reflexivity.
  - rewrite Hsheet. vm_compute. reflexivity.
Defined.

(** X16. Reconciling is idempotent. When nothing fails, on a [Sheet1] that
    has a first row and for a task with a non-empty id, whose row has the 19
    cells of the range [A:S], handling the same [changed] or [added] event a
    second time leaves [Sheet1] exactly as the first time left it: the row
    written or appended the first time is the one found and written over the
    second time. *)
Theorem reconciling_twice_changes_nothing (event : task_event) (sid : option string)
    (w : world) (taskData : task) :
  action event = "changed" \/ action event = "added" ->
  tasks w !! resource_gid event = Some taskData ->
  gid taskData <> "" ->
  length (rowValues taskData) = 19 ->
  sheet1 w <> [] ->
  truthy_opt sid = true ->
  auth w = None ->
  faults w = [] ->
  (handleWebhookEvent event sid (handleWebhookEvent event sid w).2).1 = Ok tt /\
  sheet1 (handleWebhookEvent event sid (handleWebhookEvent event sid w).2).2
  = sheet1 (handleWebhookEvent event sid w).2.
Proof.
  intros Haction Htask Hgid _ Hne Hsid Hauth Hcalm.
  pose proof (RowFacts.changed_event_calm event sid w taskData
                Haction Htask Hsid Hauth Hcalm) as Hrun.
  assert (H1 : sheet1 (handleWebhookEvent event sid w).2
               = reconcile_rows taskData (sheet1 w) /\
               tasks (handleWebhookEvent event sid w).2 = tasks w /\
               auth (handleWebhookEvent event sid w).2 = None /\
               faults (handleWebhookEvent event sid w).2 = []).
  { rewrite Hrun. done. }
  destruct H1 as (Hs1 & Ht1 & Ha1 & Hf1). rewrite <- Ht1 in Htask.
  pose proof (RowFacts.changed_event_calm event sid (handleWebhookEvent event sid w).2
                taskData Haction Htask Hsid Ha1 Hf1) as Hrun2.
  rewrite Hrun2. cbn [fst snd sheet1]. split; [done|].
  rewrite Hs1. by apply RowFacts.reconcile_rows_idempotent.
Qed.

Lemma reconciling_twice_changes_nothing_witness :
  let w := mkWorld None [sheet_header] None [] []
                   {["333" := mkTask "333" "done" None true None None []]} None in
  let w1 := (handleWebhookEvent (mkEvent "changed" "task" "333") (Some "SHEET1") w).2 in
  length (sheet1 w1) = 2 /\
  sheet1 (handleWebhookEvent (mkEvent "changed" "task" "333") (Some "SHEET1") w1).2
  = sheet1 w1.
Proof.
  cbv zeta. split; [vm_compute; reflexivity|].
  apply (reconciling_twice_changes_nothing (mkEvent "changed" "task" "333") (Some "SHEET1")
           (mkWorld None [sheet_header] None [] []
              {["333" := mkTask "333" "done" None true None None []]} None)
           (mkTask "333" "done" None true None None [])).
  - left. reflexivity.
  - vm_compute. reflexivity.
  - discriminate.
  - reflexivity.
  - discriminate.
  - reflexivity.
  - reflexivity.
  - reflexivity.
Defined.

(** X17. A failed lookup duplicates the row. [findTaskRow] answers [null]
    when the read of [Sheet1] fails, so a [changed] or [added] event for a
    completed (or specially assigned) task whose lookup fails appends a row
    whether or not the task already has one: the rows that carry the task's
    id are one more than before. *)
Theorem failed_lookup_appends_again (event : task_event) (sid : option string)
    (w : world) (taskData : task) (e : error) :
  action event = "changed" \/ action event = "added" ->
  tasks w !! resource_gid event = Some taskData ->
  completed taskData || is_special (assignee taskData) = true ->
  truthy_opt sid = true ->
  auth w = None ->
  faults w = [Some e] ->
  (handleWebhookEvent event sid w).1 = Ok tt /\
  sheet1 (handleWebhookEvent event sid w).2 = sheet1 w ++ [map shown (rowValues taskData)] /\
  length (rows_of_task (gid taskData) (sheet1 (handleWebhookEvent event sid w).2))
  = S (length (rows_of_task (gid taskData) (sheet1 w))).
Proof.
  intros Haction Htask Hadd Hsid Hauth Hfaults.
  destruct (ChangedEventFacts.changed_event_failed_lookup event sid w taskData e
              Haction Htask Hadd Hsid Hauth Hfaults) as [Hok Hsheet].
  rewrite RowFacts.rowValues_defined, RowFacts.overlay_defined, drop_nil, app_nil_r
    in Hsheet.
  split; [exact Hok|]. split; [exact Hsheet|].
  rewrite Hsheet. unfold rows_of_task. rewrite filter_app, length_app.
  rewrite filter_cons_True by apply RowFacts.rowValues_gid.
  rewrite filter_nil. cbn. lia.
Qed.

Lemma failed_lookup_appends_again_witness :
  let w := mkWorld None [sheet_header; task_row "done" "333"] None
                   [Some (ApiError 503)] []
                   {["333" := mkTask "333" "done" None true None None []]} None in
  length (rows_of_task "333"
            (sheet1 (handleWebhookEvent (mkEvent "changed" "task" "333") (Some "SHEET1") w).2))
  = 2.
Proof.
  cbv zeta.
  destruct (failed_lookup_appends_again (mkEvent "changed" "task" "333") (Some "SHEET1")
              (mkWorld None [sheet_header; task_row "done" "333"] None
                 [Some (ApiError 503)] []
                 {["333" := mkTask "333" "done" None true None None []]} None)
              (mkTask "333" "done" None true None None []) (ApiError 503))
    as (_ & _ & Hcount).
  - left. reflexivity.
  - vm_compute. reflexivity.
  - reflexivity.
  - reflexivity.
  - reflexivity.
  - reflexivity.
  - refine (eq_trans Hcount _). vm_compute. reflexivity.
Defined.

(** X18. [processTaskData] keeps the allow-listed custom fields and nothing
    else: under a name on the list ([Worker], [Status], ... and [balance] for
    the one workspace) the value kept is that of the last field of the task
    with this name; under any other name nothing is kept, whatever fields the
    task carries. *)
Theorem only_allow_listed_fields_are_kept (t : task) (workspaceId : option string)
    (k : string) :
  customFieldValues (processTaskData t workspaceId) !! k
  = if existsb (String.eqb k) (fieldNames workspaceId)
    then option_map field_value
           (last (filter (fun f => cf_name f = k) (default [] (custom_fields t))))
    else None.
Proof.
  unfold processTaskData. cbn [customFieldValues].
  destruct (custom_fields t) as [fields|]; cbn [default].
  - rewrite FieldFacts.customFieldValues_fold, lookup_empty.
    destruct (last _); destruct (existsb _ _); reflexivity.
  - rewrite lookup_empty. by destruct (existsb _ _).
Qed.

(** X19. The events of a delivery are handled one after the other and
    independently: the loop never throws, and handling a list of events comes
    to handling its first part and then the rest, whatever failed on the
    way. *)
Theorem events_are_handled_independently (first rest : list Json.json)
    (sid : option string) (w : world) :
  (WebhookCjs.processEvents (first ++ rest) sid w).1 = Ok tt /\
  WebhookCjs.processEvents (first ++ rest) sid w
  = WebhookCjs.processEvents rest sid (WebhookCjs.processEvents first sid w).2.
Proof.
  split.
  - destruct (WebhookCjsFacts.processEvents_returns (first ++ rest) sid w) as (w' & ->).
    reflexivity.
  - revert w. induction first as [|ev first IH]; intros w; [reflexivity|].
    cbn [app WebhookCjs.processEvents]. unfold bind.
    destruct (try_catch _ _ w) as [[[]|e] w1] eqn:Hstep.
    + apply IH.
    + exfalso. revert Hstep. unfold try_catch.
      destruct (match WebhookCjs.decode_event ev with
                | Some ev0 => handleWebhookEvent ev0 sid
                | None => throw (JsError "TypeError")
                end w) as [[[]|e'] w2]; discriminate.
Qed.

(** X20. [fetchWithRetry] makes at most [maxRetries] calls and ends with the
    first call that is not a retriable failure: it waits after each 429 and
    each 5xx while an attempt is left, returns the value of the first call
    that succeeds, and rethrows the first error that is not retriable, or the
    error of the last attempt. With at least one attempt it never ends
    without a value or an error. *)
Theorem fetchWithRetry_outcome {A : Type} (maxRetries baseDelay : nat)
    (fetchFunction : nat -> FetchWithRetry.attempt A) (jitter : nat -> nat) :
  0 < maxRetries ->
  exists k,
    k < maxRetries /\
    length (FetchWithRetry.fetchWithRetry maxRetries baseDelay fetchFunction jitter).1 = k /\
    (forall i, i < k ->
       exists error,
         fetchFunction i = FetchWithRetry.Failure error /\
         FetchWithRetry.retriable error = true /\
         (FetchWithRetry.fetchWithRetry maxRetries baseDelay fetchFunction jitter).1 !! i
         = Some (FetchWithRetry.delay_after baseDelay jitter error i)) /\
    match (FetchWithRetry.fetchWithRetry maxRetries baseDelay fetchFunction jitter).2 with
    | FetchWithRetry.Returned a => fetchFunction k = FetchWithRetry.Success a
    | FetchWithRetry.Threw error =>
        fetchFunction k = FetchWithRetry.Failure error /\
        (FetchWithRetry.retriable error = false \/ k = maxRetries - 1)
    | FetchWithRetry.LeftLoop => False
    end.
Proof.
  intros Hpos. unfold FetchWithRetry.fetchWithRetry.
  destruct (FetchWithRetryFacts.attempts_outcome maxRetries baseDelay fetchFunction jitter
              maxRetries 0 eq_refl) as (k & Hlen & Hbefore & Hend).
  exists k. cbn [Nat.add] in *.
  destruct (FetchWithRetry.attempts maxRetries baseDelay fetchFunction jitter maxRetries 0)
    as [ds r]. cbn [fst snd] in *.
  assert (Hk : k < maxRetries).
  { destruct r as [a|e|]; [tauto | tauto | lia]. }
  split; [exact Hk|]. split; [exact Hlen|]. split; [exact Hbefore|].
  destruct r as [a|e|]; [tauto | tauto | lia].
Qed.

Lemma fetchWithRetry_outcome_witness :
  FetchWithRetry.fetchWithRetry 5 2000 flaky_fetch (fun _ => 17)
  = ([3000; 4017], FetchWithRetry.Returned 7) /\
  exists k,
    k < 5 /\
    length (FetchWithRetry.fetchWithRetry 5 2000 flaky_fetch (fun _ => 17)).1 = k /\
    (forall i, i < k ->
       exists error,
         flaky_fetch i = FetchWithRetry.Failure error /\
         FetchWithRetry.retriable error = true /\
         (FetchWithRetry.fetchWithRetry 5 2000 flaky_fetch (fun _ => 17)).1 !! i
         = Some (FetchWithRetry.delay_after 2000 (fun _ => 17) error i)) /\
    match (FetchWithRetry.fetchWithRetry 5 2000 flaky_fetch (fun _ => 17)).2 with
    | FetchWithRetry.Returned a => flaky_fetch k = FetchWithRetry.Success a
    | FetchWithRetry.Threw error =>
        flaky_fetch k = FetchWithRetry.Failure error /\
        (FetchWithRetry.retriable error = false \/ k = 5 - 1)
    | FetchWithRetry.LeftLoop => False
    end.
Proof.
  split; [vm_compute; reflexivity|].
  apply (fetchWithRetry_outcome 5 2000 flaky_fetch (fun _ => 17)). lia.
Defined.



(** X22. [getAllPages] concatenates the pages in order. When every fetch
    succeeds, the pages that name a next page are followed, the first page
    that names none ends the loop, and the result is the data of these pages
    one after the other, a page without data counting for nothing. *)
Theorem pages_are_concatenated_in_order {A : Type} (pages : list (Pagination.page A))
    (final : Pagination.page A)
    (rest : list (option string -> Pagination.fetched A)) :
  Forall (fun p => truthy_opt (Pagination.next_offset p) = true) pages ->
  truthy_opt (Pagination.next_offset final) = false ->
  Pagination.getAllPages
    (map (fun p _ => Pagination.Fetched p) (pages ++ [final]) ++ rest)
  = Pagination.Returned
      (concat (map (fun p => default [] (Pagination.data p)) (pages ++ [final]))).
Proof.
  intros Hpages Hfinal. unfold Pagination.getAllPages.
  change (concat (map (fun p => default [] (Pagination.data p)) (pages ++ [final])))
    with (Pagination.results (Pagination.mkLoop (A := A) [] None 0)
          ++ concat (map (fun p => default [] (Pagination.data p)) (pages ++ [final]))).
  generalize (Pagination.mkLoop (A := A) [] None 0).
  induction Hpages as [|p pages Hp Hpages IH]; intros st.
  - cbn. rewrite Hfinal. by rewrite app_nil_r.
  - cbn [app map Pagination.loop concat]. rewrite Hp. rewrite IH.
    cbn [Pagination.results]. by rewrite app_assoc.
Qed.

Lemma pages_are_concatenated_in_order_witness :
  Pagination.getAllPages
    (map (fun p _ => Pagination.Fetched p)
         ([Pagination.mkPage (Some [1; 2]) (Some "o1"); Pagination.mkPage None (Some "o2")]
          ++ [Pagination.mkPage (Some [3]) None])
     ++ [failure 500])
  = Pagination.Returned [1; 2; 3].
Proof.
  apply (pages_are_concatenated_in_order
           [Pagination.mkPage (Some [1; 2]) (Some "o1"); Pagination.mkPage None (Some "o2")]
           (Pagination.mkPage (Some [3]) None) [failure 500]).
  - repeat constructor.
  - reflexivity.
Defined.

(** X23. Failures short of three in a row are absorbed. When the loop of
    [getAllPages] meets failures that bring the count of consecutive errors
    to less than three and the next fetch, asked for the same offset,
    succeeds, the loop goes on exactly as if the failures had not happened:
    no result is lost, none is fetched twice. *)
Theorem failures_before_a_success_are_absorbed {A : Type}
    (failures : list (option string -> Pagination.fetched A))
    (g : option string -> Pagination.fetched A) (p : Pagination.page A)
    (rest : list (option string -> Pagination.fetched A))
    (st : Pagination.loop_state A) :
  Forall (fun f => exists e, f (Pagination.offset st) = Pagination.Failed e) failures ->
  Pagination.consecutiveErrors st + length failures < 3 ->
  g (Pagination.offset st) = Pagination.Fetched p ->
  Pagination.loop (failures ++ g :: rest) st = Pagination.loop (g :: rest) st.
Proof.
  intros Hfail. revert st Hfail.
  induction failures as [|f failures IH]; intros st Hfail Hcount Hg; [done|].
  apply Forall_cons in Hfail as [[e He] Hfail].
  cbn [app Pagination.loop length] in *. rewrite He.
  destruct (Pagination.MAX_CONSECUTIVE_ERRORS <=? Pagination.consecutiveErrors st + 1)
    eqn:Hmax.
  { apply Nat.leb_le in Hmax. unfold Pagination.MAX_CONSECUTIVE_ERRORS in Hmax. lia. }
  rewrite IH; cbn [Pagination.offset Pagination.consecutiveErrors]; [|done|lia|done].
  cbn [Pagination.loop Pagination.offset Pagination.results]. by rewrite Hg.
Qed.

Lemma failures_before_a_success_are_absorbed_witness :
  Pagination.getAllPages [failure 500; failure 429; page_of [1] None] = Pagination.Returned [1].
Proof.
  refine (eq_trans (failures_before_a_success_are_absorbed [failure 500; failure 429]
                      (page_of [1] None) (Pagination.mkPage (Some [1]) None) []
                      (Pagination.mkLoop [] None 0) _ _ _) _).
  - repeat constructor; eexists; reflexivity.
  - cbn. lia.
  - reflexivity.
  - reflexivity.
Defined.

(** X24. The webhook writes the rows of the export, short of the [balance]
    cell. The task that [handleWebhookEvent] fetches names its projects
    without their workspace: the fields it asks for are the name and the id
    of the project. For such a task, whose first membership is a project
    with a name and an id, the row that [handleWebhookEvent] builds has 19
    cells and is, cell by cell, the first 19 cells of the row that
    [exportWorkspaceToSheet] pushes for the task under that project, in
    whatever workspace: the whole row in every workspace but
    1205846480740952, where the export has a 20th cell, [balance], that the
    webhook does not write. The export's rows are as long as its headers, the
    task's id is under the header [Task ID], and the tasks the export keeps
    are those for which an event adds a row. *)
Theorem webhook_row_is_export_row (t : task) (pname pgid ws : string)
    (others : list (option project)) :
  memberships t = Some (mkProject (Some pname) (Some pgid) None) :: others ->
  let exported :=
    ProjectController.exportRow ws pname pgid
      (ProjectController.processTaskData t (Some ws)) in
  rowValues t = take 19 exported /\
  length (rowValues t) = 19 /\
  length exported = length (ProjectController.exportHeaders ws) /\
  (ws <> "1205846480740952" -> rowValues t = exported) /\
  (ws = "1205846480740952" -> length exported = 20) /\
  ProjectController.exportHeaders ws !! 17 = Some "Task ID" /\
  rowValues t !! 17 = Some (CStr (gid t)) /\
  ProjectController.relevant t = completed t || is_special (assignee t).
Proof.
  intros Hm exported.
  assert (Hopt : forall o : option string,
            CStr (or_empty o) = cell_or_empty (cell_of_opt o)).
  { intros [s|]; [|reflexivity]. unfold or_empty, or_else, cell_or_empty. cbn.
    destruct (truthy s) eqn:Hs; [reflexivity|].
    apply negb_false_iff, String.eqb_eq in Hs. by subst s. }
  assert (Hstr : forall s : string, CStr s = cell_or_empty (CStr s)).
  { intros s. unfold cell_or_empty. cbn. destruct (truthy s) eqn:Hs; [reflexivity|].
    apply negb_false_iff, String.eqb_eq in Hs. by subst s. }
  assert (Hsome : forall s : string, or_empty (Some s) = s).
  { intros s. unfold or_empty, or_else. cbn. destruct (truthy s) eqn:Hs; [reflexivity|].
    apply negb_false_iff, String.eqb_eq in Hs. by subst s. }
  assert (Hrow : rowValues t = take 19 exported).
  { subst exported. unfold rowValues, ProjectController.exportRow. rewrite Hm.
    cbn [lookup list_lookup from_option id mbind option_bind project_name
         project_gid workspace_gid default].
    change (strict_eq None (Some "1205846480740952")) with false.
    cbn [take app].
    rewrite !(ExportFacts.standard_field t None (Some ws))
      by (repeat first [apply list_elem_of_here | apply list_elem_of_further]).
    unfold processTaskData, ProjectController.processTaskData.
    cbn [task_name p_assignee p_completed_at ProjectController.e_task_name
         ProjectController.e_task_id ProjectController.e_assignee
         ProjectController.e_completed_at ProjectController.e_completed].
    by rewrite <- !Hopt, <- !Hstr, !Hsome. }
  assert (Hlen : length exported
                 = if String.eqb ws "1205846480740952" then 20 else 19).
  { subst exported. unfold ProjectController.exportRow. rewrite length_app.
    by destruct (String.eqb ws "1205846480740952"). }
  split; [exact Hrow|]. split; [|split; [|split; [|split; [|split; [|split]]]]].
  - rewrite Hrow, length_take, Hlen. by destruct (String.eqb ws "1205846480740952").
  - rewrite Hlen. unfold ProjectController.exportHeaders. rewrite length_app.
    by destruct (String.eqb ws "1205846480740952").
  - intros Hws. rewrite Hrow. apply take_ge. rewrite Hlen.
    apply String.eqb_neq in Hws. by rewrite Hws.
  - intros ->. by rewrite Hlen.
  - unfold ProjectController.exportHeaders.
    by destruct (String.eqb ws "1205846480740952").
  - unfold rowValues. cbv zeta. by destruct (strict_eq _ _).
  - unfold ProjectController.relevant, is_special, strict_eq. f_equal.
    destruct (assignee t) as [n|]; [|reflexivity].
    assert (H : forall s : string, bool_decide (Some n = Some s) = String.eqb n s).
    { intros s. destruct (String.eqb_spec n s) as [->|Hne].
      - by apply bool_decide_eq_true.
      - apply bool_decide_eq_false. congruence. }
    by rewrite !H.
Qed.

Lemma webhook_row_is_export_row_witness :
  let t := mkTask "333" "Payout" (Some "Manager") false None
             (Some [mkField "Deposit" None (Some 50%Z) None None;
                    mkField "balance" None (Some 7%Z) None None;
                    mkField "Notes" None None (Some "n/a") None])
             [Some (mkProject (Some "Casino") (Some "P1") None)] in
  map shown (rowValues t)
  = ["Casino"; "Payout"; "Manager"; ""; ""; ""; ""; "50"] ++ replicate 8 ""
    ++ ["P1"; "333"; "No"] /\
  map shown (ProjectController.exportRow "1205846480740952" "Casino" "P1"
               (ProjectController.processTaskData t (Some "1205846480740952")))
  = map shown (rowValues t) ++ ["7"] /\
  rowValues t
  = ProjectController.exportRow "W1" "Casino" "P1"
      (ProjectController.processTaskData t (Some "W1")).
Proof.
  cbv zeta. split; [vm_compute; reflexivity|]. split; [vm_compute; reflexivity|].
  refine (proj1 (proj2 (proj2 (proj2
    (webhook_row_is_export_row
       (mkTask "333" "Payout" (Some "Manager") false None
          (Some [mkField "Deposit" None (Some 50%Z) None None;
                 mkField "balance" None (Some 7%Z) None None;
                 mkField "Notes" None None (Some "n/a") None])
          [Some (mkProject (Some "Casino") (Some "P1") None)])
       "Casino" "P1" "W1" [] eq_refl)))) _).
  discriminate.
Defined.

(** X25. [sheetsRateLimiter] loses no operation and runs none twice at a
    time: in every state it reaches, rate limiting included, the operations
    enqueued so far are, each once, those settled (resolved or rejected),
    the one awaited, those queued and those that a pending timer will put
    back. An operation answered 429 is neither resolved nor rejected. *)
Theorem limiter_loses_no_operation (hs : list RateLimiter.happening)
    (s : RateLimiter.limiter) :
  RateLimiter.run hs RateLimiter.start = Some s ->
  RateLimiter.enqueued s
  ≡ₚ RateLimiter.settled s ++ RateLimiter.running s ++ RateLimiter.queue s ++ held s.
Proof.
  intros Hrun.
  apply (ConservationFacts.run_accounted hs RateLimiter.start s); [| |exact Hrun].
  - reflexivity.
  - unfold accounted. cbn. reflexivity.
Qed.

Lemma limiter_loses_no_operation_witness :
  [1; 2] ≡ₚ [2] ++ [] ++ [] ++ [1].
Proof.
  apply (limiter_loses_no_operation
           [RateLimiter.Enqueue 0 1; RateLimiter.Enqueue 0 2;
            RateLimiter.Settle 100 1 (RateLimiter.RateLimited 0);
            RateLimiter.Fire RateLimiter.Release;
            RateLimiter.Settle 1200 2 RateLimiter.Resolved]
           (RateLimiter.mkLimiter [] true [] [(5000 + 100, RateLimiter.Requeue 1);
                                              (1200 + 1000, RateLimiter.Release)]
                                  1200 [1; 2] [2])).
  vm_compute. reflexivity.
Defined.

(** X26. A rate-limited operation can be left stranded. The timer that puts
    the operation back is due five to ten seconds after the failure, the
    timer that releases the limiter one second after it, and putting back
    does not start the queue: when an operation is answered 429 and nothing
    else comes, the release fires first, then the operation is back in the
    queue with nothing awaited, nothing processing and no timer pending, so
    that only a further [enqueue] can start it. *)
Theorem rate_limited_operation_is_stranded (at_ms settle_ms jitter op : nat)
    (h : RateLimiter.happening) :
  at_ms <= settle_ms ->
  jitter < 5000 ->
  exists s,
    RateLimiter.run (rate_limited_once at_ms settle_ms jitter op) RateLimiter.start = Some s /\
    RateLimiter.queue s = [op] /\ RateLimiter.running s = [] /\
    RateLimiter.processing s = false /\ RateLimiter.timers s = [] /\
    RateLimiter.settled s = [] /\
    (forall s', RateLimiter.step s h = Some s' -> exists t o, h = RateLimiter.Enqueue t o).
Proof.
  intros Hle Hj.
  exists (RateLimiter.mkLimiter [op] false [] [] (settle_ms + 5000 + jitter) [op] []).
  split.
  - assert (H1 : (at_ms <=? settle_ms) = true) by (apply Nat.leb_le; lia).
    assert (H2 : (jitter <? 5000) = true) by (apply Nat.ltb_lt; lia).
    assert (H3 : (settle_ms + RateLimiter.minDelayMs <=? settle_ms + 5000 + jitter) = true).
    { apply Nat.leb_le. unfold RateLimiter.minDelayMs. lia. }
    unfold rate_limited_once, RateLimiter.start.
    unfold RateLimiter.run, RateLimiter.step at 1, RateLimiter.on_time,
      RateLimiter.processQueue.
    cbn -[Nat.leb Nat.ltb Nat.eqb Nat.add Nat.max RateLimiter.minDelayMs RateLimiter.step].
    change (0 <=? at_ms) with true.
    cbn -[Nat.leb Nat.ltb Nat.eqb Nat.add Nat.max RateLimiter.minDelayMs RateLimiter.step].
    unfold RateLimiter.step at 1, RateLimiter.on_time, RateLimiter.remove_op.
    cbn -[Nat.leb Nat.ltb Nat.eqb Nat.add Nat.max RateLimiter.minDelayMs RateLimiter.step].
    rewrite H1, Nat.eqb_refl, H2.
    cbn -[Nat.leb Nat.ltb Nat.eqb Nat.add Nat.max RateLimiter.minDelayMs RateLimiter.step].
    unfold RateLimiter.step at 1, RateLimiter.processQueue.
    cbn -[Nat.leb Nat.ltb Nat.eqb Nat.add Nat.max RateLimiter.minDelayMs RateLimiter.step].
    rewrite H3, Nat.leb_refl.
    cbn -[Nat.leb Nat.ltb Nat.eqb Nat.add Nat.max RateLimiter.minDelayMs RateLimiter.step].
    unfold RateLimiter.step.
    cbn -[Nat.leb Nat.ltb Nat.eqb Nat.add Nat.max RateLimiter.minDelayMs].
    rewrite Nat.eqb_refl, Nat.leb_refl.
    cbn -[Nat.leb Nat.ltb Nat.eqb Nat.add Nat.max RateLimiter.minDelayMs].
    do 2 f_equal. unfold RateLimiter.minDelayMs. lia.
  - repeat split. intros s'. destruct h as [t o|t o e|t]; cbn.
    + eauto.
    + by rewrite andb_false_r.
    + done.
Qed.

Lemma rate_limited_operation_is_stranded_witness :
  exists s,
    RateLimiter.run (rate_limited_once 0 100 250 1) RateLimiter.start = Some s /\
    RateLimiter.queue s = [1] /\ RateLimiter.running s = [] /\
    RateLimiter.processing s = false /\ RateLimiter.timers s = [] /\
    RateLimiter.settled s = [] /\
    (forall s', RateLimiter.step s (RateLimiter.Fire RateLimiter.Release) = Some s' ->
                exists t o, RateLimiter.Fire RateLimiter.Release = RateLimiter.Enqueue t o).
Proof.
  apply (rate_limited_operation_is_stranded 0 100 250 1
           (RateLimiter.Fire RateLimiter.Release)); lia.
Defined.

(** X27. The exit codes of [scripts/storeSecret.cjs]. The script exits with
    2 exactly when the command line gives no [--secret] or no
    [--spreadsheetId] (or an empty one), and then it has made no call; it
    exits with 0 only when the secret has been written, in a row of
    [webhook_secrets] that holds the id chosen ([--webhookId], or a name made
    from the clock) and the secret; any failure gives 1. It never changes
    [Sheet1]. *)
Theorem script_exit_codes (args : list string) (now : N) (w : world) :
  let o := StoreSecretCli.parseArgs args in
  let code := (StoreSecretCli.main args now w).1 in
  let w' := (StoreSecretCli.main args now w).2 in
  (code = 0 \/ code = 1 \/ code = 2) /\
  (code = 2 <-> truthy_opt (StoreSecretCli.opt_secret o) = false \/
                truthy_opt (StoreSecretCli.opt_spreadsheetId o) = false) /\
  (code = 2 -> w' = w) /\
  (code = 0 ->
   exists r : row,
     r ∈ secret_rows w' /\ r !! 0 = Some (StoreSecretCli.chosen_id o now) /\
     r !! 1 = StoreSecretCli.opt_secret o) /\
  sheet1 w' = sheet1 w.
Proof.
  cbv zeta. destruct (StoreSecretCli.main args now w) as [code w'] eqn:Hmain.
  cbn [fst snd]. unfold StoreSecretCli.main in Hmain.
  set (o := StoreSecretCli.parseArgs args) in *.
  unfold if_truthy in Hmain.
  destruct (truthy_opt (StoreSecretCli.opt_secret o)) eqn:Hsecret.
  2:{ injection Hmain as <- <-. intuition (try discriminate; auto). }
  destruct (StoreSecretCli.opt_secret o) as [secret|] eqn:Ho; [|discriminate].
  destruct (truthy_opt (StoreSecretCli.opt_spreadsheetId o)) eqn:Hsid; cbn [negb] in Hmain.
  2:{ injection Hmain as <- <-. intuition (try discriminate; auto). }
  pose proof (ScriptFacts.storeSecret_stores (StoreSecretCli.chosen_id o now) secret) as Hst.
  pose proof (FrameFacts.storeSecret_keeps_sheet1 (sheet1 w)
                (StoreSecretCli.chosen_id o now) secret) as Hfr.
  unfold bind, StoreSecretCli.getSheetsClient in Hmain.
  destruct (auth w) as [e|].
  { injection Hmain as <- <-. intuition (try discriminate; auto). }
  specialize (Hst w I). specialize (Hfr w eq_refl).
  destruct (StoreSecretScript.storeSecret _ secret w) as [[r|e] w1];
    injection Hmain as <- <-; intuition (try discriminate; auto).
Qed.

(** X28. A handshake at [api/webhook.js] leaves the secret in the store when
    nothing fails: with a sheet id, credentials in order and no failing call,
    the answer is the 200 that echoes the secret and the sheet
    [webhook_secrets] then has a row that holds the id resolved for the
    webhook and the secret. *)
Theorem esm_handshake_persists (e : WebhookEsm.env) (req : request)
    (q : list (string * string)) (hookSecret : string) (w : world) :
  query req = Some q ->
  if_truthy (headers req !! "x-hook-secret") = Some hookSecret ->
  truthy_opt (or_else (or_else (searchParams_get q "sheetId") (WebhookEsm.SPREADSHEET_ID e))
                      (WebhookEsm.GOOGLE_SHEETS_SPREADSHEET_ID e)) = true ->
  auth w = None ->
  faults w = [] ->
  exists r w',
    WebhookEsm.handler e req w = (Ok r, w') /\
    statusCode r = 200 /\ res_headers r !! "X-Hook-Secret" = Some hookSecret /\
    exists c : row,
      c ∈ secret_rows w' /\ c !! 0 = Some (WebhookEsm.resolve_webhookId e req q) /\
      c !! 1 = Some hookSecret.
Proof.
  intros Hq Hsecret Hsid Hauth Hcalm.
  destruct (WebhookEsmFacts.persistHookSecret_calm (WebhookEsm.resolve_webhookId e req q)
              hookSecret w Hauth Hcalm) as (w1 & Hrun & _).
  pose proof (ScriptFacts.persistHookSecret_stores (WebhookEsm.resolve_webhookId e req q)
                hookSecret w I) as Hst.
  rewrite Hrun in Hst.
  unfold WebhookEsm.handler, new_URL. rewrite Hq.
  unfold try_catch at 1. unfold bind at 1. unfold ret at 1. rewrite Hsecret, Hsid.
  cbn [negb]. unfold bind, try_catch. rewrite Hrun. unfold ret.
  exists (mkResponse 200
            (<["X-Webhook-Handler-Version" := WebhookEsm.handlerVersion e]>
               {["X-Hook-Secret" := hookSecret]})
            "Handshake OK (persist attempt completed)"), w1.
  split; [reflexivity|]. split; [reflexivity|]. split; [|exact Hst].
  cbn [res_headers]. by rewrite lookup_insert_ne, lookup_singleton_eq.
Qed.

Lemma esm_handshake_persists_witness :
  let req := handshake_request "s1" {["x-hook-gid" := "wh9"]} [] (Json.JObj []) in
  WebhookEsm.resolve_webhookId (bare_env 1700000000) req [("sheetId", "SHEET1")] = "wh9" /\
  exists r w',
    WebhookEsm.handler (bare_env 1700000000) req blank = (Ok r, w') /\
    statusCode r = 200 /\ res_headers r !! "X-Hook-Secret" = Some "s1" /\
    exists c : row,
      c ∈ secret_rows w' /\
      c !! 0 = Some (WebhookEsm.resolve_webhookId (bare_env 1700000000) req
                       [("sheetId", "SHEET1")]) /\
      c !! 1 = Some "s1".
Proof.
  cbv zeta. split; [vm_compute; reflexivity|].
  apply (esm_handshake_persists (bare_env 1700000000)
           (handshake_request "s1" {["x-hook-gid" := "wh9"]} [] (Json.JObj []))
           [("sheetId", "SHEET1")] "s1" blank).
  - reflexivity.
  - vm_compute. reflexivity.
  - reflexivity.
  - reflexivity.
  - reflexivity.
Defined.

(** X29. [retryOperation] retries every error, not only rate limits: it
    makes at most [maxRetries] calls, returns the value of the first call
    that succeeds, and when it throws, every one of the [maxRetries] calls
    has failed and the error thrown is that of the last call. *)
Theorem retryOperation_outcome {A : Type} (maxRetries baseDelay : nat)
    (operation : nat -> RetryOperation.attempt A) :
  0 < maxRetries ->
  exists k,
    (forall i, i < k -> exists err, operation i = RetryOperation.Failure err) /\
    match (RetryOperation.retryOperation maxRetries baseDelay operation).2 with
    | RetryOperation.Returned a =>
        k < maxRetries /\ operation k = RetryOperation.Success a
    | RetryOperation.Threw e =>
        k = maxRetries /\
        exists err, e = Some err /\
                    operation (maxRetries - 1) = RetryOperation.Failure err
    end.
Proof.
  intros Hpos. unfold RetryOperation.retryOperation.
  destruct (RetryOperationFacts.loop_outcome maxRetries baseDelay operation
              maxRetries 0 None eq_refl) as (k & Hbefore & Hend).
  exists k. cbn [Nat.add] in *. split; [exact Hbefore|].
  destruct (RetryOperation.loop maxRetries baseDelay operation maxRetries 0 None).2
    as [a|e]; [exact Hend|].
  destruct Hend as [-> ->]. split; [reflexivity|].
  destruct maxRetries as [|m]; [lia|].
  destruct (Hbefore m ltac:(lia)) as (err & Herr).
  exists err. replace (S m - 1) with m by lia. by rewrite Herr.
Qed.

Lemma retryOperation_outcome_witness :
  RetryOperation.retryOperation 3 1000 third_time_lucky
  = ([2000; 2000; 4000], RetryOperation.Returned 7) /\
  exists k,
    (forall i, i < k -> exists err, third_time_lucky i = RetryOperation.Failure err) /\
    match (RetryOperation.retryOperation 3 1000 third_time_lucky).2 with
    | RetryOperation.Returned a =>
        k < 3 /\ third_time_lucky k = RetryOperation.Success a
    | RetryOperation.Threw e =>
        k = 3 /\
        exists err, e = Some err /\ third_time_lucky (3 - 1) = RetryOperation.Failure err
    end.
Proof.
  split; [vm_compute; reflexivity|].
  apply (retryOperation_outcome 3 1000 third_time_lucky). lia.
Defined.

(** X30. A signature of the wrong length is always refused. The digest that
    the handler compares with the [X-Hook-Signature] header is the hex form
    of an HMAC-SHA256, 64 characters long; a delivery whose signature has
    another length is answered 401, whatever secrets are stored and whatever
    fails on the way, and none of its events is handled: [Sheet1] is as
    before. *)
Theorem signature_of_wrong_length_is_refused (body : Json.json) (signature : string)
    (sid : option string) (w : world) :
  String.length signature <> 64 ->
  (WebhookCjs.delivery body signature sid w).1 = Ok WebhookCjs.rejected /\
  sheet1 (WebhookCjs.delivery body signature sid w).2 = sheet1 w.
Proof.
  intros Hlen.
  assert (Hinvalid : forall S : gset string,
            WebhookCjs.isValid S (Json.stringify body) signature = false).
  { intros S. apply not_true_is_false. intros Hv.
    apply WebhookCjsFacts.isValid_spec in Hv as (secret & _ & Heq).
    apply Hlen. rewrite <- Heq. apply DigestFacts.hmac_sha256_hex_length. }
  destruct (WebhookCjsFacts.delivery_answer body signature sid w)
    as (S & w1 & w' & _ & Hd).
  rewrite Hinvalid in Hd.
  destruct (HandlerFacts.delivery_frame body signature sid w) as [Hframe | Hacc].
  - split; [by rewrite Hd | exact Hframe].
  - rewrite Hd in Hacc. discriminate.
Qed.

Lemma signature_of_wrong_length_is_refused_witness :
  (WebhookCjs.delivery (Json.JObj [("events", Json.JArr [])]) "deadbeef" (Some "SHEET1")
     (with_records [["wh1"; "s1"]] [])).1 = Ok WebhookCjs.rejected /\
  sheet1 (WebhookCjs.delivery (Json.JObj [("events", Json.JArr [])]) "deadbeef"
            (Some "SHEET1") (with_records [["wh1"; "s1"]] [])).2
  = sheet1 (with_records [["wh1"; "s1"]] []).
Proof.
  apply (signature_of_wrong_length_is_refused (Json.JObj [("events", Json.JArr [])])
           "deadbeef" (Some "SHEET1") (with_records [["wh1"; "s1"]] [])).
  vm_compute. discriminate.
Defined.
